(** * KoalaqVision: matching, registration and vector-store consistency

    A shallow embedding of the retrieval core of KoalaqVision
    (src/app/services, src/app/database) and the properties of its
    specification that concern it.

    Conventions of the embedding:
    - Python [int] is [Z]; Python [float] is idealised as an exact
      rational [Q] (no NaN, no rounding error), except where the code
      itself tests for NaN/Inf, where a tagged value is used, and in the
      size computation of [compress_image], which is done in binary64
      arithmetic with its rounding;
    - Python [dict] objects whose iteration order matters are association
      lists in insertion order;
    - calls into the neural models and the vector engine are inputs of the
      embedded functions (the answer each call gives), state that the code
      mutates (collection, files on disk, log) is threaded explicitly;
    - a raised exception is the [inl]/error branch of a result. *)

From Stdlib Require Import ZArith QArith Qround Qabs Qpower Lqa Lia.
From Stdlib Require Import List Bool String Ascii DecimalString.
From Stdlib Require Import Permutation Sorted.
Import ListNotations.

Set Implicit Arguments.

(** ** Python numerics *)

Module PyNum.

Local Open Scope Q_scope.

(** [a < b] on floats, as a boolean. *)
Definition Qltb (a b : Q) : bool := negb (Qle_bool b a).

(** [a > b]. *)
Definition Qgtb (a b : Q) : bool := Qltb b a.

(** [a <= b]. *)
Definition Qleb (a b : Q) : bool := Qle_bool a b.

(** [a >= b]. *)
Definition Qgeb (a b : Q) : bool := Qle_bool b a.

(** Python's [min(a, b)]: the second argument only when strictly smaller. *)
Definition py_min (a b : Q) : Q := if Qltb b a then b else a.

(** Python's [int(x)] on a float: truncation toward zero. *)
Definition py_int (x : Q) : Z := Z.quot (Qnum x) (Zpos (Qden x)).

(** Round to the nearest integer, ties to the even one (Python's [round]). *)
Definition round_half_even (x : Q) : Z :=
  let f := Qfloor x in
  match Qcompare (x - inject_Z f) (1 # 2) with
  | Lt => f
  | Gt => (f + 1)%Z
  | Eq => if Z.even f then f else (f + 1)%Z
  end.

(** Python's [round(x, 2)]. *)
Definition round2 (x : Q) : Q := round_half_even (x * 100) # 100.

(** Python's [a[start:stop]] on a sequence of length [n]: the index range
    kept, after negative indices are counted from the end and both ends are
    clamped to the sequence. *)
Definition py_slice (n start stop : Z) : Z * Z :=
  let norm i := if (i <? 0)%Z then Z.max (i + n) 0 else Z.min i n in
  (norm start, norm stop).

(** Number of elements of [a[start:stop]]. *)
Definition py_slice_len (n start stop : Z) : Z :=
  let '(lo, hi) := py_slice n start stop in Z.max (hi - lo) 0.

(** Python's [l[:k]]. *)
Definition py_prefix {A : Type} (l : list A) (k : Z) : list A :=
  firstn (Z.to_nat (snd (py_slice (Z.of_nat (List.length l)) 0 k))) l.

(** [str(n)] for a non-negative integer. *)
Definition str_of_nat (n : nat) : string :=
  NilEmpty.string_of_uint (Nat.to_uint n).

(** The line feed character, as a string. *)
Definition nl : string := String (ascii_of_nat 10) EmptyString.

(** A Python [dict] with string keys, in insertion order. *)
Definition dict (V : Type) : Type := list (string * V).

(** [d.get(k)]. *)
Fixpoint dict_get {V : Type} (d : dict V) (k : string) : option V :=
  match d with
  | [] => None
  | (k', v) :: d' => if String.eqb k' k then Some v else dict_get d' k
  end.

(** [k in d]. *)
Definition dict_mem {V : Type} (d : dict V) (k : string) : bool :=
  match dict_get d k with Some _ => true | None => false end.

(** [d[k] = v]: an existing key keeps its place, a new key goes last. *)
Fixpoint dict_set {V : Type} (d : dict V) (k : string) (v : V) : dict V :=
  match d with
  | [] => [(k, v)]
  | (k', v') :: d' =>
      if String.eqb k' k then (k', v) :: d'
      else (k', v') :: dict_set d' k v
  end.

(** [d.keys()] and [d.values()]. *)
Definition dict_keys {V : Type} (d : dict V) : list string := map fst d.
Definition dict_values {V : Type} (d : dict V) : list V := map snd d.

(** The dictionary [{k: f(k) for k in ks}]. *)
Definition tabulate {V : Type} (f : string -> V) (ks : list string) : dict V :=
  map (fun k => (k, f k)) ks.

(** Truthiness of an optional string: neither [None] nor empty. *)
Definition truthy (s : option string) : bool :=
  match s with
  | Some s => negb (String.eqb s EmptyString)
  | None => false
  end.

End PyNum.

(** ** Paths ([pathlib.Path] on a POSIX system)

    A path is its root and its components; building one from a string
    drops the empty components and the components ["."], so that
    ["a//b"], ["a/./b"] and ["a/b/"] all give ["a/b"]. *)

Module PyPath.

Local Open Scope string_scope.

(** [s.split("/")]. *)
Fixpoint split_slash (s : string) : list string :=
  match s with
  | EmptyString => [EmptyString]
  | String c s' =>
      if Ascii.eqb c "/" then EmptyString :: split_slash s'
      else match split_slash s' with
           | h :: t => String c h :: t
           | [] => [String c EmptyString]
           end
  end.

(** ["/".join(parts)]. *)
Fixpoint join_slash (parts : list string) : string :=
  match parts with
  | [] => ""
  | p :: ps =>
      match ps with
      | [] => p
      | _ => p ++ "/" ++ join_slash ps
      end
  end.

(** The components a path keeps: empty ones and ["."] are dropped. *)
Definition is_part (c : string) : bool :=
  negb (String.eqb c "") && negb (String.eqb c ".").

Fixpoint leading_slashes (s : string) : nat :=
  match s with
  | String c s' => if Ascii.eqb c "/" then S (leading_slashes s') else 0
  | EmptyString => 0
  end.

(** The root of a POSIX path: none, ["/"], or ["//"] for exactly two
    leading slashes. *)
Definition root_of (s : string) : string :=
  match leading_slashes s with
  | 0 => ""
  | 2 => "//"
  | _ => "/"
  end%nat.

Record path := {
  root : string;
  parts : list string
}.

(** [Path(s)]. *)
Definition Path (s : string) : path :=
  {| root := root_of s; parts := filter is_part (split_slash s) |}.

(** [str(p)]. *)
Definition str (p : path) : string :=
  match root p, parts p with
  | EmptyString, [] => "."
  | r, ps => r ++ join_slash ps
  end.

(** [p / s]: an absolute [s] replaces [p]. *)
Definition joinpath (p : path) (s : string) : path :=
  match leading_slashes s with
  | O => {| root := root p;
            parts := (parts p ++ filter is_part (split_slash s))%list |}
  | _ => Path s
  end.

Fixpoint starts_with (pre l : list string) : bool :=
  match pre, l with
  | [], _ => true
  | a :: pre', b :: l' => String.eqb a b && starts_with pre' l'
  | _ :: _, [] => false
  end.

(** [p.is_relative_to(q)], a comparison of components. *)
Definition is_relative_to (p q : path) : bool :=
  String.eqb (root p) (root q) && starts_with (parts q) (parts p).

(** [p.relative_to(q)] when [p.is_relative_to(q)]. *)
Definition relative_to (p q : path) : path :=
  {| root := ""; parts := skipn (List.length (parts q)) (parts p) |}.

(** [p.parent]. *)
Definition parent (p : path) : path :=
  {| root := root p; parts := removelast (parts p) |}.

(** A string without ["/"]. *)
Fixpoint no_slash (s : string) : bool :=
  match s with
  | EmptyString => true
  | String c s' => negb (Ascii.eqb c "/") && no_slash s'
  end.

(** A component as [Path] keeps them. *)
Definition clean (c : string) : bool := is_part c && no_slash c.

End PyPath.

(** ** Liveness classifier (services/minifasnet_liveness.py) *)

Module Liveness.

Import PyNum.
Local Open Scope Q_scope.

(** The [details] dictionary built by [predict]. *)
Record details := {
  real_score : Q;
  paper_score : Q;
  screen_score : Q;
  label : Z;
  num_models : Z
}.

(** The text of [reject_reason]: each f-string of the source is a
    constructor holding the two numbers it interpolates. *)
Inductive reject_reason :=
| RealScoreTooLow (score threshold : Q)
| PaperScoreTooHigh (score threshold : Q)
| ScreenScoreTooHigh (score threshold : Q).

(** [details] after [predict_with_threshold] has added its keys. *)
Record details_thr := {
  base : details;
  d_threshold : Q;
  d_paper_reject_threshold : Q;
  d_screen_reject_threshold : Q;
  passed : bool;
  d_reject_reason : option reject_reason
}.

(** [np.argmax] over the three averaged scores: first index of the maximum. *)
Definition argmax3 (s0 s1 s2 : Q) : Z :=
  if Qgtb s1 s0 then (if Qgtb s2 s1 then 2 else 1)%Z
  else (if Qgtb s2 s0 then 2 else 0)%Z.

(** [predict], from the averaged softmax distribution of the ensemble
    ([predictions[0]], classes 0 = paper, 1 = real, 2 = screen) on. *)
Definition predict (scores : Q * Q * Q) (n_models : Z) : bool * Q * details :=
  let '(s0, s1, s2) := scores in
  let label := argmax3 s0 s1 s2 in
  let real_score := s1 in
  let fake_score := s0 + s2 in
  let total := real_score + fake_score in
  let real_score_normalized :=
    if Qgtb total 0 then real_score / total else 1 # 2 in
  let is_real := (label =? 1)%Z in
  (is_real, real_score_normalized,
   {| real_score := s1; paper_score := s0; screen_score := s2;
      label := label; num_models := n_models |}).

(** [predict_with_threshold]. *)
Definition predict_with_threshold (scores : Q * Q * Q) (n_models : Z)
    (threshold paper_reject_threshold screen_reject_threshold : Q)
    : bool * Q * details_thr :=
  let '(is_real_label, score, details) := predict scores n_models in
  let real_score := real_score details in
  let paper_score := paper_score details in
  let screen_score := screen_score details in
  let is_real :=
    Qgtb real_score threshold &&
    Qltb paper_score paper_reject_threshold &&
    Qltb screen_score screen_reject_threshold in
  let reject_reason :=
    if negb is_real then
      if Qleb real_score threshold then
        Some (RealScoreTooLow real_score threshold)
      else if Qgeb paper_score paper_reject_threshold then
        Some (PaperScoreTooHigh paper_score paper_reject_threshold)
      else if Qgeb screen_score screen_reject_threshold then
        Some (ScreenScoreTooHigh screen_score screen_reject_threshold)
      else None
    else None in
  (is_real, score,
   {| base := details;
      d_threshold := threshold;
      d_paper_reject_threshold := paper_reject_threshold;
      d_screen_reject_threshold := screen_reject_threshold;
      passed := is_real;
      d_reject_reason := reject_reason |}).

Definition accepted (r : bool * Q * details_thr) : bool := fst (fst r).

Definition reason (r : bool * Q * details_thr) : option reject_reason :=
  d_reject_reason (snd r).

(** [_get_new_box]: the crop box of one ensemble member.  [None] is the
    [ZeroDivisionError] of [(src_h-1)/box_h] or [(src_w-1)/box_w]. *)
Definition _get_new_box (src_w src_h : Z) (bbox : Z * Z * Z * Z) (scale : Q)
    : option (Z * Z * Z * Z) :=
  let '(x, y, box_w, box_h) := bbox in
  if (box_h =? 0)%Z || (box_w =? 0)%Z then None else
  let scale :=
    py_min (inject_Z (src_h - 1) / inject_Z box_h)
           (py_min (inject_Z (src_w - 1) / inject_Z box_w) scale) in
  let new_width := inject_Z box_w * scale in
  let new_height := inject_Z box_h * scale in
  let center_x := inject_Z box_w / 2 + inject_Z x in
  let center_y := inject_Z box_h / 2 + inject_Z y in
  let left_top_x := center_x - new_width / 2 in
  let left_top_y := center_y - new_height / 2 in
  let right_bottom_x := center_x + new_width / 2 in
  let right_bottom_y := center_y + new_height / 2 in
  let '(left_top_x, right_bottom_x) :=
    if Qltb left_top_x 0 then (0, right_bottom_x - left_top_x)
    else (left_top_x, right_bottom_x) in
  let '(left_top_y, right_bottom_y) :=
    if Qltb left_top_y 0 then (0, right_bottom_y - left_top_y)
    else (left_top_y, right_bottom_y) in
  let '(left_top_x, right_bottom_x) :=
    if Qgtb right_bottom_x (inject_Z (src_w - 1)) then
      (left_top_x - (right_bottom_x - inject_Z src_w + 1), inject_Z (src_w - 1))
    else (left_top_x, right_bottom_x) in
  let '(left_top_y, right_bottom_y) :=
    if Qgtb right_bottom_y (inject_Z (src_h - 1)) then
      (left_top_y - (right_bottom_y - inject_Z src_h + 1), inject_Z (src_h - 1))
    else (left_top_y, right_bottom_y) in
  Some (py_int left_top_x, py_int left_top_y,
        py_int right_bottom_x, py_int right_bottom_y).

(** The region [_preprocess_face] crops before resizing,
    [img_bgr[top:bottom+1, left:right+1]], as (rows kept, columns kept) of
    an image of [src_h] rows and [src_w] columns. *)
Definition crop_shape (src_w src_h : Z) (box : Z * Z * Z * Z) : Z * Z :=
  let '(left_top_x, left_top_y, right_bottom_x, right_bottom_y) := box in
  (py_slice_len src_h left_top_y (right_bottom_y + 1),
   py_slice_len src_w left_top_x (right_bottom_x + 1)).

(** Why [_preprocess_face] can fail. *)
Inductive preprocess_error := ZeroDivisionError | EmptyCrop.

(** [_preprocess_face] up to the resize: the shape of [face_crop], which
    [cv2.resize] rejects when it is empty. *)
Definition _preprocess_face (src_w src_h : Z) (bbox : Z * Z * Z * Z)
    (scale : Q) : preprocess_error + Z * Z :=
  match _get_new_box src_w src_h bbox scale with
  | None => inl ZeroDivisionError
  | Some box =>
      let '(rows, cols) := crop_shape src_w src_h box in
      if (rows =? 0)%Z || (cols =? 0)%Z then inl EmptyCrop
      else inr (rows, cols)
  end.

End Liveness.

(** ** Vector store adapter (services/vector_service.py,
       database/weaviate_client.py) *)

Module VectorService.

Import PyNum.
Local Open Scope string_scope.

(** Parsed [custom_data]: keys to JSON values, the values kept as text. *)
Definition custom : Type := dict string.

(** The JSON library, [json.dumps] and [json.loads] ([None]: it raised). *)
Record json_codec := {
  dumps : custom -> string;
  loads : string -> option custom
}.

(** An element of a Python feature vector. *)
Inductive fval := FNone | FNaN | FInf (negative : bool) | FNum (q : Q).

(** [str(val)] for the values the validation loop rejects. *)
Definition str_of_fval (v : fval) : string :=
  match v with
  | FNone => "None"
  | FNaN => "nan"
  | FInf false => "inf"
  | FInf true => "-inf"
  | FNum _ => "<float>"
  end.

(** The face-only properties of a stored object. *)
Record face_properties := {
  p_face_bbox : string;
  p_face_score : Q;
  p_face_landmarks : string
}.

(** The properties of a stored object ([data_object]). *)
Record properties := {
  p_image_id : string;
  p_object_id : string;
  p_img_url : string;
  p_img_object_url : string;
  p_custom_data : string;
  p_created_at : string;
  p_face : option face_properties
}.

(** One object of the collection: engine identifier, properties, vector. *)
Record db_object := {
  uuid : nat;
  props : properties;
  vector : list fval
}.

Definition collection : Type := list db_object.

(** The client object: which of the two API shapes it offers. *)
Record client := {
  has_query : bool;
  has_collections : bool
}.

Definition v4_client : client :=
  {| has_query := false; has_collections := true |}.
Definition legacy_client : client :=
  {| has_query := true; has_collections := false |}.

Inductive error :=
| ValueError (msg : string)
| TypeError (msg : string)
| AttributeError (msg : string)
| OSError (msg : string)
| Exception_ (msg : string).

(** *** [WeaviateClient.get_vector_dimension] *)

(** What [requests.get] on [/v1/objects] gave: it raised, or a status code
    with the listed objects, each with its [vector] key when it has one. *)
Inductive rest_response :=
| RestRaised
| RestStatus (status_code : Z) (objects : list (option (list fval))).

(** The answer of a reachable engine to
    [GET /v1/objects?class=..&limit=1&include=vector]. *)
Definition rest_get_objects (c : collection) : rest_response :=
  RestStatus 200 (map (fun o => Some (vector o)) (firstn 1 c)).

Definition get_vector_dimension (response : rest_response) : option nat :=
  match response with
  | RestRaised => None
  | RestStatus status_code objects =>
      if (status_code =? 200)%Z then
        match objects with
        | Some v :: _ => Some (List.length v)
        | _ => None
        end
      else None
  end.

(** *** [VectorService.add_image] *)

(** The face fields of a [FaceData]. *)
Record face_fields := {
  face_bbox : option string;
  face_score : option Q;
  face_landmarks : option string
}.

(** An [ObjectData] or a [FaceData] ([d_face] is [Some] for the latter);
    [d_entity_id] is [object_id] or [person_id], [d_img_object_url] is
    [img_object_url] or [img_face_url]. *)
Record image_data := {
  d_image_id : string;
  d_entity_id : string;
  d_img_url : option string;
  d_img_object_url : option string;
  feature_vector : list fval;
  d_custom_data : custom;
  d_created_at : string;
  d_face : option face_fields
}.

(** First index of the vector that holds [None], NaN or an infinity. *)
Fixpoint first_invalid (i : nat) (v : list fval) : option (nat * fval) :=
  match v with
  | [] => None
  | FNum _ :: v' => first_invalid (S i) v'
  | val :: _ => Some (i, val)
  end.

Definition invalid_vector_message : string :=
  "Invalid feature vector: must be a non-empty list".

Definition invalid_value_message (i : nat) (val : fval) : string :=
  "Invalid value in feature vector at index " ++ str_of_nat i ++ ": "
  ++ str_of_fval val.

Definition dimension_mismatch_message (db_vector_dim current_vector_dim : nat)
    : string :=
  "Vector dimension mismatch! "
  ++ "Database expects " ++ str_of_nat db_vector_dim ++ "D vectors, "
  ++ "but current model outputs " ++ str_of_nat current_vector_dim
  ++ "D vectors. "
  ++ nl ++ nl
  ++ "Please run: python scripts/reset_database.py to clear the database and recreate collection.".

Definition or_empty (s : option string) : string :=
  match s with
  | Some s => s
  | None => ""
  end.

(** The [data_object] built from the record. *)
Definition data_object (json : json_codec) (collection_name : string)
    (d : image_data) : properties :=
  {| p_image_id := d_image_id d;
     p_object_id := d_entity_id d;
     p_img_url := or_empty (d_img_url d);
     p_img_object_url := or_empty (d_img_object_url d);
     p_custom_data :=
       match d_custom_data d with
       | [] => "{}"
       | c => dumps json c
       end;
     p_created_at := d_created_at d;
     p_face :=
       if String.eqb collection_name "FaceData" then
         match d_face d with
         | Some f =>
             Some {| p_face_bbox :=
                       if truthy (face_bbox f) then or_empty (face_bbox f)
                       else "[]";
                     p_face_score :=
                       match face_score f with
                       | Some q => q
                       | None => 0%Q
                       end;
                     p_face_landmarks :=
                       if truthy (face_landmarks f)
                       then or_empty (face_landmarks f) else "[]" |}
         | None => None
         end
       else None |}.

(** The identifier the engine gives to a new object. *)
Definition fresh_uuid (c : collection) : nat :=
  S (fold_right Nat.max 0%nat (map uuid c)).

(** The engine's insert: the object is appended to the collection (the
    checks the engine makes itself are outside the embedding). *)
Definition engine_insert (c : collection) (p : properties) (v : list fval)
    : collection :=
  (c ++ [{| uuid := fresh_uuid c; props := p; vector := v |}])%list.

(** [add_image]: the exception raised or the image id returned, and the
    collection after the call.  [response] is what the dimension lookup
    receives from the engine; the v4 and the legacy branch both hand the
    object to the engine. *)
Definition add_image (json : json_codec) (collection_name : string)
    (response : rest_response) (d : image_data) (c : collection)
    : (error + string) * collection :=
  match feature_vector d with
  | [] => (inl (ValueError invalid_vector_message), c)
  | _ =>
      match first_invalid 0 (feature_vector d) with
      | Some (i, val) => (inl (ValueError (invalid_value_message i val)), c)
      | None =>
          let current_vector_dim := List.length (feature_vector d) in
          let db_vector_dim := get_vector_dimension response in
          let inserted :=
            (inr (d_image_id d),
             engine_insert c (data_object json collection_name d)
               (feature_vector d)) in
          match db_vector_dim with
          | Some db_dim =>
              if negb (db_dim =? current_vector_dim)%nat then
                (inl (ValueError
                        (dimension_mismatch_message db_dim
                           current_vector_dim)), c)
              else inserted
          | None => inserted
          end
      end
  end.

(** A vector that passes the two value checks of [add_image]: not empty
    and made of finite numbers only. *)
Definition well_formed (v : list fval) : Prop :=
  v <> [] /\ first_invalid 0 v = None.

(** *** [VectorService.search_similar] *)

(** One hit of a nearest-neighbour query: the stored properties and the
    score the engine attaches, when it does ([certainty] for the legacy
    API, [distance] for the v4 API). *)
Record item := {
  i_props : properties;
  i_score : option Q
}.

Record ImageSearchResponse := {
  image_id : string;
  object_id : string;
  similarity : Q;
  img_url : option string;
  img_object_url : option string;
  custom_data : custom
}.

(** The engine: query vector, limit and [object_id] filter to hits. *)
Definition engine : Type := list fval -> Z -> option string -> list item.

Definition or_none (s : string) : option string :=
  if String.eqb s "" then None else Some s.

(** The [custom_data] of a hit, parsed when present and well-formed. *)
Definition parse_custom_data (json : json_codec) (raw : string) : custom :=
  if String.eqb raw "" then []
  else match loads json raw with
       | Some c => c
       | None => []
       end.

(** The similarity the code reads off a hit. *)
Definition item_similarity (cl : client) (it : item) : Q :=
  if has_query cl then
    match i_score it with Some certainty => certainty | None => 0%Q end
  else
    let distance := match i_score it with Some d => d | None => 2%Q end in
    (1 - distance / 2)%Q.

Definition response_of (json : json_codec) (cl : client) (it : item)
    : ImageSearchResponse :=
  {| image_id := p_image_id (i_props it);
     object_id := p_object_id (i_props it);
     similarity := item_similarity cl it;
     img_url := or_none (p_img_url (i_props it));
     img_object_url := or_none (p_img_object_url (i_props it));
     custom_data := parse_custom_data json (p_custom_data (i_props it)) |}.

(** The loop over the hits: those below the threshold are skipped. *)
Fixpoint collect_responses (json : json_codec) (cl : client)
    (threshold : Q) (items : list item) : list ImageSearchResponse :=
  match items with
  | [] => []
  | it :: items' =>
      if Qltb (item_similarity cl it) threshold
      then collect_responses json cl threshold items'
      else response_of json cl it
             :: collect_responses json cl threshold items'
  end.

Definition search_similar (json : json_codec) (cl : client) (eng : engine)
    (feature_vector : list fval) (top_k : Z) (threshold : Q)
    (filter_object_id : option string)
    : error + list ImageSearchResponse :=
  if has_query cl || has_collections cl then
    let query_limit := Z.min (top_k * 3) 100 in
    let items :=
      eng feature_vector query_limit
        (if truthy filter_object_id then filter_object_id else None) in
    let responses := collect_responses json cl threshold items in
    inr (py_prefix responses top_k)
  else inl (Exception_ "Unknown Weaviate client type").

(** The order in which the engine lists its hits: nearest first. *)
Definition nearer_first (cl : client) (a b : item) : Prop :=
  (item_similarity cl b <= item_similarity cl a)%Q.

(** The hits the engine gives to [search_similar] for a request. *)
Definition candidates (eng : engine) (feature_vector : list fval)
    (top_k : Z) (filter_object_id : option string) : list item :=
  eng feature_vector (Z.min (top_k * 3) 100)
    (if truthy filter_object_id then filter_object_id else None).

(** *** Deletion *)

(** The files on disk, by the names under which they were made, the
    files whose [unlink] fails, and the names that the operating system
    resolves to one file ([alias p f]: the path [p] names the file [f],
    as ["a/../b"] names ["b"]). *)
Record filesystem := {
  files : list string;
  undeletable : list string;
  alias : string -> string -> bool
}.

(** The path [p] names the file [f]. *)
Definition same_file (fs : filesystem) (p f : string) : bool :=
  String.eqb p f || alias fs p f.

Definition path_exists (fs : filesystem) (p : string) : bool :=
  existsb (same_file fs p) (files fs).

(** [Path.unlink] inside its [try]: a failure is only logged. *)
Definition unlink (fs : filesystem) (p : string) : filesystem :=
  if existsb (same_file fs p) (undeletable fs) then fs
  else {| files := filter (fun f => negb (same_file fs p f)) (files fs);
          undeletable := undeletable fs;
          alias := alias fs |}.

(** [_url_to_path]: the path is built by [Path], and handed to the
    operating system as [str] gives it. *)
Definition _url_to_path (url : string) : option string :=
  if String.eqb url "" then None
  else if prefix "/images/" url
       then Some (PyPath.str
                    (PyPath.Path
                       ("data/" ++ substring 8 (String.length url - 8) url)))
       else None.

Definition delete_one_file (url : option string) (fs : filesystem)
    : filesystem :=
  if truthy url then
    match _url_to_path (or_empty url) with
    | Some path => if path_exists fs path then unlink fs path else fs
    | None => fs
    end
  else fs.

Definition _delete_physical_files (img_url img_object_url : option string)
    (fs : filesystem) : filesystem :=
  delete_one_file img_object_url (delete_one_file img_url fs).

(** The object the engine finds for an [image_id] filter with limit 1. *)
Definition fetch_by_image_id (c : collection) (image_id : string)
    : option db_object :=
  find (fun o => String.eqb (p_image_id (props o)) image_id) c.

(** The dictionary [get_by_image_id] returns.  [rec_custom_data] is the
    parsed object when the stored text is not empty and [json.loads]
    accepts it, and the stored text otherwise; an empty URL stands for the
    [None] that was stored. *)
Record image_record := {
  rec_image_id : string;
  rec_object_id : string;
  rec_img_url : string;
  rec_img_object_url : string;
  rec_created_at : string;
  rec_custom_data : string + custom;
  rec_face : option face_properties
}.

(** The face fields of the dictionary: none for [ObjectData]; for
    [FaceData] the legacy API returns them as stored, the v4 branch fills
    in ["[]"], [0] and ["[]"] for fields that are missing. *)
Definition record_face (collection_name : string) (cl : client)
    (p : properties) : option face_properties :=
  if String.eqb collection_name "FaceData" then
    if has_query cl then p_face p
    else Some match p_face p with
              | Some f => f
              | None => {| p_face_bbox := "[]"; p_face_score := 0;
                           p_face_landmarks := "[]" |}
              end
  else None.

Definition to_record (json : json_codec) (collection_name : string)
    (cl : client) (p : properties) : image_record :=
  {| rec_image_id := p_image_id p;
     rec_object_id := p_object_id p;
     rec_img_url := p_img_url p;
     rec_img_object_url := p_img_object_url p;
     rec_created_at := p_created_at p;
     rec_custom_data :=
       if String.eqb (p_custom_data p) "" then inl (p_custom_data p)
       else match loads json (p_custom_data p) with
            | Some c => inr c
            | None => inl (p_custom_data p)
            end;
     rec_face := record_face collection_name cl p |}.

(** [get_by_image_id]: the record found, [None] when there is no such
    object or the client offers neither API. *)
Definition get_by_image_id (json : json_codec) (collection_name : string)
    (cl : client) (c : collection) (image_id : string)
    : option image_record :=
  if has_query cl || has_collections cl then
    match fetch_by_image_id c image_id with
    | Some o => Some (to_record json collection_name cl (props o))
    | None => None
    end
  else None.

(** The engine's delete by identifier. *)
Definition delete_by_id (c : collection) (id : nat) : collection :=
  filter (fun o => negb (Nat.eqb (uuid o) id)) c.

(** [delete_by_image_id]: the returned flag, the collection and the files
    after the call. *)
Definition delete_by_image_id (json : json_codec) (collection_name : string)
    (cl : client) (image_id : string)
    (c : collection) (fs : filesystem) : bool * collection * filesystem :=
  match get_by_image_id json collection_name cl c image_id with
  | None => (false, c, fs)
  | Some img_data =>
      let fs := _delete_physical_files
                  (Some (rec_img_url img_data))
                  (Some (rec_img_object_url img_data)) fs in
      if has_query cl || has_collections cl then
        match fetch_by_image_id c image_id with
        | Some o => (true, delete_by_id c (uuid o), fs)
        | None => (false, c, fs)
        end
      else (false, c, fs)
  end.

(** A JSON library: what it writes for an object is not empty and is read
    back as that object. *)
Definition round_trips (json : json_codec) : Prop :=
  loads json "{}" = Some [] /\
  forall c, c <> [] ->
    dumps json c <> "" /\ loads json (dumps json c) = Some c.

End VectorService.

(** ** Matching engine (services/face_service.py [match_face],
       services/object_service.py [match_image]), from the search on *)

Module Matching.

Import PyNum VectorService.
Local Open Scope string_scope.

Inductive mode := ObjectMode | FaceMode.

(** One entry of a group's ["images"] / ["faces"] list.  The two face keys
    are present in face mode only. *)
Record member := {
  m_image_id : string;
  m_similarity : Q;
  m_img_url : option string;
  m_img_object_url : option string;
  m_face_bbox : option string;
  m_face_score : option string;
  m_custom_data : custom
}.

(** One value of [grouped_results]: the entity id (["object_id"] or
    ["person_id"]), the member list and [max_similarity]. *)
Record group := {
  g_id : string;
  members : list member;
  max_similarity : Q
}.

Definition member_of (md : mode) (result : ImageSearchResponse) : member :=
  {| m_image_id := image_id result;
     m_similarity := round2 (similarity result);
     m_img_url := img_url result;
     m_img_object_url := img_object_url result;
     m_face_bbox :=
       match md with
       | FaceMode => dict_get (custom_data result) "face_bbox"
       | ObjectMode => None
       end;
     m_face_score :=
       match md with
       | FaceMode => dict_get (custom_data result) "face_score"
       | ObjectMode => None
       end;
     m_custom_data := custom_data result |}.

(** The body of the grouping loop, for one [result]. *)
Definition add_result (md : mode) (grouped_results : dict group)
    (result : ImageSearchResponse) : dict group :=
  let obj_id := object_id result in
  let grouped_results :=
    if dict_mem grouped_results obj_id then grouped_results
    else dict_set grouped_results obj_id
           {| g_id := obj_id; members := []; max_similarity := 0 |} in
  match dict_get grouped_results obj_id with
  | None => grouped_results
  | Some g =>
      let g := {| g_id := g_id g;
                  members := (members g ++ [member_of md result])%list;
                  max_similarity := max_similarity g |} in
      let g :=
        if Qgtb (similarity result) (max_similarity g)
        then {| g_id := g_id g; members := members g;
                max_similarity := round2 (similarity result) |}
        else g in
      dict_set grouped_results obj_id g
  end.

(** Step 6: [grouped_results] after the loop over [all_results]. *)
Definition group_results (md : mode) (all_results : list ImageSearchResponse)
    : dict group :=
  fold_left (add_result md) all_results [].

(** Insertion of a group into a list sorted by decreasing
    [max_similarity], after the groups that are strictly greater. *)
Fixpoint insert_desc (g : group) (l : list group) : list group :=
  match l with
  | [] => [g]
  | h :: t =>
      if Qgtb (max_similarity h) (max_similarity g)
      then h :: insert_desc g t
      else g :: h :: t
  end.

(** [sorted(groups, key=max_similarity, reverse=True)]: a stable sort,
    groups of equal key keep their order. *)
Fixpoint sorted_desc (l : list group) : list group :=
  match l with
  | [] => []
  | g :: l' => insert_desc g (sorted_desc l')
  end.

(** Step 7: sort the groups and keep [[:top_k]]. *)
Definition rank_groups (grouped_results : dict group) (top_k : Z)
    : list group :=
  py_prefix (sorted_desc (dict_values grouped_results)) top_k.





(** *** What the grouping computes, stated on the input list *)

(** The distinct entity ids of the results, in first-seen order. *)
Definition first_seen (all_results : list ImageSearchResponse) : list string :=
  fold_left
    (fun seen r =>
       if existsb (String.eqb (object_id r)) seen then seen
       else (seen ++ [object_id r])%list)
    all_results [].

(** [result] belongs to entity [k]. *)
Definition has_id (k : string) (result : ImageSearchResponse) : bool :=
  String.eqb (object_id result) k.

(** The running [max_similarity] of one group after its results [l]. *)
Definition run_max (l : list ImageSearchResponse) : Q :=
  fold_left
    (fun m r => if Qgtb (similarity r) m then round2 (similarity r) else m)
    l 0%Q.

(** The group of entity [k]: its results in input order. *)
Definition group_of (md : mode) (all_results : list ImageSearchResponse)
    (k : string) : group :=
  {| g_id := k;
     members := map (member_of md) (filter (has_id k) all_results);
     max_similarity := run_max (filter (has_id k) all_results) |}.

(** [r] is a result of entity [k] with the greatest similarity among the
    results of [k]. *)
Definition best_of (all_results : list ImageSearchResponse) (k : string)
    (r : ImageSearchResponse) : Prop :=
  In r all_results /\ object_id r = k /\
  forall r', In r' all_results -> object_id r' = k ->
             (similarity r' <= similarity r)%Q.

(** The [image_id]s of all members of all groups, group after group. *)
Definition member_ids (groups : list group) : list string :=
  List.concat (map (fun g => map m_image_id (members g)) groups).

(** [a] may stand before [b] in a ranking by decreasing
    [max_similarity]. *)
Definition ranks_before (a b : group) : Prop :=
  (max_similarity b <= max_similarity a)%Q.

End Matching.

(** ** Registration engine (services/object_service.py [add_image],
       services/face_service.py [add_face]) *)

Module Registration.

Import PyNum VectorService.
Local Open Scope string_scope.

(** A decoded picture, as an opaque handle. *)
Definition image : Type := string.

(** What a registration can change: the files on disk and the collection. *)
Record world := {
  disk : list string;
  store : collection
}.

(** Writing a file: the path exists afterwards. *)
Definition write_file (path : string) (files : list string) : list string :=
  if existsb (String.eqb path) files then files else (files ++ [path])%list.

(** [settings.upload_path] and [settings.temp_path], at their defaults. *)
Definition upload_path : PyPath.path := PyPath.Path "data/upload".
Definition temp_path : PyPath.path := PyPath.Path "data/temp".

(** [image_dir = upload_path / object_id / image_id]. *)
Definition image_dir (entity_id image_id : string) : PyPath.path :=
  PyPath.joinpath (PyPath.joinpath upload_path entity_id) image_id.

(** The paths [image_utils.save_upload_image] builds:
    [image_dir / f"{image_id}.jpg"] and
    [image_dir / f"{image_id}_object.png"]. *)
Definition original_file (entity_id image_id : string) : string :=
  PyPath.str (PyPath.joinpath (image_dir entity_id image_id)
                (image_id ++ ".jpg")).

Definition object_file (entity_id image_id : string) : string :=
  PyPath.str (PyPath.joinpath (image_dir entity_id image_id)
                (image_id ++ "_object.png")).

(** [image_utils.save_upload_image] with [save_processed=True]: the original
    is written, the path of the processed picture is only computed.
    [saves path] tells whether the picture can be compressed, the
    directories of [path] made and the picture written there; when not,
    the exception of [compress_image], [mkdir] or [save] is raised again
    (as [OSError] here, whichever it is) and no file is left. *)
Definition save_upload_image (saves : string -> bool)
    (entity_id image_id : string) (files : list string)
    : error + string * string * list string :=
  let original_path := original_file entity_id image_id in
  let object_path := object_file entity_id image_id in
  if saves original_path
  then inr (original_path, object_path, write_file original_path files)
  else inl (OSError original_path).

(** [image_utils.save_processed_image]. *)
Definition save_processed_image (saves : string -> bool) (filepath : string)
    (files : list string) : error + string * list string :=
  let save_path := PyPath.str (PyPath.Path filepath) in
  if saves save_path then inr (save_path, write_file save_path files)
  else inl (OSError save_path).

(** [image_utils.get_image_url]: a path below the upload or the temporary
    directory is taken relative to the parent of that directory.  (The
    [except] branch is never taken: [relative_to] follows a successful
    [is_relative_to].) *)
Definition get_image_url (filepath : string) : string :=
  let path := PyPath.Path filepath in
  let rel_path :=
    if PyPath.is_relative_to path upload_path
    then PyPath.relative_to path (PyPath.parent upload_path)
    else if PyPath.is_relative_to path temp_path
    then PyPath.relative_to path (PyPath.parent temp_path)
    else path in
  "/images/" ++ PyPath.str rel_path.

(** The models of object mode, as the answers they give: [None] is the
    [None] that [remove_background] and [extract_features] return when
    they fail. *)
Record object_models := {
  remove_background : image -> option image;
  extract_features : image -> option (list fval)
}.

(** Steps 2 and 3 of [ObjectService.add_image] with [save_files]: the two
    URLs and the files on disk, or the exception raised and the files on
    disk when it was raised. *)
Definition object_save_files (models : object_models)
    (saves : string -> bool) (image : image) (image_id object_id : string)
    (files : list string)
    : error * list string + option string * option string * list string :=
  match save_upload_image saves object_id image_id files with
  | inl e => inl (e, files)
  | inr (original_path, object_path_placeholder, files) =>
      let img_url := Some (get_image_url original_path) in
      match remove_background models image with
      | Some processed_image =>
          match save_processed_image saves object_path_placeholder files with
          | inl e => inl (e, files)
          | inr (object_path, files) =>
              inr (img_url, Some (get_image_url object_path), files)
          end
      | None => inr (img_url, None, files)
      end
  end.

(** [ObjectService.add_image].  [acquired] is the outcome of step 1
    ([None]: download or decoding raised), [image_id] the fresh uuid,
    [response] the answer to the dimension lookup made by the insert. *)
Definition object_add_image (json : json_codec) (models : object_models)
    (saves : string -> bool)
    (response : rest_response) (acquired : option image)
    (image_id object_id : string) (save_files : bool)
    (custom_data : custom) (created_at : string) (w : world)
    : (error + image_data) * world :=
  match acquired with
  | None => (inl (Exception_ "cannot load image"), w)
  | Some image =>
      (* 2. save the original, 3. remove the background and save it *)
      match (if save_files
             then object_save_files models saves image image_id object_id
                    (disk w)
             else inr (None, None, disk w)) with
      | inl (e, files) => (inl e, {| disk := files; store := store w |})
      | inr (img_url, img_object_url, files) =>
          (* 4. extract the features *)
          match extract_features models image with
          | None =>
              (inl (ValueError "Failed to extract features"),
               {| disk := files; store := store w |})
          | Some features =>
              let image_data :=
                {| d_image_id := image_id; d_entity_id := object_id;
                   d_img_url := img_url;
                   d_img_object_url := img_object_url;
                   feature_vector := features;
                   d_custom_data := custom_data;
                   d_created_at := created_at; d_face := None |} in
              (* 6. insert *)
              match add_image json "ObjectData" response image_data
                      (store w) with
              | (inl e, c) => (inl e, {| disk := files; store := c |})
              | (inr _, c) =>
                  (inr image_data, {| disk := files; store := c |})
              end
          end
      end
  end.

(** A detected face and the liveness verdict, when liveness was run. *)
Record face_detection := {
  f_bbox : option string;
  f_det_score : option Q;
  f_kps : option string;
  f_liveness_passed : option bool
}.

(** The models of face mode: [preprocess] (detection and liveness),
    [extract_features] and the crop of the face region out of the picture
    ([None] when they find or give nothing, and for [crop_face] when the
    slicing or [cv2.cvtColor] raises, as for a box with a negative corner
    or an empty region). *)
Record face_models := {
  preprocess : image -> bool -> option face_detection;
  face_features : face_detection -> option (list fval);
  crop_face : image -> face_detection -> option image
}.

(** Step 4 of [FaceService.add_face] with [save_files]: the two URLs and
    the files on disk, or the exception raised and the files on disk when
    it was raised. *)
Definition face_save_files (models : face_models)
    (saves : string -> bool) (image : image) (face_data : face_detection)
    (image_id person_id : string) (files : list string)
    : error * list string + option string * option string * list string :=
  match save_upload_image saves person_id image_id files with
  | inl e => inl (e, files)
  | inr (original_path, face_path_placeholder, files) =>
      let img_url := Some (get_image_url original_path) in
      if truthy (f_bbox face_data) then
        match crop_face models image face_data with
        | None => inl (Exception_ "cv2.error", files)
        | Some face_crop =>
            match save_processed_image saves face_path_placeholder files with
            | inl e => inl (e, files)
            | inr (face_path, files) =>
                inr (img_url, Some (get_image_url face_path), files)
            end
        end
      else inr (img_url, None, files)
  end.

(** [FaceService.add_face]. *)
Definition add_face (json : json_codec) (models : face_models)
    (saves : string -> bool)
    (response : rest_response) (acquired : option image)
    (image_id person_id : string) (save_files : bool)
    (custom_data : custom) (enable_liveness : bool) (created_at : string)
    (w : world) : (error + image_data) * world :=
  match acquired with
  | None => (inl (Exception_ "cannot load image"), w)
  | Some image =>
      (* 2. detection and liveness *)
      match preprocess models image enable_liveness with
      | None => (inl (ValueError "No face detected in image"), w)
      | Some face_data =>
          match f_liveness_passed face_data with
          | Some false => (inl (ValueError "Liveness check failed"), w)
          | _ =>
              (* the log line formats the score with [:.3f] *)
              match f_det_score face_data with
              | None =>
                  (inl (TypeError
                          "unsupported format string passed to NoneType.__format__"),
                   w)
              | Some _ =>
              (* 3. extract the features *)
              match face_features models face_data with
              | None =>
                  (inl (ValueError "Failed to extract face features"), w)
              | Some features =>
                  (* 4. save the pictures *)
                  match (if save_files
                         then face_save_files models saves image face_data
                                image_id person_id (disk w)
                         else inr (None, None, disk w)) with
                  | inl (e, files) =>
                      (inl e, {| disk := files; store := store w |})
                  | inr (img_url, img_face_url, files) =>
                      let face_data :=
                        {| d_image_id := image_id;
                           d_entity_id := person_id;
                           d_img_url := img_url;
                           d_img_object_url := img_face_url;
                           feature_vector := features;
                           d_custom_data := custom_data;
                           d_created_at := created_at;
                           d_face :=
                             Some {| face_bbox := f_bbox face_data;
                                     face_score :=
                                       option_map round2
                                         (f_det_score face_data);
                                     face_landmarks := f_kps face_data |}
                        |} in
                      (* 6. insert *)
                      match add_image json "FaceData" response face_data
                              (store w) with
                      | (inl e, c) =>
                          (inl e, {| disk := files; store := c |})
                      | (inr _, c) =>
                          (inr face_data, {| disk := files; store := c |})
                      end
                  end
              end
              end
          end
      end
  end.

(** Steps 1 to 3 (acquisition, detection and liveness, feature extraction)
    of a face registration: one of them fails. *)
Definition face_steps_fail (models : face_models) (acquired : option image)
    (enable_liveness : bool) : Prop :=
  match acquired with
  | None => True
  | Some image =>
      match preprocess models image enable_liveness with
      | None => True
      | Some face_data =>
          f_liveness_passed face_data = Some false \/
          f_det_score face_data = None \/
          face_features models face_data = None
      end
  end.

(** A string that does not begin with ["/"]: joined to a path, it extends
    the path. *)
Definition relative (s : string) : bool :=
  (PyPath.leading_slashes s =? 0)%nat.

(** An identifier that is one path component, as a generated
    [image_id] is. *)
Definition plain (s : string) : bool := PyPath.clean s.

End Registration.

(** ** Face pipeline (services/pipelines/face_pipeline.py) *)

Module FacePipeline.

Import PyNum.

(** A picture handed to the pipeline: its size and its content. *)
Record image := {
  width : Z;
  height : Z;
  pixels : string
}.

(** A face as the detector returns it: box [x1, y1, x2, y2] and score. *)
Record face := {
  bbox : Q * Q * Q * Q;
  det_score : Q
}.

(** A detector prepared at one input resolution. *)
Definition detector : Type := image -> list face.

(** The liveness detector: the verdict for a picture and a box
    [x, y, w, h], [None] when the call raises. *)
Definition liveness_fn : Type :=
  image -> Z * Z * Z * Z -> Q -> Q -> Q ->
  option (bool * Q * Liveness.details_thr).

Record settings := {
  s_enable_liveness : bool;
  liveness_threshold : Q;
  liveness_paper_reject_threshold : Q;
  liveness_screen_reject_threshold : Q
}.

(** The fields of [FacePipeline] that [preprocess] reads. *)
Record pipeline := {
  app : option detector;
  app_fallback : option detector;
  det_size : Z * Z;
  det_size_fallback : Z * Z;
  liveness_detector : option liveness_fn
}.

(** The [result["liveness"]] dictionary. *)
Record liveness_info := {
  is_real : bool;
  score : Q;
  l_passed : bool;
  l_details : Liveness.details_thr
}.

(** The dictionary [preprocess] returns. *)
Record result := {
  r_face : face;
  r_liveness : option liveness_info
}.

(** The lines [preprocess] writes to the log. *)
Inductive log_line :=
| ModelNotLoaded
| ImageIsNone
| ImageIsEmpty
| StartDetection (w h : Z)
| TryPrimary (size : Z * Z)
| PrimarySucceeded (found : nat)
| PrimaryFailed
| RetryFallback (size : Z * Z)
| FallbackSucceeded (found : nat)
| FallbackFailed
| DetectionFailed (tried_sizes : list (Z * Z))
| FaceDetectedAt (used_size : Z * Z) (f : face)
| LivenessVerdict (real : bool)
| PreprocessingError.

(** [preprocess]: the returned value ([None] for Python's [None]) and the
    lines logged, in order. *)
Definition preprocess (p : pipeline) (st : settings) (img : option image)
    (enable_liveness : option bool) : option result * list log_line :=
  match app p with
  | None => (None, [ModelNotLoaded])
  | Some primary =>
      match img with
      | None => (None, [ImageIsNone])
      | Some image =>
          if (width image * height image =? 0)%Z
          then (None, [ImageIsEmpty])
          else
            let log := [StartDetection (width image) (height image);
                        TryPrimary (det_size p)] in
            let faces := primary image in
            let used_size := det_size p in
            let log :=
              log ++ [if (0 <? List.length faces)%nat
                      then PrimarySucceeded (List.length faces)
                      else PrimaryFailed] in
            let '(faces, used_size, log) :=
              match faces, app_fallback p with
              | [], Some fallback =>
                  let faces := fallback image in
                  (faces, det_size_fallback p,
                   log ++ [RetryFallback (det_size_fallback p);
                           if (0 <? List.length faces)%nat
                           then FallbackSucceeded (List.length faces)
                           else FallbackFailed])
              | _, _ => (faces, used_size, log)
              end in
            match faces with
            | [] =>
                let tried_sizes :=
                  det_size p ::
                  match app_fallback p with
                  | Some _ => [det_size_fallback p]
                  | None => []
                  end in
                (None, log ++ [DetectionFailed tried_sizes])
            | face :: _ =>
                let log := log ++ [FaceDetectedAt used_size face] in
                let should_do_liveness :=
                  match enable_liveness with
                  | Some b => b
                  | None => s_enable_liveness st
                  end in
                match should_do_liveness && s_enable_liveness st,
                      liveness_detector p with
                | true, Some detect_liveness =>
                    let '(x1, y1, x2, y2) := bbox face in
                    let box := (py_int x1, py_int y1,
                                py_int (x2 - x1), py_int (y2 - y1)) in
                    match detect_liveness image box
                            (liveness_threshold st)
                            (liveness_paper_reject_threshold st)
                            (liveness_screen_reject_threshold st) with
                    | None => (None, log ++ [PreprocessingError])
                    | Some (real, sc, details) =>
                        (Some {| r_face := face;
                                 r_liveness :=
                                   Some {| is_real := real; score := sc;
                                           l_passed :=
                                             Liveness.passed details;
                                           l_details := details |} |},
                         log ++ [LivenessVerdict real])
                    end
                | _, _ =>
                    (Some {| r_face := face; r_liveness := None |}, log)
                end
            end
      end
  end.

(** The liveness step of [preprocess] is skipped or returns a verdict for
    the face [f] (it does not raise). *)
Definition liveness_returns (p : pipeline) (st : settings) (img : image)
    (enable_liveness : option bool) (f : face) : Prop :=
  match liveness_detector p with
  | Some detect_liveness =>
      (match enable_liveness with
       | Some b => b
       | None => s_enable_liveness st
       end && s_enable_liveness st = true) ->
      let '(x1, y1, x2, y2) := bbox f in
      detect_liveness img
        (py_int x1, py_int y1, py_int (x2 - x1), py_int (y2 - y1))
        (liveness_threshold st) (liveness_paper_reject_threshold st)
        (liveness_screen_reject_threshold st) <> None
  | None => True
  end.

(** The resolution reported by the "Face detected at" line of a log. *)
Fixpoint reported_size (log : list log_line) : option (Z * Z) :=
  match log with
  | [] => None
  | FaceDetectedAt used_size _ :: _ => Some used_size
  | _ :: log' => reported_size log'
  end.

End FacePipeline.

(** ** Model-change detector (database/model_change_detector.py) *)

Module ModelChange.

Import PyNum VectorService.
Local Open Scope string_scope.

(** A JSON value, as [json.load] returns it; an object has each key
    once. *)
#[warnings="-register-all"]
Inductive jvalue :=
| JNull
| JBool (b : bool)
| JNumber (q : Q)
| JString (s : string)
| JArray (items : list jvalue)
| JObject (members : list (string * jvalue)).

(** The model configuration of one mode: keys to values. *)
Definition config : Type := dict string.

(** The configuration as the JSON object that is written. *)
Definition as_json (c : config) : jvalue :=
  JObject (map (fun kv => (fst kv, JString (snd kv))) c).

(** The settings the detector reads; [dinov3_model_path] stands for the
    value of [settings.get_dinov3_model_path()]. *)
Record settings := {
  app_mode : string;
  object_backend : string;
  pytorch_dinov3_path : string;
  pytorch_birefnet_path : string;
  dinov3_model_path : string;
  bg_removal_model : string;
  face_model_name : string
}.

(** [data/temp/config/model_config.json]: absent; unreadable, where
    [json.load] raises [JSONDecodeError] or [IOError]; undecodable, where
    it raises another exception (bytes that are no text raise
    [UnicodeDecodeError]); or holding a JSON value. *)
Inductive config_file :=
| Missing
| Unreadable
| Undecodable
| Loaded (j : jvalue).

(** What the disk and the engine do when they are asked: whether the
    configuration directory can be made, a client obtained (new or
    legacy), the collection created when the client is set up, the
    collection dropped, the collection created again after the drop, and
    the configuration file opened for writing (a file that is open is
    written to the end). *)
Record environment := {
  makes_config_dir : bool;
  connects : bool;
  creates : bool;
  deletes : bool;
  recreates : bool;
  writes : bool
}.

(** The vector database: whether the client is connected, and the
    collection of the active mode when it exists. *)
Record weaviate := {
  connected : bool;
  classes : option collection
}.

Record state := {
  file : config_file;
  db : weaviate
}.

Definition get_current_model_config (st : settings) : config :=
  if String.eqb (app_mode st) "object" then
    if String.eqb (object_backend st) "pytorch" then
      [("backend", "pytorch");
       ("dinov3_path", pytorch_dinov3_path st);
       ("birefnet_path", pytorch_birefnet_path st)]
    else
      [("backend", "onnx");
       ("dinov3_path", dinov3_model_path st);
       ("bg_removal_model", bg_removal_model st)]
  else if String.eqb (app_mode st) "face" then
    [("backend", "insightface");
     ("model_name", face_model_name st)]
  else [].

(** The truth value of a JSON value. *)
Definition jtruthy (j : jvalue) : bool :=
  match j with
  | JNull => false
  | JBool b => b
  | JNumber q => negb (Qeq_bool q 0)
  | JString s => negb (String.eqb s "")
  | JArray items => match items with [] => false | _ => true end
  | JObject members => match members with [] => false | _ => true end
  end.

(** Python's [==] between a loaded value and a configuration: the value
    is an object with the same keys and the same texts as values. *)
Definition equals_config (j : jvalue) (c : config) : bool :=
  match j with
  | JObject members =>
      (List.length members =? List.length c)%nat &&
      forallb (fun kv =>
                 match dict_get members (fst kv) with
                 | Some (JString v) => String.eqb v (snd kv)
                 | _ => false
                 end) c
  | _ => false
  end.

(** The value [check_model_change] reads from the file: [{}] when the
    file is absent or [json.load] raises anything (a bare [except]). *)
Definition read_config (f : config_file) : jvalue :=
  match f with
  | Loaded j => j
  | _ => JObject []
  end.

(** The value [save_current_config] reads from the file: only
    [JSONDecodeError] and [IOError] are caught there. *)
Definition load_config (f : config_file) : error + jvalue :=
  match f with
  | Undecodable => inl (ValueError "UnicodeDecodeError")
  | _ => inr (read_config f)
  end.

(** [old_config.get(mode, {})]: only an object has [get]. *)
Definition get_member (old_config : jvalue) (mode : string)
    : error + jvalue :=
  match old_config with
  | JObject members =>
      inr match dict_get members mode with
          | Some v => v
          | None => JObject []
          end
  | _ => inl (AttributeError "get")
  end.

(** [check_model_change]: whether a reset is needed. *)
Definition check_model_change (env : environment) (st : settings)
    (f : config_file) : error + bool :=
  let current_config := get_current_model_config st in
  if makes_config_dir env then
    match get_member (read_config f) (app_mode st) with
    | inl e => inl e
    | inr old_mode_config =>
        inr (jtruthy old_mode_config
             && negb (equals_config old_mode_config current_config))
    end
  else inl (OSError "data/temp/config").

(** [weaviate_client.setup_collection] (and its legacy form): the
    collection is created, empty, when it does not exist; an exception of
    the engine is only logged.  [created] tells whether the engine
    creates the collection at this call. *)
Definition setup_collection (created : bool) (w : weaviate) : weaviate :=
  {| connected := connected w;
     classes := match classes w with
                | Some c => Some c
                | None => if created then Some [] else None
                end |}.

(** [weaviate_client.connect]: obtains a client, new or legacy, and sets
    the collection up; raises when no client can be made. *)
Definition connect (env : environment) (w : weaviate) : error + weaviate :=
  if connects env
  then inr (setup_collection (creates env)
              {| connected := true; classes := classes w |})
  else inl (Exception_ "Failed to create legacy client").

(** [weaviate_client.delete_collection]: the collection is dropped when it
    exists, which the returned flag tells; any exception gives [False]. *)
Definition delete_collection (env : environment) (w : weaviate)
    : bool * weaviate :=
  match (if connected w then inr w else connect env w) with
  | inl _ => (false, w)
  | inr w =>
      match classes w with
      | Some _ =>
          if deletes env
          then (true, {| connected := connected w; classes := None |})
          else (false, w)
      | None => (false, w)
      end
  end.

(** The two modes whose entries are kept. *)
Definition valid_mode (kv : string * jvalue) : bool :=
  String.eqb (fst kv) "object" || String.eqb (fst kv) "face".

(** [save_current_config]: the entries of the two valid modes are kept,
    the entry of the active mode is replaced, the file is written; when
    the file cannot be opened for writing it stays as it was. *)
Definition save_current_config (env : environment) (st : settings)
    (f : config_file) : error + config_file :=
  match load_config f with
  | inl e => inl e
  | inr (JObject old_config) =>
      let new_config := filter valid_mode old_config in
      let new_config :=
        dict_set new_config (app_mode st)
          (as_json (get_current_model_config st)) in
      inr (if writes env then Loaded (JObject new_config) else f)
  | inr _ => inl (AttributeError "items")
  end.

(** [reset_collection_if_needed]: the exception raised or whether a reset
    was made, and the state after the call. *)
Definition reset_collection_if_needed (env : environment) (st : settings)
    (s : state) : (error + bool) * state :=
  match check_model_change env st (file s) with
  | inl e => (inl e, s)
  | inr true =>
      match (if connected (db s) then inr (db s)
             else connect env (db s)) with
      | inl e => (inl e, s)
      | inr w =>
          let '(deleted, w) := delete_collection env w in
          let w :=
            if deleted then setup_collection (recreates env) w else w in
          match save_current_config env st (file s) with
          | inl e => (inl e, {| file := file s; db := w |})
          | inr f => (inr true, {| file := f; db := w |})
          end
      end
  | inr false =>
      match save_current_config env st (file s) with
      | inl e => (inl e, s)
      | inr f => (inr false, {| file := f; db := db s |})
      end
  end.

(** The snapshot persisted for a mode.  An absent or unreadable file, a
    missing entry and an entry that is not true (an empty object, for
    one) all count as no snapshot, as [old_config.get(mode, {})] and its
    truth test make them. *)
Definition prior_snapshot (f : config_file) (mode : string)
    : option jvalue :=
  match read_config f with
  | JObject members =>
      match dict_get members mode with
      | Some v => if jtruthy v then Some v else None
      | None => None
      end
  | _ => None
  end.






End ModelChange.

(** ** Catalog operations (services/vector_service.py, the listing and
       cascading functions; database/weaviate_client.py [clear_collection]) *)

Module Catalog.

Import PyNum VectorService.
Local Open Scope string_scope.

(** The engine's answer to a fetch: of the objects that pass the filter,
    those from [offset] on, at most [limit] of them.  When the call passes
    no limit the engine applies its own, [default_limit]. *)
Definition fetch_objects (default_limit : nat) (flt : db_object -> bool)
    (limit : option Z) (offset : Z) (c : collection) : list db_object :=
  firstn (match limit with
          | Some n => Z.to_nat n
          | None => default_limit
          end)
         (skipn (Z.to_nat offset) (filter flt c)).

(** The filter [object_id == id]. *)
Definition has_object_id (object_id : string) (o : db_object) : bool :=
  String.eqb (p_object_id (props o)) object_id.

(** No filter. *)
Definition any_object (o : db_object) : bool := true.

(** One entry of a listing: the six fields both APIs return.
    [custom_data] is parsed when it is present and well-formed, and stays
    the stored text otherwise. *)
Record listed := {
  l_image_id : string;
  l_object_id : string;
  l_img_url : string;
  l_img_object_url : string;
  l_created_at : string;
  l_custom_data : string + custom
}.

Definition to_listed (json : json_codec) (o : db_object) : listed :=
  {| l_image_id := p_image_id (props o);
     l_object_id := p_object_id (props o);
     l_img_url := p_img_url (props o);
     l_img_object_url := p_img_object_url (props o);
     l_created_at := p_created_at (props o);
     l_custom_data :=
       if String.eqb (p_custom_data (props o)) "" then inl ""
       else match loads json (p_custom_data (props o)) with
            | Some c => inr c
            | None => inl (p_custom_data (props o))
            end |}.



(** A value of the dictionary [list_images] returns. *)
Inductive pyval :=
| PList (items : list listed)
| PInt (z : Z)
| PBool (b : bool).

(** The page both APIs compute, and the [total] they report. *)
Definition list_page (default_limit : nat) (json : json_codec) (cl : client)
    (limit offset : Z) (c : collection) : list listed * Z :=
  if has_query cl then
    let items :=
      fetch_objects default_limit any_object (Some (limit + offset)%Z) 0 c in
    let '(lo, hi) :=
      py_slice (Z.of_nat (List.length items)) offset (offset + limit) in
    let items := firstn (Z.to_nat (hi - lo)) (skipn (Z.to_nat lo) items) in
    (map (to_listed json) items, (Z.of_nat (List.length items) + offset)%Z)
  else if has_collections cl then
    let results :=
      map (to_listed json)
          (fetch_objects default_limit any_object (Some limit) offset c) in
    (results, (Z.of_nat (List.length results) + offset)%Z)
  else ([], 0%Z).

(** [list_images]. *)
Definition list_images (default_limit : nat) (json : json_codec)
    (cl : client) (limit offset : Z) (c : collection) : dict pyval :=
  let '(results, total) := list_page default_limit json cl limit offset c in
  [("items", PList results);
   ("total", PInt total);
   ("limit", PInt limit);
   ("offset", PInt offset);
   ("has_more", PBool (Z.of_nat (List.length results) =? limit)%Z)].

(** The counting loop of [list_objects], for one fetched object. *)
Definition count_object (objects_dict : dict Z) (o : db_object) : dict Z :=
  let obj_id := p_object_id (props o) in
  if String.eqb obj_id "" then objects_dict
  else dict_set objects_dict obj_id
         (match dict_get objects_dict obj_id with
          | Some n => n
          | None => 0
          end + 1)%Z.

(** Insertion into a list sorted by decreasing [image_count], after the
    entries that are strictly greater. *)
Fixpoint insert_by_count (x : string * Z) (l : list (string * Z))
    : list (string * Z) :=
  match l with
  | [] => [x]
  | h :: t =>
      if (snd h >? snd x)%Z then h :: insert_by_count x t
      else x :: h :: t
  end.

(** [objects.sort(key=image_count, reverse=True)], a stable sort. *)
Fixpoint sort_by_count (l : list (string * Z)) : list (string * Z) :=
  match l with
  | [] => []
  | x :: l' => insert_by_count x (sort_by_count l')
  end.

(** [list_objects]: pairs of [object_id] and [image_count]. *)
Definition list_objects (default_limit : nat) (cl : client) (c : collection)
    : list (string * Z) :=
  let objects_dict :=
    if has_query cl || has_collections cl then
      fold_left count_object
        (fetch_objects default_limit any_object (Some 10000%Z) 0 c) []
    else [] in
  sort_by_count objects_dict.

(** The dictionary of [get_stats]. *)
Record stats := {
  total_images : nat;
  total_objects : nat;
  vector_dimension : option nat
}.

(** [len(set(ids))]. *)
Definition distinct_count (ids : list string) : nat :=
  List.length (nodup string_dec ids).

(** [get_stats].  The legacy API counts the images with an aggregate over
    the whole collection, the v4 API counts the fetched objects. *)
Definition get_stats (default_limit : nat) (cl : client)
    (response : rest_response) (c : collection) : stats :=
  let fetched :=
    fetch_objects default_limit any_object (Some 10000%Z) 0 c in
  let ids := map (fun o => p_object_id (props o)) fetched in
  if has_query cl then
    {| total_images := List.length c;
       total_objects := distinct_count ids;
       vector_dimension := get_vector_dimension response |}
  else if has_collections cl then
    {| total_images := List.length fetched;
       total_objects := distinct_count ids;
       vector_dimension := get_vector_dimension response |}
  else
    {| total_images := 0; total_objects := 0;
       vector_dimension := get_vector_dimension response |}.

(** [WeaviateClient.clear_collection]: the number of objects deleted and
    the collection after the call. *)
Definition clear_collection (default_limit : nat) (c : collection)
    : nat * collection :=
  let found := fetch_objects default_limit any_object (Some 10000%Z) 0 c in
  (List.length found,
   fold_left (fun c o => delete_by_id c (uuid o)) found c).

(** Every object has an engine identifier of its own. *)
Definition distinct_uuids (c : collection) : Prop :=
  NoDup (map uuid c).

(** All stored vectors have one length. *)
Definition uniform_dimension (c : collection) : Prop :=
  forall a b, In a c -> In b c ->
    List.length (vector a) = List.length (vector b).

(** No object of the collection carries this [image_id]. *)
Definition fresh_image_id (c : collection) (image_id : string) : Prop :=
  forall o, In o c -> p_image_id (props o) <> image_id.

(** The distinct non-empty entity ids of the objects, in first-seen
    order. *)
Definition ids_seen (objects : list db_object) : list string :=
  fold_left
    (fun seen o =>
       let obj_id := p_object_id (props o) in
       if String.eqb obj_id "" then seen
       else if existsb (String.eqb obj_id) seen then seen
       else (seen ++ [obj_id])%list)
    objects [].

(** The number of objects of an entity. *)
Definition count_of (objects : list db_object) (object_id : string) : Z :=
  Z.of_nat (List.length (filter (has_object_id object_id) objects)).

(** [a] may stand before [b] in a listing by decreasing [image_count]. *)
Definition counts_before (a b : string * Z) : Prop := (snd b <= snd a)%Z.

End Catalog.

(** ** The list endpoints (api/object/image.py, api/face/image.py
       [list_images]; utils/response.py [paginated]) *)

Module Api.

Import PyNum VectorService Catalog.
Local Open Scope string_scope.

(** The body of a paginated response, without its timestamp. *)
Record page_response := {
  data : list listed;
  pg_total : Z;
  pg_limit : Z;
  pg_offset : Z;
  pg_has_more : bool
}.

(** [response.paginated]. *)
Definition paginated (items : list listed) (total limit offset : Z)
    : page_response :=
  {| data := items;
     pg_total := total;
     pg_limit := limit;
     pg_offset := offset;
     pg_has_more := (offset + Z.of_nat (List.length items) <? total)%Z |}.

(** [result.get("images", [])]. *)
Definition get_list (result : dict pyval) (key : string) : list listed :=
  match dict_get result key with
  | Some (PList l) => l
  | _ => []
  end.

(** [result.get("total", 0)]. *)
Definition get_int (result : dict pyval) (key : string) : Z :=
  match dict_get result key with
  | Some (PInt z) => z
  | _ => 0%Z
  end.

(** The list endpoint of either mode (the renaming of the fields in face
    mode does not change the number of entries). *)
Definition list_endpoint (default_limit : nat) (json : json_codec)
    (cl : client) (limit offset : Z) (c : collection) : page_response :=
  let result := list_images default_limit json cl limit offset c in
  let items := get_list result "images" in
  let total := get_int result "total" in
  paginated items total limit offset.

End Api.

(** ** Binary64 arithmetic (Python's [float]) *)

Module Binary64.

Import PyNum.
Local Open Scope Q_scope.

(** The exponent of the binary64 format for a positive [x]: the [e] with
    [2^e <= x < 2^(e+1)], and -1022 for a subnormal [x]. *)
Definition exponent (x : Q) : Z :=
  Z.max (Z.log2 (Qfloor (x * 2 ^ 1100)) - 1100) (-1022).

(** A positive [x] rounded to 53 significant bits (fewer for a subnormal
    [x]), ties to the even significand. *)
Definition round_positive (x : Q) : Q :=
  let s := (52 - exponent x)%Z in
  inject_Z (round_half_even (x * 2 ^ s)) * 2 ^ (- s).

(** [x] rounded to the nearest binary64 number, which may be beyond the
    largest finite one. *)
Definition round (x : Q) : Q :=
  match Qcompare x 0 with
  | Eq => 0
  | Gt => round_positive x
  | Lt => - round_positive (- x)
  end.

(** The binary64 number for [x]; [None] when it is not finite. *)
Definition binary64 (x : Q) : option Q :=
  let r := round x in
  if Qle_bool (2 ^ 1024) (Qabs r) then None else Some r.

End Binary64.

(** ** Picture sizes (utils/image_utils.py [compress_image]) *)

Module ImageUtils.

Import PyNum Binary64.
Local Open Scope string_scope.

(** The exceptions of the size computation and of [Image.resize]. *)
Inductive error :=
| ZeroDivisionError
| OverflowError
| ValueError (message : string).

(** [int(side * (max_size / other))]: the quotient of two integers is
    the binary64 number nearest to it, [side] is converted to binary64,
    the product is rounded again and [int] drops the fraction; a value
    that is too large for binary64 raises [OverflowError]. *)
Definition scaled (side max_size other : Z) : error + Z :=
  if (other =? 0)%Z then inl ZeroDivisionError
  else
    match binary64 (inject_Z max_size / inject_Z other) with
    | None => inl OverflowError
    | Some ratio =>
        match binary64 (inject_Z side) with
        | None => inl OverflowError
        | Some x =>
            match binary64 (x * ratio) with
            | None => inl OverflowError
            | Some product => inr (py_int product)
            end
        end
    end.

(** The size [compress_image] gives a picture of [width] x [height]:
    [Image.resize] raises [ValueError] for a side below 1. *)
Definition compress_size (width height max_size : Z) : error + Z * Z :=
  if (width >? max_size)%Z || (height >? max_size)%Z then
    let new_size :=
      if (width >? height)%Z then
        match scaled height max_size width with
        | inl e => inl e
        | inr new_height => inr (max_size, new_height)
        end
      else
        match scaled width max_size height with
        | inl e => inl e
        | inr new_width => inr (new_width, max_size)
        end in
    match new_size with
    | inl e => inl e
    | inr (new_width, new_height) =>
        if (new_width <? 1)%Z || (new_height <? 1)%Z
        then inl (ValueError "height and width must be > 0")
        else inr (new_width, new_height)
    end
  else inr (width, height).

End ImageUtils.

(** * Properties *)

(** ** Facts on the numeric helpers *)

Section PyNumFacts.

Import PyNum.
Local Open Scope Q_scope.

Lemma Qltb_lt a b : Qltb a b = true <-> a < b.
Proof.
  unfold Qltb. rewrite negb_true_iff, <- not_true_iff_false, Qle_bool_iff.
  split; [apply Qnot_le_lt | apply Qlt_not_le].
Qed.

Lemma Qltb_ge a b : Qltb a b = false <-> b <= a.
Proof.
  unfold Qltb. rewrite negb_false_iff. apply Qle_bool_iff.
Qed.

Lemma Qgtb_gt a b : Qgtb a b = true <-> b < a.
Proof. apply Qltb_lt. Qed.

Lemma Qgtb_le a b : Qgtb a b = false <-> a <= b.
Proof. apply Qltb_ge. Qed.

Lemma Qleb_le a b : Qleb a b = true <-> a <= b.
Proof. apply Qle_bool_iff. Qed.

Lemma Qgeb_ge a b : Qgeb a b = true <-> b <= a.
Proof. apply Qle_bool_iff. Qed.

Lemma Qgeb_lt a b : Qgeb a b = false <-> a < b.
Proof.
  unfold Qgeb. rewrite <- not_true_iff_false, Qle_bool_iff.
  split; [apply Qnot_le_lt | apply Qlt_not_le].
Qed.

Lemma round_half_even_floor x :
  (Qfloor x <= round_half_even x <= Qfloor x + 1)%Z.
Proof.
  unfold round_half_even.
  destruct (Qcompare _ _); [destruct (Z.even _)| |]; lia.
Qed.

Lemma round_half_even_mono x y :
  x <= y -> (round_half_even x <= round_half_even y)%Z.
Proof.
  intros Hxy.
  pose proof (Qfloor_resp_le _ _ Hxy) as Hf.
  pose proof (round_half_even_floor x) as Hx.
  pose proof (round_half_even_floor y) as Hy.
  destruct (Z.eq_dec (Qfloor x) (Qfloor y)) as [E | NE]; [|lia].
  clear Hx Hy Hf. unfold round_half_even. rewrite <- E.
  set (f := Qfloor x) in *. clearbody f.
  destruct (Qcompare_spec (x - inject_Z f) (1 # 2)) as [Cx | Cx | Cx];
  destruct (Qcompare_spec (y - inject_Z f) (1 # 2)) as [Cy | Cy | Cy];
  try (destruct (Z.even f); lia); exfalso.
  all: set (F := inject_Z f) in *; clearbody F; lra.
Qed.

Lemma round_half_even_Z (n : Z) : round_half_even (inject_Z n) = n.
Proof.
  unfold round_half_even. rewrite Qfloor_Z.
  replace (Qcompare (inject_Z n - inject_Z n) (1 # 2)) with Lt; [reflexivity|].
  symmetry. apply (proj1 (Qlt_alt _ _)). set (N := inject_Z n). clearbody N. lra.
Qed.

Lemma round2_mono x y : x <= y -> round2 x <= round2 y.
Proof.
  intros H. unfold round2.
  assert (H' : x * 100 <= y * 100) by lra.
  apply round_half_even_mono in H'.
  unfold Qle; simpl. lia.
Qed.

Lemma round2_grid (n : Z) : round2 (n # 100) == n # 100.
Proof.
  unfold round2.
  assert (E : (n # 100) * 100 == inject_Z n).
  { unfold Qeq; simpl. lia. }
  assert (H1 : (round_half_even ((n # 100) * 100) <= n)%Z).
  { rewrite <- (round_half_even_Z n) at 2. apply round_half_even_mono. lra. }
  assert (H2 : (n <= round_half_even ((n # 100) * 100))%Z).
  { rewrite <- (round_half_even_Z n) at 1. apply round_half_even_mono. lra. }
  replace (round_half_even ((n # 100) * 100)) with n by lia. reflexivity.
Qed.

Lemma round2_idem x : round2 (round2 x) == round2 x.
Proof. unfold round2 at 2 3. apply round2_grid. Qed.

Lemma round2_0 : round2 0 == 0.
Proof. reflexivity. Qed.

Lemma round2_nonneg x : 0 <= x -> 0 <= round2 x.
Proof. intros H. apply round2_mono in H. rewrite round2_0 in H. exact H. Qed.

End PyNumFacts.

(** ** Liveness decision rule *)

Section LivenessDecision.

Import PyNum Liveness.
Local Open Scope Q_scope.

Variables (paper real screen : Q) (n_models : Z).
Variables (threshold paper_reject_threshold screen_reject_threshold : Q).

Let outcome :=
  predict_with_threshold (paper, real, screen) n_models
    threshold paper_reject_threshold screen_reject_threshold.

Lemma outcome_passed_accepted : passed (snd outcome) = accepted outcome.
Proof. reflexivity. Qed.

Lemma accepted_iff :
  accepted outcome = true <->
  threshold < real /\ paper < paper_reject_threshold /\
  screen < screen_reject_threshold.
Proof.
  unfold outcome, accepted, predict_with_threshold, predict; simpl.
  rewrite !andb_true_iff, Qgtb_gt, !Qltb_lt. tauto.
Qed.

Lemma paper_rejection :
  threshold < real -> paper_reject_threshold <= paper ->
  accepted outcome = false /\
  reason outcome = Some (PaperScoreTooHigh paper paper_reject_threshold).
Proof.
  intros Hreal Hpaper.
  assert (Hacc : accepted outcome = false).
  { apply not_true_iff_false. rewrite accepted_iff.
    intros (_ & Hp & _). apply (Qlt_not_le _ _ Hp Hpaper). }
  split; [exact Hacc|].
  unfold outcome, accepted, reason, predict_with_threshold, predict in *.
  simpl in *. rewrite Hacc. simpl.
  destruct (Qleb real threshold) eqn:E1.
  - apply Qleb_le in E1. exfalso. apply (Qlt_not_le _ _ Hreal E1).
  - destruct (Qgeb paper paper_reject_threshold) eqn:E2; [reflexivity|].
    apply Qgeb_lt in E2. exfalso. apply (Qlt_not_le _ _ E2 Hpaper).
Qed.

End LivenessDecision.

(** C4. The liveness verdict is "real" exactly when the real score is above
    its threshold and the paper and screen scores are below their reject
    thresholds; the [passed] flag of the details agrees with the verdict;
    and a real score above the threshold with a paper score at or above the
    paper reject threshold is rejected with the reason that cites the paper
    score and the paper threshold. *)
Theorem liveness_strict_and :
  forall (paper real screen : Q) (n_models : Z)
         (threshold paper_thr screen_thr : Q),
    let outcome :=
      Liveness.predict_with_threshold (paper, real, screen) n_models
        threshold paper_thr screen_thr in
    (Liveness.accepted outcome = true <->
       (threshold < real /\ paper < paper_thr /\ screen < screen_thr)%Q) /\
    Liveness.passed (snd outcome) = Liveness.accepted outcome /\
    ((threshold < real)%Q -> (paper_thr <= paper)%Q ->
       Liveness.accepted outcome = false /\
       Liveness.reason outcome =
         Some (Liveness.PaperScoreTooHigh paper paper_thr)).
Proof.
  intros. split; [apply accepted_iff|].
  split; [reflexivity|]. apply paper_rejection.
Qed.

(** The synthetic case of the specification: real 0.65 > 0.6 but paper
    0.32 >= 0.3. *)
Lemma liveness_strict_and_witness :
  let outcome :=
    Liveness.predict_with_threshold (32 # 100, 65 # 100, 3 # 100) 2
      (6 # 10) (3 # 10) (3 # 10) in
  Liveness.accepted outcome = false /\
  Liveness.reason outcome =
    Some (Liveness.PaperScoreTooHigh (32 # 100) (3 # 10)).
Proof.
  apply (liveness_strict_and (32 # 100) (65 # 100) (3 # 100) 2
           (6 # 10) (3 # 10) (3 # 10)).
  - reflexivity.
  - discriminate.
Defined.

(** ** The liveness crop box *)

Section CropBox.
Import PyNum Liveness.
Local Open Scope Q_scope.

Lemma py_int_floor q : 0 <= q -> py_int q = Qfloor q.
Proof.
  destruct q as [n d]. unfold Qle, py_int, Qfloor; simpl. intros H.
  apply Z.quot_div_nonneg; lia.
Qed.

Lemma py_int_range q1 q2 (k : Z) :
  0 <= q1 -> q1 <= q2 -> q2 <= inject_Z k ->
  (0 <= py_int q1 <= py_int q2 /\ py_int q2 <= k)%Z.
Proof.
  intros H0 H12 Hk.
  assert (H2 : 0 <= q2) by lra.
  rewrite (py_int_floor H0), (py_int_floor H2).
  repeat split.
  - change 0%Z with (Qfloor 0). now apply Qfloor_resp_le.
  - now apply Qfloor_resp_le.
  - rewrite <- (Qfloor_Z k). now apply Qfloor_resp_le.
Qed.

Lemma py_min_le_l a b : py_min a b <= a.
Proof.
  unfold py_min. destruct (Qltb b a) eqn:E; [apply Qltb_lt in E|]; lra.
Qed.

Lemma py_min_le_r a b : py_min a b <= b.
Proof.
  unfold py_min. destruct (Qltb b a) eqn:E; [|apply Qltb_ge in E]; lra.
Qed.

Lemma py_min_pos a b : 0 < a -> 0 < b -> 0 < py_min a b.
Proof. unfold py_min. destruct (Qltb b a); auto. Qed.

Lemma scaled_side (side limit : Z) (s : Q) :
  (1 <= side)%Z -> 0 < s -> s <= inject_Z limit / inject_Z side ->
  0 < inject_Z side * s /\ inject_Z side * s <= inject_Z limit.
Proof.
  intros Hside Hs Hle.
  assert (Hpos : 0 < inject_Z side).
  { unfold Qlt; simpl. lia. }
  split.
  - apply Qmult_lt_0_compat; assumption.
  - apply Qle_trans with (inject_Z side * (inject_Z limit / inject_Z side)).
    + apply Qmult_le_l; assumption.
    + rewrite Qmult_div_r; [apply Qle_refl|]. lra.
Qed.
Lemma inject_Z_pred (n : Z) : inject_Z (n - 1) == inject_Z n - 1.
Proof. unfold Zminus. rewrite inject_Z_plus. reflexivity. Qed.

Lemma get_new_box_bounds (src_w src_h x y w h : Z) (scale : Q) :
  (2 <= src_w)%Z -> (2 <= src_h)%Z -> (1 <= w)%Z -> (1 <= h)%Z -> 0 < scale ->
  exists l t r b,
    _get_new_box src_w src_h (x, y, w, h) scale = Some (l, t, r, b) /\
    (0 <= l <= r /\ r <= src_w - 1)%Z /\ (0 <= t <= b /\ b <= src_h - 1)%Z.
Proof.
  intros Hw Hh Hbw Hbh Hs.
  unfold _get_new_box.
  replace (h =? 0)%Z with false by (symmetry; apply Z.eqb_neq; lia).
  replace (w =? 0)%Z with false by (symmetry; apply Z.eqb_neq; lia).
  cbn [orb].
  set (s := py_min _ _).
  assert (Hpw : 0 < inject_Z (src_w - 1) / inject_Z w).
  { apply Qlt_shift_div_l; unfold Qlt; simpl; lia. }
  assert (Hph : 0 < inject_Z (src_h - 1) / inject_Z h).
  { apply Qlt_shift_div_l; unfold Qlt; simpl; lia. }
  assert (Hs0 : 0 < s) by (unfold s; repeat apply py_min_pos; assumption).
  assert (Hsh : s <= inject_Z (src_h - 1) / inject_Z h) by apply py_min_le_l.
  assert (Hsw : s <= inject_Z (src_w - 1) / inject_Z w).
  { eapply Qle_trans; [apply py_min_le_r | apply py_min_le_l]. }
  destruct (scaled_side Hbw Hs0 Hsw) as [Hnw0 Hnw1].
  destruct (scaled_side Hbh Hs0 Hsh) as [Hnh0 Hnh1].
  clearbody s.
  set (nw := inject_Z w * s) in *. set (nh := inject_Z h * s) in *.
  set (cx := inject_Z w / 2 + inject_Z x). set (cy := inject_Z h / 2 + inject_Z y).
  clearbody nw nh cx cy.
  pose proof (inject_Z_pred src_w) as Ew. pose proof (inject_Z_pred src_h) as Eh.
  clear Hpw Hph Hsh Hsw.
  set (W1 := inject_Z (src_w - 1)) in *. set (H1 := inject_Z (src_h - 1)) in *.
  set (W := inject_Z src_w) in *. set (H := inject_Z src_h) in *.
  destruct (Qltb (cx - nw / 2) 0) eqn:E1;
  destruct (Qltb (cy - nh / 2) 0) eqn:E2.
  all: destruct (Qgtb _ W1) eqn:E3.
  all: destruct (Qgtb _ H1) eqn:E4.
  all: do 4 eexists; split; [reflexivity|].
  all: try apply Qltb_lt in E1; try apply Qltb_ge in E1.
  all: try apply Qltb_lt in E2; try apply Qltb_ge in E2.
  all: try apply Qgtb_gt in E3; try apply Qgtb_le in E3.
  all: try apply Qgtb_gt in E4; try apply Qgtb_le in E4.
  all: split; apply py_int_range; fold W1 H1; clearbody W1 H1 W H;
    unfold Qdiv in *; change (/ 2) with (1 # 2) in *; lra.
Qed.

Lemma crop_shape_inside (src_w src_h l t r b : Z) :
  (0 <= l <= r /\ r <= src_w - 1)%Z -> (0 <= t <= b /\ b <= src_h - 1)%Z ->
  crop_shape src_w src_h (l, t, r, b) = (b - t + 1, r - l + 1)%Z.
Proof.
  intros Hx Hy. unfold crop_shape, py_slice_len, py_slice.
  destruct (t <? 0)%Z eqn:Et; [apply Z.ltb_lt in Et; lia|].
  destruct (l <? 0)%Z eqn:El; [apply Z.ltb_lt in El; lia|].
  destruct (b + 1 <? 0)%Z eqn:Eb; [apply Z.ltb_lt in Eb; lia|].
  destruct (r + 1 <? 0)%Z eqn:Er; [apply Z.ltb_lt in Er; lia|].
  f_equal; lia.
Qed.

End CropBox.

(** C9. For an image at least 2 pixels wide and high, a face box of width
    and height at least 1 inside the image and a positive expansion scale,
    the crop box is made of integers with 0 <= left <= right <= src_w-1 and
    0 <= top <= bottom <= src_h-1, and the region that is then cropped is
    non-empty and lies inside the image. *)
Theorem liveness_crop_box_inside_image :
  forall (src_w src_h x y w h : Z) (scale : Q),
    (2 <= src_w)%Z -> (2 <= src_h)%Z -> (1 <= w)%Z -> (1 <= h)%Z ->
    (0 <= x)%Z -> (0 <= y)%Z -> (x + w <= src_w)%Z -> (y + h <= src_h)%Z ->
    (0 < scale)%Q ->
    exists left_x top_y right_x bottom_y,
      Liveness._get_new_box src_w src_h (x, y, w, h) scale =
        Some (left_x, top_y, right_x, bottom_y) /\
      (0 <= left_x <= right_x /\ right_x <= src_w - 1)%Z /\
      (0 <= top_y <= bottom_y /\ bottom_y <= src_h - 1)%Z /\
      Liveness._preprocess_face src_w src_h (x, y, w, h) scale =
        inr (bottom_y - top_y + 1, right_x - left_x + 1)%Z /\
      (1 <= bottom_y - top_y + 1 <= src_h)%Z /\
      (1 <= right_x - left_x + 1 <= src_w)%Z.
Proof.
  intros src_w src_h x y w h scale Hw Hh Hbw Hbh _ _ _ _ Hs.
  destruct (get_new_box_bounds x y Hw Hh Hbw Hbh Hs)
    as (l & t & r & b & Hbox & Hx & Hy).
  exists l, t, r, b. repeat split; try tauto; try lia.
  unfold Liveness._preprocess_face. rewrite Hbox.
  rewrite (@crop_shape_inside src_w src_h l t r b Hx Hy).
  replace (b - t + 1 =? 0)%Z with false by (symmetry; apply Z.eqb_neq; lia).
  replace (r - l + 1 =? 0)%Z with false by (symmetry; apply Z.eqb_neq; lia).
  reflexivity.
Qed.

(** A 640x480 frame, the face box [200, 120, 100, 120], scale 2.7. *)
Lemma liveness_crop_box_inside_image_witness :
  exists left_x top_y right_x bottom_y,
    Liveness._get_new_box 640 480 (200, 120, 100, 120)%Z (27 # 10) =
      Some (left_x, top_y, right_x, bottom_y) /\
    (0 <= left_x <= right_x /\ right_x <= 640 - 1)%Z /\
    (0 <= top_y <= bottom_y /\ bottom_y <= 480 - 1)%Z /\
    Liveness._preprocess_face 640 480 (200, 120, 100, 120)%Z (27 # 10) =
      inr (bottom_y - top_y + 1, right_x - left_x + 1)%Z /\
    (1 <= bottom_y - top_y + 1 <= 480)%Z /\
    (1 <= right_x - left_x + 1 <= 640)%Z.
Proof.
  apply (liveness_crop_box_inside_image
           (src_w := 640) (src_h := 480) (x := 200) (y := 120)
           (w := 100) (h := 120) (scale := 27 # 10));
    first [lia | reflexivity].
Defined.

(** ** Grouping of the search results *)

Section GroupingFacts.

Import PyNum VectorService Matching.

Section DictFacts.
Context {V : Type}.
Implicit Types (f : string -> V) (ks : list string).

Lemma dict_get_tabulate f ks k :
  dict_get (tabulate f ks) k = if existsb (String.eqb k) ks then Some (f k) else None.
Proof.
  induction ks as [|k' ks IH]; simpl; [reflexivity|].
  rewrite (String.eqb_sym k k').
  destruct (String.eqb_spec k' k) as [->|]; simpl; [reflexivity|exact IH].
Qed.

Lemma dict_set_tabulate_new f ks k v :
  existsb (String.eqb k) ks = false ->
  dict_set (tabulate f ks) k v = (tabulate f ks ++ [(k, v)])%list.
Proof.
  induction ks as [|k' ks IH]; simpl; [reflexivity|].
  rewrite (String.eqb_sym k k'). intros H. apply orb_false_iff in H as [H1 H2].
  rewrite H1, IH by assumption. reflexivity.
Qed.

Lemma dict_set_tabulate_old f f' ks k :
  NoDup ks -> In k ks -> (forall k', k' <> k -> f' k' = f k') ->
  dict_set (tabulate f ks) k (f' k) = tabulate f' ks.
Proof.
  intros Hnd Hin Hf. induction ks as [|k' ks IH]; simpl; [destruct Hin|].
  inversion Hnd as [|? ? Hk' Hnd']; subst.
  destruct (String.eqb_spec k' k) as [->|Hne].
  - f_equal. apply map_ext_in. intros a Ha.
    rewrite Hf; [reflexivity|]. intros ->. contradiction.
  - rewrite (Hf k' Hne). f_equal. apply IH; [assumption|].
    destruct Hin; [contradiction|assumption].
Qed.

End DictFacts.

Lemma existsb_eqb_In (k : string) ks : existsb (String.eqb k) ks = true <-> In k ks.
Proof.
  rewrite existsb_exists. split.
  - intros (x & Hx & E). apply String.eqb_eq in E. now subst.
  - intros H. exists k. split; [assumption|apply String.eqb_refl].
Qed.

Lemma existsb_eqb_notIn (k : string) ks : existsb (String.eqb k) ks = false <-> ~ In k ks.
Proof. rewrite <- existsb_eqb_In. symmetry. apply not_true_iff_false. Qed.

Section FirstSeen.

Lemma first_seen_snoc rs r :
  first_seen (rs ++ [r]) =
  if existsb (String.eqb (object_id r)) (first_seen rs) then first_seen rs
  else (first_seen rs ++ [object_id r])%list.
Proof. unfold first_seen. rewrite fold_left_app. reflexivity. Qed.

Lemma first_seen_NoDup rs : NoDup (first_seen rs).
Proof.
  induction rs as [|r rs IH] using rev_ind; [constructor|].
  rewrite first_seen_snoc.
  destruct (existsb _ _) eqn:E; [assumption|].
  apply existsb_eqb_notIn in E.
  apply NoDup_app; [assumption|repeat constructor; intros []|].
  intros a Ha [<-|[]]. contradiction.
Qed.

Lemma first_seen_In rs k :
  In k (first_seen rs) <-> exists r, In r rs /\ object_id r = k.
Proof.
  induction rs as [|r rs IH] using rev_ind.
  - simpl. split; [intros []|intros (r & [] & _)].
  - rewrite first_seen_snoc.
    assert (Hsplit : (exists r0, In r0 (rs ++ [r]) /\ object_id r0 = k) <->
                     (In k (first_seen rs) \/ object_id r = k)).
    { rewrite IH. split.
      - intros (r0 & Hin & E). apply in_app_or in Hin as [Hin|[<-|[]]]; eauto.
      - intros [(r0 & Hin & E)|E].
        + exists r0. split; [apply in_or_app; now left|assumption].
        + exists r. split; [apply in_or_app; right; now left|assumption]. }
    rewrite Hsplit. destruct (existsb _ _) eqn:E.
    + apply existsb_eqb_In in E. split; [now left|].
      intros [H|<-]; assumption.
    + rewrite in_app_iff. simpl. intuition.
Qed.

Lemma filter_absent rs k : ~ In k (first_seen rs) -> filter (has_id k) rs = [].
Proof.
  intros Hk. induction rs as [|r rs IH]; [reflexivity|]. simpl.
  destruct (has_id k r) eqn:E.
  - exfalso. apply Hk. apply first_seen_In. exists r. split; [now left|].
    now apply String.eqb_eq.
  - apply IH. intros H. apply Hk. apply first_seen_In.
    apply first_seen_In in H as (r0 & Hin & E0). exists r0. split; [now right|assumption].
Qed.

End FirstSeen.

Section Grouping.
Variable md : mode.

Lemma group_of_snoc_other rs r k :
  k <> object_id r -> group_of md (rs ++ [r]) k = group_of md rs k.
Proof.
  intros Hne. unfold group_of. rewrite filter_app. simpl.
  replace (has_id k r) with false.
  - rewrite app_nil_r. reflexivity.
  - symmetry. apply String.eqb_neq. auto.
Qed.

Lemma filter_snoc_same rs r :
  filter (has_id (object_id r)) (rs ++ [r]) =
  (filter (has_id (object_id r)) rs ++ [r])%list.
Proof.
  rewrite filter_app. simpl. unfold has_id at 2. rewrite String.eqb_refl. reflexivity.
Qed.

Lemma group_results_spec rs :
  group_results md rs = tabulate (group_of md rs) (first_seen rs).
Proof.
  induction rs as [|r rs IH] using rev_ind; [reflexivity|].
  unfold group_results in *. rewrite fold_left_app. simpl. rewrite IH. clear IH.
  unfold add_result, dict_mem.
  set (k := object_id r).
  rewrite dict_get_tabulate.
  assert (Hensure :
    (if match (if existsb (String.eqb k) (first_seen rs)
                then Some (group_of md rs k) else None) with
        | Some _ => true | None => false end
     then tabulate (group_of md rs) (first_seen rs)
     else dict_set (tabulate (group_of md rs) (first_seen rs)) k
            {| g_id := k; members := []; max_similarity := 0 |})
    = tabulate (group_of md rs) (first_seen (rs ++ [r]))).
  { rewrite first_seen_snoc. fold k.
    destruct (existsb (String.eqb k) (first_seen rs)) eqn:E; [reflexivity|].
    rewrite dict_set_tabulate_new by assumption.
    unfold tabulate. rewrite map_app. simpl. do 3 f_equal.
    unfold group_of. apply existsb_eqb_notIn in E.
    rewrite (filter_absent _ _ E). reflexivity. }
  rewrite Hensure. clear Hensure.
  assert (Hin : In k (first_seen (rs ++ [r]))).
  { apply first_seen_In. exists r. split; [apply in_or_app; right; now left|reflexivity]. }
  rewrite dict_get_tabulate.
  replace (existsb (String.eqb k) (first_seen (rs ++ [r]))) with true
    by (symmetry; now apply existsb_eqb_In).
  cbn [g_id members max_similarity group_of].
  match goal with
  | |- dict_set _ _ ?g = _ =>
      replace g with (group_of md (rs ++ [r]) k)
  end.
  - apply dict_set_tabulate_old; [apply first_seen_NoDup|assumption|].
    intros k' Hne. apply group_of_snoc_other. exact Hne.
  - unfold group_of, k. rewrite filter_snoc_same, map_app.
    unfold run_max. rewrite fold_left_app. simpl.
    destruct (Qgtb _ _); reflexivity.
Qed.

End Grouping.

Local Open Scope Q_scope.

Section RunMax.

Lemma run_max_snoc l r :
  run_max (l ++ [r]) =
  if Qgtb (similarity r) (run_max l) then round2 (similarity r) else run_max l.
Proof. unfold run_max. rewrite fold_left_app. reflexivity. Qed.

Lemma run_max_props l :
  round2 (run_max l) == run_max l /\ 0 <= run_max l /\
  (forall r, In r l -> round2 (similarity r) <= run_max l) /\
  (run_max l == 0 \/ exists r, In r l /\ run_max l == round2 (similarity r)).
Proof.
  induction l as [|r l (Hgrid & Hpos & Hub & Hatt)] using rev_ind.
  - repeat split; try reflexivity; [discriminate|intros r []|now left].
  - rewrite run_max_snoc. destruct (Qgtb (similarity r) (run_max l)) eqn:E.
    + apply Qgtb_gt in E.
      assert (Hm : run_max l <= round2 (similarity r)).
      { rewrite <- Hgrid. apply round2_mono. lra. }
      repeat split.
      * apply round2_idem.
      * lra.
      * intros r0 Hin. apply in_app_or in Hin as [Hin|[<-|[]]].
        -- specialize (Hub _ Hin). lra.
        -- apply Qle_refl.
      * right. exists r. split; [apply in_or_app; right; now left|reflexivity].
    + apply Qgtb_le in E. repeat split; try assumption.
      * intros r0 Hin. apply in_app_or in Hin as [Hin|[<-|[]]]; [auto|].
        rewrite <- Hgrid. now apply round2_mono.
      * destruct Hatt as [H0|(r0 & Hin & H0)]; [now left|].
        right. exists r0. split; [apply in_or_app; now left|assumption].
Qed.

Lemma run_max_best l r :
  In r l -> (forall r', In r' l -> similarity r' <= similarity r) ->
  run_max l == if Qgtb (similarity r) 0 then round2 (similarity r) else 0.
Proof.
  intros Hin Hbest.
  destruct (run_max_props l) as (_ & Hpos & Hub & Hatt).
  pose proof (Hub _ Hin) as Hr.
  destruct (Qgtb (similarity r) 0) eqn:E.
  - apply Qgtb_gt in E. apply Qle_antisym; [|assumption].
    destruct Hatt as [H0|(r0 & Hin0 & H0)].
    + rewrite H0. apply round2_nonneg. lra.
    + rewrite H0. apply round2_mono. auto.
  - apply Qgtb_le in E. apply Qle_antisym; [|assumption].
    destruct Hatt as [H0|(r0 & Hin0 & H0)].
    + rewrite H0. apply Qle_refl.
    + rewrite H0. apply Qle_trans with (round2 0).
      * apply round2_mono. specialize (Hbest _ Hin0). lra.
      * rewrite round2_0. apply Qle_refl.
Qed.

Lemma exists_best (l : list ImageSearchResponse) :
  l <> [] ->
  exists r, In r l /\ forall r', In r' l -> similarity r' <= similarity r.
Proof.
  induction l as [|a l IH]; [congruence|]. intros _.
  destruct l as [|b l'].
  - exists a. split; [now left|]. intros r' [<-|[]]. apply Qle_refl.
  - destruct IH as (r & Hin & Hr); [discriminate|].
    destruct (Qlt_le_dec (similarity r) (similarity a)) as [Hlt|Hle].
    + exists a. split; [now left|]. intros r' [<-|Hin']; [apply Qle_refl|].
      specialize (Hr _ Hin'). lra.
    + exists r. split; [now right|]. intros r' [<-|Hin']; auto.
Qed.

End RunMax.

Section Partition.

Lemma concat_nil_filters (ks : list string) :
  List.concat (map (fun k => filter (has_id k) (@nil ImageSearchResponse)) ks) = [].
Proof. induction ks; simpl; auto. Qed.

Lemma partition_insert (ks : list string) r rs :
  NoDup ks -> In (object_id r) ks ->
  Permutation
    (List.concat (map (fun k => filter (has_id k) (r :: rs)) ks))
    (r :: List.concat (map (fun k => filter (has_id k) rs) ks)).
Proof.
  intros Hnd Hin. induction ks as [|k ks IH]; [destruct Hin|].
  inversion Hnd as [|? ? Hk Hnd']; subst. simpl.
  destruct (has_id k r) eqn:E.
  - apply String.eqb_eq in E. subst k.
    replace (map (fun k => if has_id k r then r :: filter (has_id k) rs
                           else filter (has_id k) rs) ks)
      with (map (fun k => filter (has_id k) rs) ks); [reflexivity|].
    apply map_ext_in. intros k Hk'.
    replace (has_id k r) with false; [reflexivity|].
    symmetry. apply String.eqb_neq. intros Ek. rewrite Ek in Hk. contradiction.
  - assert (Hin' : In (object_id r) ks).
    { destruct Hin as [Ek|]; [|assumption].
      unfold has_id in E. rewrite Ek, String.eqb_refl in E. discriminate. }
    specialize (IH Hnd' Hin'). simpl in IH.
    rewrite IH. symmetry. apply Permutation_middle.
Qed.

Lemma partition_perm (ks : list string) rs :
  NoDup ks -> (forall r, In r rs -> In (object_id r) ks) ->
  Permutation (List.concat (map (fun k => filter (has_id k) rs) ks)) rs.
Proof.
  intros Hnd. induction rs as [|r rs IH]; intros Hcov.
  - rewrite concat_nil_filters. constructor.
  - rewrite partition_insert; [|assumption|apply Hcov; now left].
    constructor. apply IH. intros r' Hr'. apply Hcov. now right.
Qed.

Lemma member_ids_tabulated md rs ks :
  member_ids (map (group_of md rs) ks) =
  map image_id (List.concat (map (fun k => filter (has_id k) rs) ks)).
Proof.
  unfold member_ids. rewrite concat_map, !map_map. f_equal.
  apply map_ext. intros k. simpl. rewrite map_map. reflexivity.
Qed.

End Partition.

Section GroupingCorrect.

Variable md : mode.
Variable all_results : list ImageSearchResponse.

Lemma grouped_keys :
  dict_keys (group_results md all_results) = first_seen all_results.
Proof.
  rewrite group_results_spec. unfold dict_keys, tabulate.
  rewrite map_map. apply map_id.
Qed.

Lemma grouped_values :
  dict_values (group_results md all_results) =
  map (group_of md all_results) (first_seen all_results).
Proof.
  rewrite group_results_spec. unfold dict_values, tabulate.
  rewrite map_map. reflexivity.
Qed.

Lemma grouped_entry k g :
  In (k, g) (group_results md all_results) ->
  In k (first_seen all_results) /\ g = group_of md all_results k.
Proof.
  rewrite group_results_spec. unfold tabulate. intros H.
  apply in_map_iff in H as (k' & E & Hin). inversion E; subst. auto.
Qed.

Lemma group_best k :
  In k (first_seen all_results) ->
  exists r, best_of all_results k r /\
    (run_max (filter (has_id k) all_results) ==
     if Qgtb (similarity r) 0 then round2 (similarity r) else 0)%Q.
Proof.
  intros Hk. apply first_seen_In in Hk as (r0 & Hin0 & E0).
  destruct (@exists_best (filter (has_id k) all_results)) as (r & Hin & Hbest).
  { intros Hnil.
    assert (H : In r0 (filter (has_id k) all_results)).
    { apply filter_In. split; [assumption|]. now apply String.eqb_eq. }
    rewrite Hnil in H. destruct H. }
  exists r. split.
  - apply filter_In in Hin as [Hin Hid]. apply String.eqb_eq in Hid.
    repeat split; try assumption.
    intros r' Hin' Hid'. apply Hbest. apply filter_In.
    split; [assumption|]. now apply String.eqb_eq.
  - now apply run_max_best.
Qed.

End GroupingCorrect.

End GroupingFacts.

(** C1 (as amended). The grouping step makes exactly one group per distinct
    entity id of the input (keys without repetition, a key for an id exactly
    when some result has it); the group of an id holds that id's results in
    input order, and its [max_similarity] is the greatest similarity among
    them rounded to two decimals when that similarity is positive, and 0
    otherwise; the member [image_id]s of all groups together are the
    [image_id]s of the input, none dropped and none repeated. *)
Theorem grouping_correct :
  forall (md : Matching.mode)
         (all_results : list VectorService.ImageSearchResponse),
    let grouped := Matching.group_results md all_results in
    NoDup (PyNum.dict_keys grouped) /\
    (forall k, In k (PyNum.dict_keys grouped) <->
               exists r, In r all_results /\ VectorService.object_id r = k) /\
    (forall k g, In (k, g) grouped ->
       Matching.g_id g = k /\
       Matching.members g =
         map (Matching.member_of md)
             (filter (Matching.has_id k) all_results) /\
       exists r, Matching.best_of all_results k r /\
         (Matching.max_similarity g ==
          if PyNum.Qgtb (VectorService.similarity r) 0
          then PyNum.round2 (VectorService.similarity r) else 0)%Q) /\
    Permutation (Matching.member_ids (PyNum.dict_values grouped))
                (map VectorService.image_id all_results).
Proof.
  intros md rs grouped. unfold grouped. repeat split.
  - rewrite grouped_keys. apply first_seen_NoDup.
  - rewrite grouped_keys. apply first_seen_In.
  - rewrite grouped_keys. apply first_seen_In.
  - apply grouped_entry in H as [_ ->]. reflexivity.
  - apply grouped_entry in H as [_ ->]. reflexivity.
  - apply grouped_entry in H as [Hk ->]. simpl. now apply group_best.
  - rewrite grouped_values, member_ids_tabulated.
    apply Permutation_map. apply partition_perm.
    + apply first_seen_NoDup.
    + intros r Hr. apply first_seen_In. eauto.
Qed.

(** One result of similarity 0.876 for entity X: its group reports 0.88,
    which is not the greatest similarity among the results of X. *)
Lemma grouping_max_not_true_maximum :
  let r := {| VectorService.image_id := "img-1";
              VectorService.object_id := "X";
              VectorService.similarity := 219 # 250;
              VectorService.img_url := None;
              VectorService.img_object_url := None;
              VectorService.custom_data := [] |} in
  exists g,
    In ("X"%string, g) (Matching.group_results Matching.ObjectMode [r]) /\
    Matching.best_of [r] "X" r /\
    (Matching.max_similarity g == 88 # 100)%Q /\
    ~ (Matching.max_similarity g == VectorService.similarity r)%Q.
Proof.
  intros r.
  exists {| Matching.g_id := "X";
            Matching.members := [Matching.member_of Matching.ObjectMode r];
            Matching.max_similarity := 88 # 100 |}.
  split; [left; reflexivity|]. split.
  - repeat split; [now left|]. intros r' [<-|[]] _. apply Qle_refl.
  - split; [reflexivity|]. simpl. unfold Qeq; simpl. discriminate.
Qed.

(** ** Ranking and truncation of the groups *)

Section RankingFacts.

Import PyNum VectorService Matching.

Section Slices.
Context {A : Type}.

Lemma py_prefix_nonneg (l : list A) (k : Z) :
  (0 <= k)%Z -> py_prefix l k = firstn (Z.to_nat k) l.
Proof.
  intros Hk. unfold py_prefix, py_slice. simpl.
  destruct (k <? 0)%Z eqn:E; [apply Z.ltb_lt in E; lia|].
  destruct (Z.le_gt_cases k (Z.of_nat (List.length l))) as [Hle|Hgt].
  - rewrite Z.min_l by assumption. reflexivity.
  - rewrite Z.min_r by lia. rewrite Nat2Z.id.
    rewrite firstn_all. symmetry. apply firstn_all2. lia.
Qed.


End Slices.

Section Ranking.
Local Open Scope Q_scope.

Lemma insert_desc_perm g l : Permutation (insert_desc g l) (g :: l).
Proof.
  induction l as [|h t IH]; simpl; [reflexivity|].
  destruct (Qgtb _ _); [|reflexivity].
  rewrite IH. apply perm_swap.
Qed.

Lemma sorted_desc_perm l : Permutation (sorted_desc l) l.
Proof.
  induction l as [|g l IH]; simpl; [reflexivity|].
  rewrite insert_desc_perm. now constructor.
Qed.

Lemma insert_desc_sorted g l :
  StronglySorted ranks_before l -> StronglySorted ranks_before (insert_desc g l).
Proof.
  induction 1 as [|h t Hs IH Hall]; simpl.
  - repeat constructor.
  - destruct (Qgtb (max_similarity h) (max_similarity g)) eqn:E.
    + apply Qgtb_gt in E. constructor; [assumption|].
      apply (@Permutation_Forall _ _ (g :: t)).
      * symmetry. apply insert_desc_perm.
      * constructor; [unfold ranks_before; lra|assumption].
    + apply Qgtb_le in E. constructor; [now constructor|].
      constructor; [exact E|].
      eapply Forall_impl; [|exact Hall]. unfold ranks_before. intros x Hx. lra.
Qed.

Lemma sorted_desc_sorted l : StronglySorted ranks_before (sorted_desc l).
Proof.
  induction l; simpl; [constructor|]. now apply insert_desc_sorted.
Qed.

Lemma sorted_app_inv (l1 l2 : list group) :
  StronglySorted ranks_before (l1 ++ l2) ->
  StronglySorted ranks_before l1 /\
  forall a b, In a l1 -> In b l2 -> ranks_before a b.
Proof.
  induction l1 as [|x l1 IH]; simpl; intros H.
  - split; [constructor|]. intros a b [].
  - inversion H as [|? ? Hs Hall]; subst. destruct (IH Hs) as [Hs1 Hcross].
    apply Forall_app in Hall as [Ha1 Ha2]. split.
    + now constructor.
    + intros a b [<-|Ha] Hb.
      * rewrite Forall_forall in Ha2. now apply Ha2.
      * now apply Hcross.
Qed.

Lemma rank_groups_props (grouped : dict group) (top_k : Z) :
  (0 <= top_k)%Z ->
  let kept := rank_groups grouped top_k in
  (Z.of_nat (List.length kept) <= top_k)%Z /\
  kept = firstn (Z.to_nat top_k) (sorted_desc (dict_values grouped)) /\
  StronglySorted ranks_before kept /\
  exists dropped,
    Permutation (kept ++ dropped) (dict_values grouped) /\
    forall g g', In g kept -> In g' dropped ->
                 max_similarity g' <= max_similarity g.
Proof.
  intros Hk kept. unfold kept, rank_groups.
  rewrite py_prefix_nonneg by exact Hk.
  set (sorted := sorted_desc (dict_values grouped)).
  pose proof (sorted_desc_sorted (dict_values grouped)) as Hs. fold sorted in Hs.
  rewrite <- (firstn_skipn (Z.to_nat top_k) sorted) in Hs.
  apply sorted_app_inv in Hs as [Hs1 Hcross].
  split; [|split; [reflexivity|split; [assumption|]]].
  - pose proof (firstn_le_length (Z.to_nat top_k) sorted). lia.
  - exists (skipn (Z.to_nat top_k) sorted). split.
    + rewrite firstn_skipn. apply sorted_desc_perm.
    + intros g g' Hg Hg'. exact (Hcross _ _ Hg Hg').
Qed.




End Ranking.


End RankingFacts.




(** ** Threshold filtering of the search *)

Section SearchFacts.

Import PyNum VectorService.

Section Prefixes.
Context {A : Type}.

Lemma firstn_le_prefix (n m : nat) (l : list A) :
  (n <= m)%nat -> exists rest, firstn m l = (firstn n l ++ rest)%list.
Proof.
  intros H. exists (skipn n (firstn m l)).
  rewrite <- (firstn_skipn n (firstn m l)) at 1.
  rewrite firstn_firstn, Nat.min_l by assumption. reflexivity.
Qed.

Lemma py_prefix_app (l rest : list A) (k : Z) :
  exists rest', py_prefix (l ++ rest) k = (py_prefix l k ++ rest')%list.
Proof.
  unfold py_prefix, py_slice. cbn [snd].
  set (n1 := Z.to_nat _). set (n2 := Z.to_nat _).
  assert (H2 : (n2 <= List.length l)%nat).
  { unfold n2. destruct (Z.ltb_spec k 0); lia. }
  assert (H12 : (n2 <= n1)%nat).
  { unfold n1, n2. rewrite length_app. destruct (Z.ltb_spec k 0); lia. }
  destruct (firstn_le_prefix (l ++ rest) H12) as [rest' E].
  exists rest'. rewrite E. f_equal.
  rewrite firstn_app. replace (n2 - List.length l)%nat with 0%nat by lia.
  simpl. apply app_nil_r.
Qed.

End Prefixes.

Section Threshold.
Local Open Scope Q_scope.
Variables (json : json_codec) (cl : client).

Lemma collect_responses_below threshold items :
  Forall (fun it => item_similarity cl it < threshold) items ->
  collect_responses json cl threshold items = [].
Proof.
  induction 1 as [|it items Hit _ IH]; simpl; [reflexivity|].
  apply Qltb_lt in Hit. rewrite Hit. exact IH.
Qed.

Lemma collect_responses_prefix t1 t2 items :
  StronglySorted (nearer_first cl) items -> t1 <= t2 ->
  exists rest,
    collect_responses json cl t1 items =
    (collect_responses json cl t2 items ++ rest)%list.
Proof.
  intros Hs Ht. induction Hs as [|it items Hs IH Hall]; simpl.
  - exists []. reflexivity.
  - destruct (Qltb (item_similarity cl it) t2) eqn:E2.
    + apply Qltb_lt in E2. rewrite (@collect_responses_below t2 items).
      * eexists. reflexivity.
      * eapply Forall_impl; [|exact Hall]. unfold nearer_first.
        intros a Ha. simpl in Ha. lra.
    + apply Qltb_ge in E2.
      replace (Qltb (item_similarity cl it) t1) with false.
      * destruct IH as [rest E]. exists rest. rewrite E. reflexivity.
      * symmetry. apply Qltb_ge. lra.
Qed.

Lemma search_similar_prefix eng vec top_k filter t1 t2 :
  has_query cl || has_collections cl = true ->
  StronglySorted (nearer_first cl) (candidates eng vec top_k filter) ->
  t1 <= t2 ->
  exists res1 res2 rest,
    search_similar json cl eng vec top_k t1 filter = inr res1 /\
    search_similar json cl eng vec top_k t2 filter = inr res2 /\
    res1 = (res2 ++ rest)%list.
Proof.
  intros Hcl Hs Ht. unfold search_similar. rewrite Hcl.
  fold (candidates eng vec top_k filter).
  destruct (collect_responses_prefix Hs Ht) as [rest E].
  rewrite E.
  destruct (py_prefix_app (collect_responses json cl t2 (candidates eng vec top_k filter)) rest top_k)
    as [rest' E'].
  do 3 eexists. split; [reflexivity|]. split; [reflexivity|]. exact E'.
Qed.

End Threshold.

End SearchFacts.

(** C5. With the query vector, [top_k] and filter fixed, so that the engine
    gives the same hits, nearest first, every result of the search at the
    higher threshold [t2] is a result of the search at the lower threshold
    [t1], and the search at [t2] returns no more results than at [t1]. *)
Theorem search_threshold_monotone :
  forall (json : VectorService.json_codec) (cl : VectorService.client)
         (eng : VectorService.engine) (vec : list VectorService.fval)
         (top_k : Z) (filter : option string) (t1 t2 : Q),
    VectorService.has_query cl || VectorService.has_collections cl = true ->
    StronglySorted (VectorService.nearer_first cl)
      (VectorService.candidates eng vec top_k filter) ->
    (t1 <= t2)%Q ->
    exists res1 res2,
      VectorService.search_similar json cl eng vec top_k t1 filter
        = inr res1 /\
      VectorService.search_similar json cl eng vec top_k t2 filter
        = inr res2 /\
      incl res2 res1 /\
      (List.length res2 <= List.length res1)%nat.
Proof.
  intros json cl eng vec top_k filter t1 t2 Hcl Hs Ht.
  destruct (search_similar_prefix json eng vec top_k filter Hcl Hs Ht)
    as (res1 & res2 & rest & E1 & E2 & ->).
  exists (res2 ++ rest)%list, res2. repeat split; try assumption.
  - apply incl_appl, incl_refl.
  - rewrite length_app. lia.
Qed.

(** A v4 client and three hits at distances 0.1, 0.3 and 0.5 (similarities
    0.95, 0.85 and 0.75), searched at thresholds 0.7 and 0.8. *)
Lemma search_threshold_monotone_witness :
  let json := {| VectorService.dumps := fun _ => "{}"%string;
                 VectorService.loads := fun _ => None |} in
  let hit id obj distance :=
    {| VectorService.i_props :=
         {| VectorService.p_image_id := id;
            VectorService.p_object_id := obj;
            VectorService.p_img_url := ""; VectorService.p_img_object_url := "";
            VectorService.p_custom_data := "";
            VectorService.p_created_at := "";
            VectorService.p_face := None |};
       VectorService.i_score := Some distance |} in
  let eng : VectorService.engine :=
    fun _ _ _ => [hit "a" "X" (1 # 10); hit "b" "Y" (3 # 10);
                  hit "c" "X" (5 # 10)]%string in
  exists res1 res2,
    VectorService.search_similar json VectorService.v4_client eng
      [VectorService.FNum 1] 10 (7 # 10) None = inr res1 /\
    VectorService.search_similar json VectorService.v4_client eng
      [VectorService.FNum 1] 10 (8 # 10) None = inr res2 /\
    incl res2 res1 /\
    (List.length res2 <= List.length res1)%nat.
Proof.
  intros json hit eng.
  apply (@search_threshold_monotone json VectorService.v4_client eng
           [VectorService.FNum 1] 10 None (7 # 10) (8 # 10)).
  - reflexivity.
  - repeat constructor; vm_compute; discriminate.
  - vm_compute; discriminate.
Defined.

(** ** The dimension gate of the insert *)

Section InsertFacts.

Import PyNum VectorService.

Lemma get_vector_dimension_sampled o c :
  get_vector_dimension (rest_get_objects (o :: c))
  = Some (List.length (vector o)).
Proof. reflexivity. Qed.

Lemma get_vector_dimension_empty :
  get_vector_dimension (rest_get_objects []) = None.
Proof. reflexivity. Qed.

Lemma add_image_well_formed json name response d c :
  well_formed (feature_vector d) ->
  add_image json name response d c =
  match get_vector_dimension response with
  | Some db_dim =>
      if negb (db_dim =? List.length (feature_vector d))%nat then
        (inl (ValueError
                (dimension_mismatch_message db_dim
                   (List.length (feature_vector d)))), c)
      else (inr (d_image_id d),
            engine_insert c (data_object json name d) (feature_vector d))
  | None => (inr (d_image_id d),
             engine_insert c (data_object json name d) (feature_vector d))
  end.
Proof.
  intros [Hne Hvalid]. unfold add_image. rewrite Hvalid.
  destruct (feature_vector d); [congruence|reflexivity].
Qed.

Lemma add_image_error_keeps_collection json name response d c e :
  fst (add_image json name response d c) = inl e ->
  snd (add_image json name response d c) = c.
Proof.
  unfold add_image. destruct (feature_vector d) as [|x v]; [reflexivity|].
  destruct (first_invalid 0 (x :: v)) as [[i val]|]; [reflexivity|].
  destruct (get_vector_dimension response) as [db_dim|]; [|discriminate].
  destruct (negb _); [reflexivity|discriminate].
Qed.

End InsertFacts.

(** C3 (as amended). For an insert into a non-empty collection of a feature
    vector that is not empty and holds finite numbers only, when the
    dimension lookup answers with a stored object: if the length of the
    vector differs from the length of the sampled stored vector, the insert
    raises the dimension-mismatch [ValueError], whose message gives both
    dimensions, and the collection is unchanged; if the lengths agree, the
    object is handed to the engine and the image id is returned. *)
Theorem insert_dimension_gate :
  forall (json : VectorService.json_codec) (collection_name : string)
         (d : VectorService.image_data)
         (o : VectorService.db_object) (c : VectorService.collection),
    VectorService.well_formed (VectorService.feature_vector d) ->
    let coll := o :: c in
    let db_dim := List.length (VectorService.vector o) in
    let cur_dim := List.length (VectorService.feature_vector d) in
    let outcome :=
      VectorService.add_image json collection_name
        (VectorService.rest_get_objects coll) d coll in
    (cur_dim <> db_dim ->
       outcome =
         (inl (VectorService.ValueError
                 (VectorService.dimension_mismatch_message db_dim cur_dim)),
          coll)) /\
    (cur_dim = db_dim ->
       outcome =
         (inr (VectorService.d_image_id d),
          VectorService.engine_insert coll
            (VectorService.data_object json collection_name d)
            (VectorService.feature_vector d))).
Proof.
  intros json name d o c Hwf coll db_dim cur_dim outcome.
  unfold outcome, coll.
  rewrite (@add_image_well_formed json name _ d (o :: c) Hwf).
  rewrite get_vector_dimension_sampled.
  fold db_dim cur_dim. split; intros H.
  - replace (db_dim =? cur_dim)%nat with false; [reflexivity|].
    symmetry. apply Nat.eqb_neq. congruence.
  - replace (db_dim =? cur_dim)%nat with true; [reflexivity|].
    symmetry. apply Nat.eqb_eq. congruence.
Qed.

(** A collection of 2-dimensional vectors and a 3-dimensional insert: the
    error names 2 and 3 and the collection is the one given. *)
Lemma insert_dimension_gate_witness :
  let json := {| VectorService.dumps := fun _ => "{}"%string;
                 VectorService.loads := fun _ => None |} in
  let p := {| VectorService.p_image_id := "img-0";
              VectorService.p_object_id := "X";
              VectorService.p_img_url := "";
              VectorService.p_img_object_url := "";
              VectorService.p_custom_data := "{}";
              VectorService.p_created_at := "";
              VectorService.p_face := None |} in
  let o := {| VectorService.uuid := 1; VectorService.props := p;
              VectorService.vector :=
                [VectorService.FNum 1; VectorService.FNum 0] |} in
  let d := {| VectorService.d_image_id := "img-1";
              VectorService.d_entity_id := "X";
              VectorService.d_img_url := None;
              VectorService.d_img_object_url := None;
              VectorService.feature_vector :=
                [VectorService.FNum 1; VectorService.FNum 0;
                 VectorService.FNum 0];
              VectorService.d_custom_data := [];
              VectorService.d_created_at := "";
              VectorService.d_face := None |} in
  VectorService.add_image json "ObjectData"
    (VectorService.rest_get_objects [o]) d [o]
  = (inl (VectorService.ValueError
            (VectorService.dimension_mismatch_message 2 3)), [o]).
Proof.
  intros json p o d.
  apply (@insert_dimension_gate json "ObjectData"%string d o []).
  - split; [discriminate|reflexivity].
  - discriminate.
Defined.

(** Into the same collection of 2-dimensional vectors: an empty vector and
    a 3-dimensional vector that holds a NaN are refused with another error
    than the dimension mismatch, and a 3-dimensional vector passes the gate
    when the lookup is answered with status 500. *)
Lemma insert_dimension_gate_not_total :
  let json := {| VectorService.dumps := fun _ => "{}"%string;
                 VectorService.loads := fun _ => None |} in
  let p := {| VectorService.p_image_id := "img-0";
              VectorService.p_object_id := "X";
              VectorService.p_img_url := "";
              VectorService.p_img_object_url := "";
              VectorService.p_custom_data := "{}";
              VectorService.p_created_at := "";
              VectorService.p_face := None |} in
  let o := {| VectorService.uuid := 1; VectorService.props := p;
              VectorService.vector :=
                [VectorService.FNum 1; VectorService.FNum 0] |} in
  let d v := {| VectorService.d_image_id := "img-1";
                VectorService.d_entity_id := "X";
                VectorService.d_img_url := None;
                VectorService.d_img_object_url := None;
                VectorService.feature_vector := v;
                VectorService.d_custom_data := [];
                VectorService.d_created_at := "";
                VectorService.d_face := None |} in
  let v3 := [VectorService.FNum 1; VectorService.FNum 0;
             VectorService.FNum 0] in
  let nan3 := [VectorService.FNum 1; VectorService.FNaN;
               VectorService.FNum 0] in
  let mismatch n :=
    inl (VectorService.ValueError
           (VectorService.dimension_mismatch_message 2 n)) in
  VectorService.get_vector_dimension (VectorService.rest_get_objects [o])
    = Some 2%nat /\
  fst (VectorService.add_image json "ObjectData"
         (VectorService.rest_get_objects [o]) (d []) [o])
    = inl (VectorService.ValueError VectorService.invalid_vector_message) /\
  fst (VectorService.add_image json "ObjectData"
         (VectorService.rest_get_objects [o]) (d []) [o]) <> mismatch 0%nat /\
  fst (VectorService.add_image json "ObjectData"
         (VectorService.rest_get_objects [o]) (d nan3) [o])
    = inl (VectorService.ValueError
             (VectorService.invalid_value_message 1 VectorService.FNaN)) /\
  fst (VectorService.add_image json "ObjectData"
         (VectorService.rest_get_objects [o]) (d nan3) [o]) <> mismatch 3%nat /\
  fst (VectorService.add_image json "ObjectData"
         (VectorService.RestStatus 500 []) (d v3) [o])
    = inr "img-1"%string.
Proof.
  intros json p o d v3 nan3 mismatch.
  repeat split; try reflexivity; vm_compute; discriminate.
Qed.

(** ** Deletion of one image *)

Section DeleteFacts.

Import PyNum VectorService.

Lemma fetch_by_image_id_missing c image_id :
  (forall o, In o c -> p_image_id (props o) <> image_id) ->
  fetch_by_image_id c image_id = None.
Proof.
  unfold fetch_by_image_id. induction c as [|o c IH]; intros H; simpl.
  - reflexivity.
  - destruct (String.eqb_spec (p_image_id (props o)) image_id) as [E|_].
    + exfalso. exact (H o (or_introl eq_refl) E).
    + apply IH. intros o' Ho'. apply H. now right.
Qed.

Lemma get_by_image_id_missing json name cl c image_id :
  (forall o, In o c -> p_image_id (props o) <> image_id) ->
  get_by_image_id json name cl c image_id = None.
Proof.
  intros H. unfold get_by_image_id.
  rewrite (fetch_by_image_id_missing c H).
  destruct (has_query cl || has_collections cl); reflexivity.
Qed.

End DeleteFacts.

(** C10. When no object of the collection has the given [image_id],
    [delete_by_image_id] returns [False], and the collection and the files
    on disk are exactly as before: the not-found return comes before any
    unlink or engine delete. *)
Theorem delete_missing_image_is_noop :
  forall (json : VectorService.json_codec) (collection_name : string)
         (cl : VectorService.client) (image_id : string)
         (c : VectorService.collection) (fs : VectorService.filesystem),
    (forall o, In o c ->
       VectorService.p_image_id (VectorService.props o) <> image_id) ->
    VectorService.delete_by_image_id json collection_name cl image_id c fs
    = (false, c, fs).
Proof.
  intros json name cl image_id c fs H.
  unfold VectorService.delete_by_image_id.
  rewrite (get_by_image_id_missing json name cl c H). reflexivity.
Qed.

(** The collection holds img-0 with its two files; img-9 is asked for. *)
Lemma delete_missing_image_is_noop_witness :
  let json := {| VectorService.dumps := fun _ => "{}"%string;
                 VectorService.loads := fun _ => Some [] |} in
  let p := {| VectorService.p_image_id := "img-0";
              VectorService.p_object_id := "X";
              VectorService.p_img_url := "/images/upload/X/img-0/img-0.jpg";
              VectorService.p_img_object_url :=
                "/images/upload/X/img-0/img-0_object.png";
              VectorService.p_custom_data := "{}";
              VectorService.p_created_at := "";
              VectorService.p_face := None |} in
  let o := {| VectorService.uuid := 1; VectorService.props := p;
              VectorService.vector := [VectorService.FNum 1] |} in
  let fs := {| VectorService.files :=
                 ["data/upload/X/img-0/img-0.jpg";
                  "data/upload/X/img-0/img-0_object.png"]%string;
               VectorService.undeletable := [];
               VectorService.alias := fun _ _ => false |} in
  VectorService.delete_by_image_id json "ObjectData"
    VectorService.v4_client "img-9" [o] fs
  = (false, [o], fs).
Proof.
  intros json p o fs.
  apply (@delete_missing_image_is_noop json "ObjectData"%string
           VectorService.v4_client "img-9"%string [o] fs).
  intros o' [<-|[]]. discriminate.
Defined.

(** The same store when img-0 itself is deleted: both files and the object
    go, and the call returns [True]. *)
Example delete_present_image :
  let json := {| VectorService.dumps := fun _ => "{}"%string;
                 VectorService.loads := fun _ => Some [] |} in
  let p := {| VectorService.p_image_id := "img-0";
              VectorService.p_object_id := "X";
              VectorService.p_img_url := "/images/upload/X/img-0/img-0.jpg";
              VectorService.p_img_object_url :=
                "/images/upload/X/img-0/img-0_object.png";
              VectorService.p_custom_data := "{}";
              VectorService.p_created_at := "";
              VectorService.p_face := None |} in
  let o := {| VectorService.uuid := 1; VectorService.props := p;
              VectorService.vector := [VectorService.FNum 1] |} in
  let fs := {| VectorService.files :=
                 ["data/upload/X/img-0/img-0.jpg";
                  "data/upload/X/img-0/img-0_object.png"]%string;
               VectorService.undeletable := [];
               VectorService.alias := fun _ _ => false |} in
  VectorService.delete_by_image_id json "ObjectData"
    VectorService.v4_client "img-0" [o] fs
  = (true, [], {| VectorService.files := [];
                  VectorService.undeletable := [];
                  VectorService.alias := fun _ _ => false |}).
Proof. reflexivity. Qed.

(** ** Multi-scale detection *)

Section FallbackFacts.

Import PyNum FacePipeline.

Variables (p : pipeline) (st : settings) (img : image).
Variable enable_liveness : option bool.
Variables (primary fallback : detector) (f : face) (fs : list face).

Hypothesis Happ : app p = Some primary.
Hypothesis Hsize : (width img * height img)%Z <> 0%Z.
Hypothesis Hprimary : primary img = [].
Hypothesis Hfallback : app_fallback p = Some fallback.
Hypothesis Hfound : fallback img = f :: fs.

Let detection_log : list log_line :=
  [StartDetection (width img) (height img); TryPrimary (det_size p);
   PrimaryFailed; RetryFallback (det_size_fallback p);
   FallbackSucceeded (S (List.length fs));
   FaceDetectedAt (det_size_fallback p) f].

Lemma fallback_log :
  exists tail,
    snd (preprocess p st (Some img) enable_liveness)
    = (detection_log ++ tail)%list.
Proof.
  unfold preprocess. rewrite Happ.
  replace (width img * height img =? 0)%Z with false
    by (symmetry; now apply Z.eqb_neq).
  rewrite Hprimary, Hfallback, Hfound. cbn [List.length Nat.ltb Nat.leb app].
  destruct (_ && _); [destruct (liveness_detector p) as [detect|]|].
  - destruct (bbox f) as [[[x1 y1] x2] y2].
    destruct (detect _ _ _ _ _) as [[[real sc] details]|]; eexists; reflexivity.
  - exists []. reflexivity.
  - exists []. reflexivity.
Qed.

Lemma fallback_result :
  liveness_returns p st img enable_liveness f ->
  exists r,
    fst (preprocess p st (Some img) enable_liveness) = Some r /\ r_face r = f.
Proof.
  unfold liveness_returns, preprocess. rewrite Happ.
  replace (width img * height img =? 0)%Z with false
    by (symmetry; now apply Z.eqb_neq).
  rewrite Hprimary, Hfallback, Hfound. cbn [List.length Nat.ltb Nat.leb app].
  destruct (_ && _); [destruct (liveness_detector p) as [detect|]|].
  - destruct (bbox f) as [[[x1 y1] x2] y2]. intros Hret.
    destruct (detect _ _ _ _ _) as [[[real sc] details]|].
    + eexists. split; reflexivity.
    + exfalso. now apply Hret.
  - intros _. eexists. split; reflexivity.
  - intros _. eexists. split; reflexivity.
Qed.

Lemma fallback_result_face r :
  fst (preprocess p st (Some img) enable_liveness) = Some r -> r_face r = f.
Proof.
  unfold preprocess. rewrite Happ.
  replace (width img * height img =? 0)%Z with false
    by (symmetry; now apply Z.eqb_neq).
  rewrite Hprimary, Hfallback, Hfound. cbn [List.length Nat.ltb Nat.leb app].
  destruct (_ && _); [destruct (liveness_detector p) as [detect|]|].
  - destruct (bbox f) as [[[x1 y1] x2] y2].
    destruct (detect _ _ _ _ _) as [[[real sc] details]|]; simpl;
      intros H; inversion H; reflexivity.
  - simpl. intros H; inversion H; reflexivity.
  - simpl. intros H; inversion H; reflexivity.
Qed.

Lemma fallback_liveness_raises :
  ~ liveness_returns p st img enable_liveness f ->
  fst (preprocess p st (Some img) enable_liveness) = None.
Proof.
  unfold liveness_returns, preprocess. rewrite Happ.
  replace (width img * height img =? 0)%Z with false
    by (symmetry; now apply Z.eqb_neq).
  rewrite Hprimary, Hfallback, Hfound. cbn [List.length Nat.ltb Nat.leb app].
  destruct (liveness_detector p) as [detect|];
    [|intros H; exfalso; now apply H].
  destruct (_ && _).
  - destruct (bbox f) as [[[x1 y1] x2] y2].
    destruct (detect _ _ _ _ _) as [[[real sc] details]|].
    + intros H. exfalso. apply H. intros _. discriminate.
    + reflexivity.
  - intros H. exfalso. apply H. intros K. discriminate K.
Qed.

End FallbackFacts.

(** C6 (as amended). When the primary detector finds no face in a picture
    and the configured fallback detector finds at least one, the face
    [preprocess] selects is the first face of the fallback detector, and
    the "Face detected at" line of the log reports the fallback
    resolution.  That face is returned when the liveness step that follows
    is skipped or returns a verdict; when the liveness step raises,
    [preprocess] returns [None]. *)
Theorem multi_scale_fallback :
  forall (p : FacePipeline.pipeline) (st : FacePipeline.settings)
         (img : FacePipeline.image) (enable_liveness : option bool)
         (primary fallback : FacePipeline.detector)
         (f : FacePipeline.face) (fs : list FacePipeline.face),
    FacePipeline.app p = Some primary ->
    (FacePipeline.width img * FacePipeline.height img)%Z <> 0%Z ->
    primary img = [] ->
    FacePipeline.app_fallback p = Some fallback ->
    fallback img = f :: fs ->
    let outcome := FacePipeline.preprocess p st (Some img) enable_liveness in
    FacePipeline.reported_size (snd outcome)
      = Some (FacePipeline.det_size_fallback p) /\
    In (FacePipeline.FaceDetectedAt (FacePipeline.det_size_fallback p) f)
       (snd outcome) /\
    (FacePipeline.liveness_returns p st img enable_liveness f ->
     exists r, fst outcome = Some r /\ FacePipeline.r_face r = f) /\
    (~ FacePipeline.liveness_returns p st img enable_liveness f ->
     fst outcome = None).
Proof.
  intros p st img enable_liveness primary fallback f fs
         Happ Hsize Hprimary Hfallback Hfound outcome.
  destruct (@fallback_log p st img enable_liveness primary fallback f fs
              Happ Hsize Hprimary Hfallback Hfound) as [tail Hlog].
  unfold outcome. repeat split.
  - rewrite Hlog. reflexivity.
  - rewrite Hlog. apply in_or_app. left. simpl. tauto.
  - exact (@fallback_result p st img enable_liveness primary fallback f fs
             Happ Hsize Hprimary Hfallback Hfound).
  - exact (@fallback_liveness_raises p st img enable_liveness primary
             fallback f fs Happ Hsize Hprimary Hfallback Hfound).
Qed.

(** A close-up: nothing at 640x640, one face at 256x256, liveness off. *)
Lemma multi_scale_fallback_witness :
  let f := {| FacePipeline.bbox := (10, 20, 300, 360)%Q;
              FacePipeline.det_score := 9 # 10 |} in
  let p := {| FacePipeline.app := Some (fun _ => []);
              FacePipeline.app_fallback := Some (fun _ => [f]);
              FacePipeline.det_size := (640, 640)%Z;
              FacePipeline.det_size_fallback := (256, 256)%Z;
              FacePipeline.liveness_detector := None |} in
  let st := {| FacePipeline.s_enable_liveness := false;
               FacePipeline.liveness_threshold := 6 # 10;
               FacePipeline.liveness_paper_reject_threshold := 3 # 10;
               FacePipeline.liveness_screen_reject_threshold := 3 # 10 |} in
  let img := {| FacePipeline.width := 320; FacePipeline.height := 400;
                FacePipeline.pixels := "close-up" |} in
  let outcome := FacePipeline.preprocess p st (Some img) None in
  FacePipeline.reported_size (snd outcome) = Some (256, 256)%Z /\
  In (FacePipeline.FaceDetectedAt (256, 256)%Z f) (snd outcome) /\
  exists r, fst outcome = Some r /\ FacePipeline.r_face r = f.
Proof.
  intros f p st img outcome.
  destruct (@multi_scale_fallback p st img None (fun _ => []) (fun _ => [f])
              f [] eq_refl) as (Hsize & Hlog & Hret & _).
  - discriminate.
  - reflexivity.
  - reflexivity.
  - reflexivity.
  - split; [exact Hsize|]. split; [exact Hlog|]. apply Hret. exact I.
Defined.

(** The same close-up with liveness enabled and a liveness detector that
    raises (no model loaded, or an empty crop): the fallback detector
    finds the face, the log reports 256x256, and [preprocess] returns
    [None]. *)
Lemma multi_scale_fallback_lost_to_liveness :
  let f := {| FacePipeline.bbox := (10, 20, 300, 360)%Q;
              FacePipeline.det_score := 9 # 10 |} in
  let p := {| FacePipeline.app := Some (fun _ => []);
              FacePipeline.app_fallback := Some (fun _ => [f]);
              FacePipeline.det_size := (640, 640)%Z;
              FacePipeline.det_size_fallback := (256, 256)%Z;
              FacePipeline.liveness_detector :=
                Some (fun _ _ _ _ _ => None) |} in
  let st := {| FacePipeline.s_enable_liveness := true;
               FacePipeline.liveness_threshold := 6 # 10;
               FacePipeline.liveness_paper_reject_threshold := 3 # 10;
               FacePipeline.liveness_screen_reject_threshold := 3 # 10 |} in
  let img := {| FacePipeline.width := 320; FacePipeline.height := 400;
                FacePipeline.pixels := "close-up" |} in
  let outcome := FacePipeline.preprocess p st (Some img) None in
  FacePipeline.app p = Some (fun _ => []) /\
  FacePipeline.app_fallback p = Some (fun _ => [f]) /\
  FacePipeline.reported_size (snd outcome) = Some (256, 256)%Z /\
  fst outcome = None.
Proof. intros f p st img outcome. repeat split. Qed.

(** ** Registration: failures before persistence *)

(** The components of paths. *)

Section PathFacts.
Import PyPath.
Local Open Scope string_scope.

Lemma split_slash_nonempty s : split_slash s <> [].
Proof.
  destruct s as [|c s]; simpl; [discriminate|].
  destruct (Ascii.eqb c "/"); [discriminate|].
  destruct (split_slash s); discriminate.
Qed.

Lemma split_slash_no_slash s : forallb no_slash (split_slash s) = true.
Proof.
  induction s as [|c s IH]; simpl; [reflexivity|].
  destruct (Ascii.eqb c "/") eqn:E; simpl; [exact IH|].
  destruct (split_slash s) as [|h t]; simpl in *.
  - now rewrite E.
  - rewrite E. exact IH.
Qed.

Lemma split_no_slash c : no_slash c = true -> split_slash c = [c].
Proof.
  induction c as [|a c IH]; simpl; [reflexivity|].
  intros H. apply andb_true_iff in H as [Ha Hc].
  apply negb_true_iff in Ha. rewrite Ha. now rewrite (IH Hc).
Qed.

Lemma split_slash_app c s :
  no_slash c = true ->
  split_slash (c ++ String "/" s) = c :: split_slash s.
Proof.
  induction c as [|a c IH]; [reflexivity|].
  intros H. cbn [no_slash] in H. apply andb_true_iff in H as [Ha Hc].
  apply negb_true_iff in Ha.
  cbn [append split_slash]. rewrite Ha. now rewrite (IH Hc).
Qed.

Lemma split_join ps :
  ps <> [] -> forallb no_slash ps = true ->
  split_slash (join_slash ps) = ps.
Proof.
  induction ps as [|p ps IH]; [congruence|]. intros _ H.
  simpl in H. apply andb_true_iff in H as [Hp Hps].
  destruct ps as [|q ps].
  - simpl. now apply split_no_slash.
  - change (join_slash (p :: q :: ps))
      with (p ++ String "/" (join_slash (q :: ps))).
    rewrite split_slash_app by exact Hp. f_equal.
    apply IH; [discriminate|exact Hps].
Qed.

Lemma filter_clean ps :
  forallb clean ps = true -> filter is_part ps = ps.
Proof.
  induction ps as [|p ps IH]; simpl; [reflexivity|].
  intros H. apply andb_true_iff in H as [Hp Hps].
  unfold clean in Hp. apply andb_true_iff in Hp as [Hp _].
  rewrite Hp. now rewrite IH.
Qed.

Lemma clean_no_slash ps :
  forallb clean ps = true -> forallb no_slash ps = true.
Proof.
  induction ps as [|p ps IH]; simpl; [reflexivity|].
  intros H. apply andb_true_iff in H as [Hp Hps].
  unfold clean in Hp. apply andb_true_iff in Hp as [_ Hp].
  rewrite Hp. now apply IH.
Qed.

Lemma parts_clean s : forallb clean (filter is_part (split_slash s)) = true.
Proof.
  pose proof (split_slash_no_slash s) as H.
  induction (split_slash s) as [|p ps IH]; simpl; [reflexivity|].
  simpl in H. apply andb_true_iff in H as [Hp Hps].
  destruct (is_part p) eqn:E; simpl; [|now apply IH].
  unfold clean. rewrite E, Hp. now apply IH.
Qed.

Lemma leading_slashes_clean c s :
  clean c = true -> leading_slashes (c ++ s) = 0%nat.
Proof.
  unfold clean, is_part. destruct c as [|a c]; simpl; [discriminate|].
  intros H. apply andb_true_iff in H as [_ H].
  apply andb_true_iff in H as [H _]. apply negb_true_iff in H.
  now rewrite H.
Qed.

Lemma leading_slashes_join ps :
  forallb clean ps = true -> leading_slashes (join_slash ps) = 0%nat.
Proof.
  destruct ps as [|p ps]; simpl; [reflexivity|].
  intros H. apply andb_true_iff in H as [Hp _].
  destruct ps.
  - unfold clean, is_part in Hp. destruct p as [|a p]; [discriminate|].
    simpl in *. apply andb_true_iff in Hp as [_ Hp].
    apply andb_true_iff in Hp as [Hp _]. apply negb_true_iff in Hp.
    now rewrite Hp.
  - now apply leading_slashes_clean.
Qed.

(** A relative path in normal form is read back as it is. *)
Lemma Path_join ps :
  forallb clean ps = true ->
  Path (join_slash ps) = {| root := ""; parts := ps |}.
Proof.
  intros H. unfold Path, root_of. rewrite (leading_slashes_join ps H).
  f_equal. destruct ps as [|p ps]; [reflexivity|].
  rewrite split_join; [|discriminate|now apply clean_no_slash].
  now apply filter_clean.
Qed.

Lemma join_cons p ps :
  ps <> [] -> join_slash (p :: ps) = p ++ "/" ++ join_slash ps.
Proof. destruct ps; [congruence|reflexivity]. Qed.

Lemma str_relative ps :
  ps <> [] -> str {| root := ""; parts := ps |} = join_slash ps.
Proof. destruct ps; [congruence|reflexivity]. Qed.

Lemma starts_with_split pre l :
  starts_with pre l = true -> l = (pre ++ skipn (List.length pre) l)%list.
Proof.
  revert l. induction pre as [|a pre IH]; intros l; simpl; [reflexivity|].
  destruct l as [|b l]; [discriminate|].
  intros H. apply andb_true_iff in H as [E H].
  apply String.eqb_eq in E. subst b. f_equal. now apply IH.
Qed.

Lemma starts_with_app pre l : starts_with pre (pre ++ l) = true.
Proof.
  induction pre as [|a pre IH]; simpl; [reflexivity|].
  now rewrite String.eqb_refl.
Qed.

End PathFacts.

Section RegistrationFacts.

Import PyNum VectorService Registration.

Lemma write_file_In path files : In path (write_file path files).
Proof.
  unfold write_file. destruct (existsb _ _) eqn:E.
  - apply existsb_exists in E as (x & Hx & Ex).
    apply String.eqb_eq in Ex. now subst.
  - apply in_or_app. right. now left.
Qed.

Lemma write_file_keeps path path' files :
  In path' files -> In path' (write_file path files).
Proof.
  unfold write_file. destruct (existsb _ _); [auto|].
  intros H. apply in_or_app. now left.
Qed.

(** Face mode: a failure of acquisition, detection, liveness or feature
    extraction leaves the files and the collection untouched. *)
Lemma face_registration_aborts_clean
    json models saves response acquired image_id person_id save_files
    custom_data enable_liveness created_at w :
  face_steps_fail models acquired enable_liveness ->
  exists e,
    add_face json models saves response acquired image_id person_id
      save_files custom_data enable_liveness created_at w = (inl e, w).
Proof.
  unfold face_steps_fail, add_face.
  destruct acquired as [image|]; [|eexists; reflexivity].
  destruct (preprocess models image enable_liveness) as [face_data|];
    [|eexists; reflexivity].
  intros [Hlive|[Hscore|Hfeat]].
  - rewrite Hlive. eexists; reflexivity.
  - rewrite Hscore. destruct (f_liveness_passed face_data) as [[|]|];
      eexists; reflexivity.
  - rewrite Hfeat. destruct (f_liveness_passed face_data) as [[|]|];
      destruct (f_det_score face_data); eexists; reflexivity.
Qed.

(** Object mode: acquisition is the only step whose failure leaves the
    files untouched. *)
Lemma object_registration_acquisition_failure
    json models saves response image_id object_id save_files custom_data
    created_at w :
  exists e,
    object_add_image json models saves response None image_id object_id
      save_files custom_data created_at w = (inl e, w).
Proof. eexists; reflexivity. Qed.

(** Object mode: when the original picture can be saved and the feature
    extraction fails on a request that saves its files, the call raises
    and the original picture is on disk after it. *)
Lemma object_feature_failure_keeps_files
    json models saves response image image_id object_id custom_data
    created_at w :
  saves (original_file object_id image_id) = true ->
  extract_features models image = None ->
  exists e w',
    object_add_image json models saves response (Some image) image_id
      object_id true custom_data created_at w
    = (inl e, w') /\
    store w' = store w /\
    In (original_file object_id image_id) (disk w').
Proof.
  intros Hsave Hfeat. unfold object_add_image, object_save_files,
    save_upload_image, save_processed_image. rewrite Hsave, Hfeat.
  destruct (remove_background models image);
    [destruct (saves (PyPath.str _))|]; do 2 eexists;
    (split; [reflexivity|split; [reflexivity|]]); simpl.
  - apply write_file_keeps, write_file_In.
  - apply write_file_In.
  - apply write_file_In.
Qed.

End RegistrationFacts.

(** C2, on the object path. An object registration with [save_files] on an
    empty disk and an empty collection, whose picture loads and whose
    background removal succeeds but whose feature extraction returns
    [None]: the call raises "Failed to extract features", no vector is
    inserted, and the original and the processed picture stay on disk. *)
Theorem object_registration_leaves_orphan_files :
  let json := {| VectorService.dumps := fun _ => "{}"%string;
                 VectorService.loads := fun _ => None |} in
  let models :=
    {| Registration.remove_background := fun _ => Some "cut-out"%string;
       Registration.extract_features := fun _ => None |} in
  Registration.object_add_image json models (fun _ => true)
    (VectorService.rest_get_objects []) (Some "picture"%string)
    "img-1" "X" true [] "2024-01-01T00:00:00+00:00"
    {| Registration.disk := []; Registration.store := [] |}
  = (inl (VectorService.ValueError "Failed to extract features"),
     {| Registration.disk :=
          ["data/upload/X/img-1/img-1.jpg";
           "data/upload/X/img-1/img-1_object.png"]%string;
        Registration.store := [] |}).
Proof. reflexivity. Qed.

(** The same request in face mode, the feature extraction failing as well:
    nothing is written. *)
Example face_registration_leaves_nothing :
  let json := {| VectorService.dumps := fun _ => "{}"%string;
                 VectorService.loads := fun _ => None |} in
  let detected :=
    {| Registration.f_bbox := Some "[10.0, 20.0, 110.0, 140.0]"%string;
       Registration.f_det_score := Some (9 # 10);
       Registration.f_kps := None;
       Registration.f_liveness_passed := None |} in
  let models :=
    {| Registration.preprocess := fun _ _ => Some detected;
       Registration.face_features := fun _ => None;
       Registration.crop_face := fun _ _ => Some "crop"%string |} in
  Registration.add_face json models (fun _ => true)
    (VectorService.rest_get_objects []) (Some "picture"%string)
    "img-1" "X" true [] false "2024-01-01T00:00:00+00:00"
    {| Registration.disk := []; Registration.store := [] |}
  = (inl (VectorService.ValueError "Failed to extract face features"),
     {| Registration.disk := []; Registration.store := [] |}).
Proof. reflexivity. Qed.

(** ** Model-change reconciliation *)

Section ModelChangeFacts.

Import PyNum VectorService ModelChange.

Lemma dict_get_set_same {V : Type} (d : dict V) k v :
  dict_get (dict_set d k v) k = Some v.
Proof.
  induction d as [|[k' v'] d IH]; simpl.
  - now rewrite String.eqb_refl.
  - destruct (String.eqb k' k) eqn:E; simpl; rewrite E; [reflexivity|exact IH].
Qed.



Lemma save_current_config_inv env st f f' :
  save_current_config env st f = inr f' ->
  exists content,
    load_config f = inr (JObject content) /\
    f' = if writes env
         then Loaded (JObject (dict_set (filter valid_mode content)
                                 (app_mode st)
                                 (as_json (get_current_model_config st))))
         else f.
Proof.
  unfold save_current_config.
  destruct (load_config f) as [e|[]]; try discriminate.
  intros E. injection E as <-. eauto.
Qed.





End ModelChangeFacts.




(** * Further properties of the code *)

(** ** Cascading deletion and clearing *)

Section CatalogFacts.

Import PyNum VectorService Catalog.

Lemma filter_true {A : Type} (f : A -> bool) (l : list A) :
  (forall x, In x l -> f x = true) -> filter f l = l.
Proof.
  induction l as [|a l IH]; intros H; simpl; [reflexivity|].
  rewrite (H a (or_introl eq_refl)). f_equal. apply IH.
  intros x Hx. apply H. now right.
Qed.

Lemma filter_any (c : collection) : filter any_object c = c.
Proof. apply filter_true. reflexivity. Qed.


Lemma fetch_objects_page dl limit offset c :
  (0 <= limit)%Z -> (0 <= offset)%Z ->
  fetch_objects dl any_object (Some limit) offset c
  = firstn (Z.to_nat limit) (skipn (Z.to_nat offset) c).
Proof. intros _ _. unfold fetch_objects. now rewrite filter_any. Qed.




Lemma delete_prefix (n : nat) (c : collection) :
  distinct_uuids c ->
  fold_left (fun c o => delete_by_id c (uuid o)) (firstn n c) c = skipn n c.
Proof.
  unfold distinct_uuids. revert n. induction c as [|x c IH]; intros n Hnd.
  - destruct n; reflexivity.
  - destruct n as [|n]; [reflexivity|]. cbn [firstn fold_left skipn].
    inversion Hnd as [|? ? Hx Hnd']; subst.
    assert (E : delete_by_id (x :: c) (uuid x) = c).
    { unfold delete_by_id. simpl. rewrite Nat.eqb_refl. simpl.
      apply filter_true. intros o Ho. apply negb_true_iff.
      apply Nat.eqb_neq. intros E. apply Hx. rewrite <- E. now apply in_map. }
    rewrite E. now apply IH.
Qed.



End CatalogFacts.

Section CascadeFacts.

Import PyNum VectorService Catalog.



End CascadeFacts.



(** X2. Clearing. When every object has its own engine identifier,
    [clear_collection] deletes the objects the engine lists for a limit of
    10000, the first 10000 of the collection, and returns their number: a
    collection of at most 10000 objects is empty afterwards and its size is
    returned, of a larger one the objects beyond the first 10000 remain. *)
Theorem clear_collection_removes_fetched :
  forall (default_limit : nat) (c : VectorService.collection),
    Catalog.distinct_uuids c ->
    Catalog.clear_collection default_limit c
    = (Nat.min (Z.to_nat 10000) (List.length c), skipn (Z.to_nat 10000) c) /\
    ((Z.of_nat (List.length c) <= 10000)%Z ->
     Catalog.clear_collection default_limit c = (List.length c, [])).
Proof.
  intros dl c Hnd.
  assert (E : Catalog.clear_collection dl c
              = (Nat.min (Z.to_nat 10000) (List.length c),
                 skipn (Z.to_nat 10000) c)).
  { unfold Catalog.clear_collection.
    rewrite fetch_objects_page by lia.
    change (Z.to_nat 0) with 0%nat.
    cbn [skipn]. rewrite length_firstn. f_equal. now apply delete_prefix. }
  split; [exact E|]. intros Hlen. rewrite E.
  rewrite Nat.min_r by lia. rewrite skipn_all2 by lia. reflexivity.
Qed.

(** Two objects: both are deleted, 2 is returned. *)
Lemma clear_collection_removes_fetched_witness :
  let obj n id :=
    {| VectorService.uuid := n;
       VectorService.props :=
         {| VectorService.p_image_id := id;
            VectorService.p_object_id := "X";
            VectorService.p_img_url := "";
            VectorService.p_img_object_url := "";
            VectorService.p_custom_data := "{}";
            VectorService.p_created_at := "";
            VectorService.p_face := None |};
       VectorService.vector := [VectorService.FNum 1] |} in
  let c := [obj 1%nat "a"; obj 2%nat "b"]%string in
  Catalog.clear_collection 25 c = (2%nat, []).
Proof.
  intros obj c.
  destruct (@clear_collection_removes_fetched 25 c) as (_ & H).
  - unfold Catalog.distinct_uuids. simpl.
    repeat constructor; simpl; intuition discriminate.
  - apply H. simpl. lia.
Defined.

(** ** Listing and pagination *)

Section ListingFacts.

Import PyNum VectorService Catalog.

Lemma py_slice_window {A : Type} (l : list A) (a b : Z) :
  (0 <= a)%Z -> (0 <= b)%Z ->
  let '(lo, hi) := py_slice (Z.of_nat (List.length l)) a (a + b) in
  firstn (Z.to_nat (hi - lo)) (skipn (Z.to_nat lo) l)
  = firstn (Z.to_nat b) (skipn (Z.to_nat a) l).
Proof.
  intros Ha Hb. unfold py_slice.
  destruct (Z.ltb_spec a 0); [lia|]. destruct (Z.ltb_spec (a + b) 0); [lia|].
  set (n := Z.of_nat (List.length l)).
  destruct (Z.le_gt_cases a n) as [Hle|Hgt].
  - rewrite (Z.min_l a n) by assumption.
    destruct (Z.le_gt_cases (a + b) n) as [Hle'|Hgt'].
    + rewrite Z.min_l by assumption. f_equal. f_equal. lia.
    + rewrite Z.min_r by lia.
      rewrite !firstn_all2; [reflexivity| |]; rewrite length_skipn; lia.
  - rewrite (Z.min_r a n), Z.min_r by lia.
    rewrite !skipn_all2 by lia. now rewrite !firstn_nil.
Qed.

Lemma window_of_prefix {A : Type} (l : list A) (a b : nat) :
  firstn b (skipn a (firstn (b + a) l)) = firstn b (skipn a l).
Proof.
  rewrite skipn_firstn_comm. replace (b + a - a)%nat with b by lia.
  rewrite firstn_firstn. now rewrite Nat.min_id.
Qed.

Lemma list_page_value dl json cl limit offset c :
  has_query cl || has_collections cl = true ->
  (0 <= limit)%Z -> (0 <= offset)%Z ->
  list_page dl json cl limit offset c
  = (map (to_listed json)
         (firstn (Z.to_nat limit) (skipn (Z.to_nat offset) c)),
     (Z.of_nat (List.length
                  (firstn (Z.to_nat limit) (skipn (Z.to_nat offset) c)))
      + offset)%Z).
Proof.
  intros Hcl Hl Ho. unfold list_page.
  destruct (has_query cl) eqn:Hq.
  - rewrite fetch_objects_page by lia.
    change (Z.to_nat 0) with 0%nat. cbn [skipn].
    pose proof (py_slice_window (firstn (Z.to_nat (limit + offset)) c) Ho Hl)
      as Hw.
    destruct (py_slice _ offset (offset + limit)) as [lo hi].
    rewrite Hw. replace (Z.to_nat (limit + offset))
      with (Z.to_nat limit + Z.to_nat offset)%nat by lia.
    rewrite window_of_prefix. reflexivity.
  - simpl in Hcl. rewrite Hcl. rewrite fetch_objects_page by lia.
    now rewrite length_map.
Qed.

Lemma firstn_split {A : Type} (a b : nat) (l : list A) :
  (firstn a l ++ firstn b (skipn a l))%list = firstn (a + b) l.
Proof.
  revert l. induction a as [|a IH]; intros l; [reflexivity|].
  destruct l as [|x l]; simpl; [now rewrite firstn_nil|].
  f_equal. apply IH.
Qed.

Lemma page_items dl json cl limit offset c :
  has_query cl || has_collections cl = true ->
  (0 <= limit)%Z -> (0 <= offset)%Z ->
  fst (list_page dl json cl limit offset c)
  = map (to_listed json)
        (firstn (Z.to_nat limit) (skipn (Z.to_nat offset) c)).
Proof. intros Hcl Hl Ho. now rewrite list_page_value. Qed.

Lemma list_page_unknown dl json cl limit offset c :
  has_query cl || has_collections cl = false ->
  list_page dl json cl limit offset c = ([], 0%Z).
Proof.
  intros H. apply orb_false_iff in H as [H1 H2].
  unfold list_page. now rewrite H1, H2.
Qed.

End ListingFacts.

(** X3. Paged listing. For a non-negative [limit] and [offset], the legacy
    branch (fetch [limit + offset], then slice) and the v4 branch (fetch
    with offset) of [list_images] return the same dictionary: the items are
    the [limit] objects that follow the first [offset] of the collection,
    [total] is [offset] plus the number of items, and [has_more] tells
    whether the page is full. *)
Theorem list_images_page :
  forall (default_limit : nat) (json : VectorService.json_codec)
         (cl : VectorService.client) (limit offset : Z)
         (c : VectorService.collection),
    VectorService.has_query cl || VectorService.has_collections cl = true ->
    (0 <= limit)%Z -> (0 <= offset)%Z ->
    let page :=
      map (Catalog.to_listed json)
          (firstn (Z.to_nat limit) (skipn (Z.to_nat offset) c)) in
    Catalog.list_images default_limit json cl limit offset c
    = [("items", Catalog.PList page);
       ("total", Catalog.PInt (Z.of_nat (List.length page) + offset));
       ("limit", Catalog.PInt limit);
       ("offset", Catalog.PInt offset);
       ("has_more",
        Catalog.PBool (Z.of_nat (List.length page) =? limit)%Z)]%string.
Proof.
  intros dl json cl limit offset c Hcl Hl Ho page.
  unfold Catalog.list_images.
  rewrite (@list_page_value dl json cl limit offset c Hcl Hl Ho).
  unfold page. rewrite !length_map. reflexivity.
Qed.

(** Five objects listed two by two from the third on, by either API. *)
Lemma list_images_page_witness :
  let json := {| VectorService.dumps := fun _ => "{}"%string;
                 VectorService.loads := fun _ => None |} in
  let obj n id :=
    {| VectorService.uuid := n;
       VectorService.props :=
         {| VectorService.p_image_id := id;
            VectorService.p_object_id := "X";
            VectorService.p_img_url := "";
            VectorService.p_img_object_url := "";
            VectorService.p_custom_data := "";
            VectorService.p_created_at := "";
            VectorService.p_face := None |};
       VectorService.vector := [VectorService.FNum 1] |} in
  let c := [obj 1%nat "a"; obj 2%nat "b"; obj 3%nat "c"; obj 4%nat "d";
            obj 5%nat "e"]%string in
  Catalog.list_images 25 json VectorService.legacy_client 2%Z 2%Z c
  = Catalog.list_images 25 json VectorService.v4_client 2%Z 2%Z c /\
  Api.get_list
    (Catalog.list_images 25 json VectorService.legacy_client 2%Z 2%Z c)
    "items"
  = map (Catalog.to_listed json) [obj 3%nat "c"; obj 4%nat "d"]%string.
Proof.
  intros json obj c. split.
  - rewrite (@list_images_page 25 json VectorService.legacy_client
               2%Z 2%Z c eq_refl) by lia.
    rewrite (@list_images_page 25 json VectorService.v4_client
               2%Z 2%Z c eq_refl) by lia.
    reflexivity.
  - reflexivity.
Defined.

(** X4. Pages compose. With a non-negative offset and page sizes, a page of
    [l1] items followed by the page of [l2] items that starts where it ends
    is the page of [l1 + l2] items; a page holds at most [limit] items, and
    when it holds fewer (so that [has_more] is false) every later page is
    empty. *)
Theorem list_pages_compose :
  forall (default_limit : nat) (json : VectorService.json_codec)
         (cl : VectorService.client) (offset l1 l2 : Z)
         (c : VectorService.collection),
    VectorService.has_query cl || VectorService.has_collections cl = true ->
    (0 <= offset)%Z -> (0 <= l1)%Z -> (0 <= l2)%Z ->
    let page limit offset :=
      fst (Catalog.list_page default_limit json cl limit offset c) in
    (page l1 offset ++ page l2 (offset + l1)%Z)%list
      = page (l1 + l2)%Z offset /\
    (Z.of_nat (List.length (page l1 offset)) <= l1)%Z /\
    (Z.of_nat (List.length (page l1 offset)) <> l1 ->
     page l2 (offset + l1)%Z = []).
Proof.
  intros dl json cl offset l1 l2 c Hcl Ho H1 H2 page. unfold page.
  rewrite !page_items by (assumption || lia).
  replace (Z.to_nat (offset + l1)) with (Z.to_nat l1 + Z.to_nat offset)%nat
    by lia.
  replace (Z.to_nat (l1 + l2)) with (Z.to_nat l1 + Z.to_nat l2)%nat by lia.
  rewrite <- skipn_skipn. repeat split.
  - rewrite <- map_app. f_equal. apply firstn_split.
  - rewrite length_map, length_firstn. lia.
  - rewrite length_map, length_firstn. intros Hshort.
    rewrite skipn_all2; [now rewrite firstn_nil|]. lia.
Qed.

(** Five objects: pages [0,2) and [2,4) make the page [0,4); the page of
    two from the fourth on holds one item, and the next page is empty. *)
Lemma list_pages_compose_witness :
  let json := {| VectorService.dumps := fun _ => "{}"%string;
                 VectorService.loads := fun _ => None |} in
  let obj n id :=
    {| VectorService.uuid := n;
       VectorService.props :=
         {| VectorService.p_image_id := id;
            VectorService.p_object_id := "X";
            VectorService.p_img_url := "";
            VectorService.p_img_object_url := "";
            VectorService.p_custom_data := "";
            VectorService.p_created_at := "";
            VectorService.p_face := None |};
       VectorService.vector := [VectorService.FNum 1] |} in
  let c := [obj 1%nat "a"; obj 2%nat "b"; obj 3%nat "c"; obj 4%nat "d";
            obj 5%nat "e"]%string in
  let page limit offset :=
    fst (Catalog.list_page 25 json VectorService.v4_client limit offset c) in
  (page 2%Z 0%Z ++ page 2%Z 2%Z)%list = page 4%Z 0%Z /\
  page 2%Z 6%Z = [].
Proof.
  intros json obj c page. split.
  - apply (@list_pages_compose 25 json VectorService.v4_client
             0%Z 2%Z 2%Z c eq_refl); lia.
  - destruct (@list_pages_compose 25 json VectorService.v4_client
                4%Z 2%Z 2%Z c eq_refl) as (_ & _ & H); try lia.
    apply H. vm_compute. discriminate.
Defined.

(** X5. The list endpoints read the key ["images"] from a dictionary that
    holds the page under ["items"]: whatever the collection, the client and
    the paging, the [data] of their response is empty.  The [total] of the
    dictionary is passed on, so that for a non-negative offset [has_more]
    is true exactly when the page that was dropped held an item. *)
Theorem list_endpoint_data_is_empty :
  forall (default_limit : nat) (json : VectorService.json_codec)
         (cl : VectorService.client) (limit offset : Z)
         (c : VectorService.collection),
    let response := Api.list_endpoint default_limit json cl limit offset c in
    let page :=
      fst (Catalog.list_page default_limit json cl limit offset c) in
    Api.data response = [] /\
    Api.pg_total response
      = snd (Catalog.list_page default_limit json cl limit offset c) /\
    ((0 <= offset)%Z ->
     (Api.pg_has_more response = true <-> page <> [])).
Proof.
  intros dl json cl limit offset c response page.
  unfold response, page, Api.list_endpoint, Catalog.list_images.
  destruct (Catalog.list_page dl json cl limit offset c) as [results total]
    eqn:E.
  split; [reflexivity|]. split; [reflexivity|].
  intros Ho. cbn [Api.paginated Api.pg_has_more Api.get_list Api.get_int
                  PyNum.dict_get String.eqb Ascii.eqb Bool.eqb fst
                  List.length].
  change (Api.get_int _ "total") with total.
  assert (Htotal : total = (Z.of_nat (List.length results) + offset)%Z
                   \/ (results = [] /\ total = 0%Z)).
  { unfold Catalog.list_page in E.
    destruct (VectorService.has_query cl).
    - destruct (PyNum.py_slice _ _ _) as [lo hi].
      inversion E; subst. left. now rewrite length_map.
    - destruct (VectorService.has_collections cl).
      + inversion E; subst. now left.
      + inversion E; subst. now right. }
  rewrite Z.ltb_lt. destruct Htotal as [->|[-> ->]].
  - destruct results as [|r rs].
    + split; [simpl; lia|congruence].
    + split; [discriminate|]. intros _.
      change (List.length (@nil Catalog.listed)) with 0%nat.
      rewrite length_cons. lia.
  - simpl. split; [lia|congruence].
Qed.

(** Three objects behind a v4 client, asked for with limit 100: the
    response has no data although the page held three items. *)
Lemma list_endpoint_data_is_empty_witness :
  let json := {| VectorService.dumps := fun _ => "{}"%string;
                 VectorService.loads := fun _ => None |} in
  let obj n id :=
    {| VectorService.uuid := n;
       VectorService.props :=
         {| VectorService.p_image_id := id;
            VectorService.p_object_id := "X";
            VectorService.p_img_url := "";
            VectorService.p_img_object_url := "";
            VectorService.p_custom_data := "";
            VectorService.p_created_at := "";
            VectorService.p_face := None |};
       VectorService.vector := [VectorService.FNum 1] |} in
  let c := [obj 1%nat "a"; obj 2%nat "b"; obj 3%nat "c"]%string in
  let response :=
    Api.list_endpoint 25 json VectorService.v4_client 100%Z 0%Z c in
  Api.data response = [] /\ Api.pg_total response = 3%Z /\
  Api.pg_has_more response = true.
Proof.
  intros json obj c response.
  destruct (@list_endpoint_data_is_empty 25 json VectorService.v4_client
              100%Z 0%Z c) as (Hdata & _ & Hmore).
  split; [exact Hdata|]. split; [reflexivity|].
  apply Hmore; [lia|]. vm_compute. discriminate.
Defined.

(** ** Entity listing and statistics *)

Section CountingFacts.

Import PyNum VectorService Catalog.
Local Open Scope Z_scope.

Lemma ids_seen_snoc recs o :
  ids_seen (recs ++ [o]) =
  let obj_id := p_object_id (props o) in
  if String.eqb obj_id "" then ids_seen recs
  else if existsb (String.eqb obj_id) (ids_seen recs) then ids_seen recs
  else (ids_seen recs ++ [obj_id])%list.
Proof. unfold ids_seen. rewrite fold_left_app. reflexivity. Qed.

Lemma ids_seen_In recs k :
  In k (ids_seen recs) <->
  k <> ""%string /\ exists o, In o recs /\ p_object_id (props o) = k.
Proof.
  induction recs as [|o recs IH] using rev_ind.
  - simpl. split; [intros []|intros (_ & o & [] & _)].
  - rewrite ids_seen_snoc. cbv zeta.
    assert (Hsplit :
      (k <> ""%string /\
       exists o0, In o0 (recs ++ [o]) /\ p_object_id (props o0) = k) <->
      (In k (ids_seen recs) \/
       (k <> ""%string /\ p_object_id (props o) = k))).
    { rewrite IH. split.
      - intros (Hk & o0 & Hin & E).
        apply in_app_or in Hin as [Hin|[<-|[]]]; [left|right]; eauto.
      - intros [(Hk & o0 & Hin & E)|(Hk & E)]; (split; [assumption|]).
        + exists o0. split; [apply in_or_app; now left|assumption].
        + exists o. split; [apply in_or_app; right; now left|assumption]. }
    rewrite Hsplit. clear Hsplit IH.
    destruct (String.eqb_spec (p_object_id (props o)) "") as [E0|N0].
    + split; [now left|]. intros [H|(Hk & E)]; [assumption|congruence].
    + destruct (existsb _ _) eqn:E.
      * apply existsb_eqb_In in E. split; [now left|].
        intros [H|(Hk & <-)]; assumption.
      * rewrite in_app_iff. simpl. split.
        -- intros [H|[<-|[]]]; [now left|right; auto].
        -- intros [H|(Hk & <-)]; [now left|right; now left].
Qed.

Lemma ids_seen_NoDup recs : NoDup (ids_seen recs).
Proof.
  induction recs as [|o recs IH] using rev_ind; [constructor|].
  rewrite ids_seen_snoc. cbv zeta.
  destruct (String.eqb _ ""); [assumption|].
  destruct (existsb _ _) eqn:E; [assumption|].
  apply existsb_eqb_notIn in E.
  apply NoDup_app; [assumption|repeat constructor; intros []|].
  intros a Ha [<-|[]]. contradiction.
Qed.

Lemma count_of_snoc_other recs o k :
  k <> p_object_id (props o) -> count_of (recs ++ [o]) k = count_of recs k.
Proof.
  intros Hne. unfold count_of. rewrite filter_app. simpl.
  replace (has_object_id k o) with false.
  - now rewrite app_nil_r.
  - symmetry. apply String.eqb_neq. auto.
Qed.

Lemma count_of_snoc_same recs o :
  count_of (recs ++ [o]) (p_object_id (props o))
  = count_of recs (p_object_id (props o)) + 1.
Proof.
  unfold count_of. rewrite filter_app. simpl. unfold has_object_id at 2.
  rewrite String.eqb_refl, length_app. simpl. lia.
Qed.

Lemma count_of_unseen recs k :
  k <> ""%string -> ~ In k (ids_seen recs) -> count_of recs k = 0.
Proof.
  intros Hk Hnot. unfold count_of.
  replace (filter (has_object_id k) recs) with (@nil db_object); [reflexivity|].
  symmetry. induction recs as [|o recs IH]; [reflexivity|]. simpl.
  destruct (has_object_id k o) eqn:E.
  - exfalso. apply Hnot. apply ids_seen_In. split; [assumption|].
    exists o. split; [now left|]. now apply String.eqb_eq.
  - apply IH. intros H. apply Hnot. apply ids_seen_In.
    apply ids_seen_In in H as (Hk' & o0 & Hin & E0).
    split; [assumption|]. exists o0. split; [now right|assumption].
Qed.

Lemma count_fold_spec recs :
  fold_left count_object recs [] = tabulate (count_of recs) (ids_seen recs).
Proof.
  induction recs as [|o recs IH] using rev_ind; [reflexivity|].
  rewrite fold_left_app. simpl. rewrite IH. clear IH.
  unfold count_object. rewrite ids_seen_snoc. cbv zeta.
  set (k := p_object_id (props o)).
  destruct (String.eqb_spec k "") as [E0|N0].
  - unfold tabulate. apply map_ext_in. intros a Ha. f_equal.
    symmetry. apply count_of_snoc_other. fold k. rewrite E0.
    apply ids_seen_In in Ha. tauto.
  - rewrite dict_get_tabulate.
    destruct (existsb (String.eqb k) (ids_seen recs)) eqn:E.
    + apply existsb_eqb_In in E.
      replace (count_of recs k + 1) with (count_of (recs ++ [o]) k)
        by apply count_of_snoc_same.
      apply dict_set_tabulate_old; [apply ids_seen_NoDup|assumption|].
      intros k' Hne. now apply count_of_snoc_other.
    + rewrite dict_set_tabulate_new by assumption.
      apply existsb_eqb_notIn in E.
      unfold tabulate. rewrite map_app. simpl. f_equal.
      * apply map_ext_in. intros a Ha. f_equal. symmetry.
        apply count_of_snoc_other. fold k. intros ->. contradiction.
      * do 2 f_equal. unfold k. rewrite count_of_snoc_same. fold k.
        rewrite (count_of_unseen recs N0 E). reflexivity.
Qed.

Lemma insert_by_count_perm x l : Permutation (insert_by_count x l) (x :: l).
Proof.
  induction l as [|h t IH]; simpl; [reflexivity|].
  destruct (snd h >? snd x); [|reflexivity].
  rewrite IH. apply perm_swap.
Qed.

Lemma sort_by_count_perm l : Permutation (sort_by_count l) l.
Proof.
  induction l as [|x l IH]; simpl; [reflexivity|].
  rewrite insert_by_count_perm. now constructor.
Qed.

Lemma insert_by_count_sorted x l :
  StronglySorted counts_before l ->
  StronglySorted counts_before (insert_by_count x l).
Proof.
  induction 1 as [|h t Hs IH Hall]; simpl.
  - repeat constructor.
  - destruct (Z.gtb_spec (snd h) (snd x)) as [Hgt|Hle].
    + constructor; [assumption|].
      apply (@Permutation_Forall _ _ (x :: t)).
      * symmetry. apply insert_by_count_perm.
      * constructor; [unfold counts_before; lia|assumption].
    + constructor; [now constructor|].
      constructor; [exact Hle|].
      eapply Forall_impl; [|exact Hall]. unfold counts_before. intros a Ha. lia.
Qed.

Lemma sort_by_count_sorted l : StronglySorted counts_before (sort_by_count l).
Proof.
  induction l; simpl; [constructor|]. now apply insert_by_count_sorted.
Qed.

Lemma In_tabulate {V : Type} (f : string -> V) ks k v :
  In (k, v) (tabulate f ks) <-> In k ks /\ v = f k.
Proof.
  unfold tabulate. rewrite in_map_iff. split.
  - intros (k' & E & Hin). inversion E; subst. auto.
  - intros [Hin ->]. exists k. auto.
Qed.

Lemma keys_tabulate {V : Type} (f : string -> V) ks :
  map fst (tabulate f ks) = ks.
Proof. unfold tabulate. rewrite map_map. apply map_id. Qed.

Lemma list_objects_perm dl cl c :
  has_query cl || has_collections cl = true ->
  Permutation (list_objects dl cl c)
    (tabulate (count_of (firstn (Z.to_nat 10000) c))
       (ids_seen (firstn (Z.to_nat 10000) c))).
Proof.
  intros Hcl. unfold list_objects. rewrite Hcl.
  rewrite fetch_objects_page by lia.
  change (Z.to_nat 0) with 0%nat. cbn [skipn].
  rewrite count_fold_spec. apply sort_by_count_perm.
Qed.

Lemma ids_seen_le_distinct recs :
  (List.length (ids_seen recs)
   <= distinct_count (map (fun o => p_object_id (props o)) recs))%nat.
Proof.
  unfold distinct_count. apply NoDup_incl_length; [apply ids_seen_NoDup|].
  intros k Hk. apply nodup_In. apply ids_seen_In in Hk as (_ & o & Hin & <-).
  apply in_map_iff. exists o. split; [reflexivity|assumption].
Qed.

Lemma distinct_le_ids_seen recs :
  (distinct_count (map (fun o => p_object_id (props o)) recs)
   <= S (List.length (ids_seen recs)))%nat.
Proof.
  unfold distinct_count.
  change (S (List.length (ids_seen recs)))
    with (List.length (""%string :: ids_seen recs)).
  apply NoDup_incl_length; [apply NoDup_nodup|].
  intros k Hk. apply nodup_In in Hk.
  apply in_map_iff in Hk as (o & <- & Hin).
  destruct (string_dec (p_object_id (props o)) "") as [->|Hne];
    [now left|right].
  apply (proj2 (ids_seen_In recs (p_object_id (props o)))).
  split; [assumption|]. exists o. split; [assumption|reflexivity].
Qed.

Lemma distinct_eq_ids_seen recs :
  (forall o, In o recs -> p_object_id (props o) <> ""%string) ->
  distinct_count (map (fun o => p_object_id (props o)) recs)
  = List.length (ids_seen recs).
Proof.
  intros Hne. apply Nat.le_antisymm; [|apply ids_seen_le_distinct].
  unfold distinct_count. apply NoDup_incl_length; [apply NoDup_nodup|].
  intros k Hk. apply nodup_In in Hk.
  apply in_map_iff in Hk as (o & <- & Hin).
  apply (proj2 (ids_seen_In recs (p_object_id (props o)))).
  split; [now apply Hne|]. exists o. split; [assumption|reflexivity].
Qed.

Lemma distinct_le_length (ids : list string) :
  (distinct_count ids <= List.length ids)%nat.
Proof.
  unfold distinct_count. apply NoDup_incl_length; [apply NoDup_nodup|].
  intros k Hk. now apply nodup_In in Hk.
Qed.

End CountingFacts.

(** X6. Entity listing. [list_objects] lists every non-empty entity id of
    the objects fetched (the first 10000) exactly once, each with the
    number of fetched objects that carry it, which is at least 1; an id
    that no fetched object carries, and the empty id, are never listed; the
    entries are in decreasing order of their count. *)
Theorem list_objects_counts :
  forall (default_limit : nat) (cl : VectorService.client)
         (c : VectorService.collection),
    VectorService.has_query cl || VectorService.has_collections cl = true ->
    let fetched := firstn (Z.to_nat 10000) c in
    let objects := Catalog.list_objects default_limit cl c in
    NoDup (map fst objects) /\
    (forall id n,
       In (id, n) objects <->
       (id <> ""%string /\
        (exists o, In o fetched /\
                   VectorService.p_object_id (VectorService.props o) = id) /\
        n = Catalog.count_of fetched id)) /\
    (forall id n, In (id, n) objects -> (1 <= n)%Z) /\
    StronglySorted Catalog.counts_before objects.
Proof.
  intros dl cl c Hcl fetched objects.
  pose proof (@list_objects_perm dl cl c Hcl) as Hperm.
  fold fetched in Hperm. fold objects in Hperm.
  assert (Hin : forall id n,
             In (id, n) objects <->
             (id <> ""%string /\
              (exists o, In o fetched /\
                 VectorService.p_object_id (VectorService.props o) = id) /\
              n = Catalog.count_of fetched id)).
  { intros id n. split.
    - intros H. apply (Permutation_in _ Hperm) in H.
      apply In_tabulate in H as [Hk ->]. apply ids_seen_In in Hk. tauto.
    - intros (Hne & Hex & ->).
      apply (Permutation_in _ (Permutation_sym Hperm)).
      apply In_tabulate. split; [|reflexivity]. now apply ids_seen_In. }
  split; [|split; [exact Hin|split]].
  - apply (Permutation_NoDup
             (Permutation_map fst (Permutation_sym Hperm))).
    rewrite keys_tabulate. apply ids_seen_NoDup.
  - intros id n H. apply Hin in H as (_ & (o & Ho & E) & ->).
    unfold Catalog.count_of.
    assert (Hf : In o (filter (Catalog.has_object_id id) fetched)).
    { apply filter_In. split; [assumption|]. now apply String.eqb_eq. }
    destruct (filter (Catalog.has_object_id id) fetched); [destruct Hf|].
    rewrite length_cons. lia.
  - apply sort_by_count_sorted.
Qed.

(** Four objects of the entities X, Y, X and of no entity: X is listed
    with 2, then Y with 1. *)
Lemma list_objects_counts_witness :
  let obj n id entity :=
    {| VectorService.uuid := n;
       VectorService.props :=
         {| VectorService.p_image_id := id;
            VectorService.p_object_id := entity;
            VectorService.p_img_url := "";
            VectorService.p_img_object_url := "";
            VectorService.p_custom_data := "";
            VectorService.p_created_at := "";
            VectorService.p_face := None |};
       VectorService.vector := [VectorService.FNum 1] |} in
  let c := [obj 1%nat "a" "Y"; obj 2%nat "b" "X"; obj 3%nat "c" "";
            obj 4%nat "d" "X"]%string in
  let objects := Catalog.list_objects 25 VectorService.v4_client c in
  NoDup (map fst objects) /\
  StronglySorted Catalog.counts_before objects /\
  objects = [("X", 2%Z); ("Y", 1%Z)]%string.
Proof.
  intros obj c objects.
  destruct (@list_objects_counts 25 VectorService.v4_client c eq_refl)
    as (Hnd & _ & _ & Hsorted).
  split; [exact Hnd|]. split; [exact Hsorted|]. reflexivity.
Defined.

(** X7. Statistics. [get_stats] counts the distinct entity ids of the
    fetched objects, the empty id included, while [list_objects] leaves the
    empty id out: the listing has [total_objects] entries or one fewer, and
    exactly [total_objects] when no fetched object has an empty id; there
    are never more entities than images; the legacy branch counts all
    images of the collection, the v4 branch the fetched ones (at most
    10000). *)
Theorem stats_against_listing :
  forall (default_limit : nat) (cl : VectorService.client)
         (response : VectorService.rest_response)
         (c : VectorService.collection),
    VectorService.has_query cl || VectorService.has_collections cl = true ->
    let fetched := firstn (Z.to_nat 10000) c in
    let st := Catalog.get_stats default_limit cl response c in
    let listing := Catalog.list_objects default_limit cl c in
    (Catalog.total_objects st <= Catalog.total_images st)%nat /\
    (List.length listing <= Catalog.total_objects st
     <= S (List.length listing))%nat /\
    ((forall o, In o fetched ->
        VectorService.p_object_id (VectorService.props o) <> ""%string) ->
     Catalog.total_objects st = List.length listing) /\
    Catalog.total_images st
      = (if VectorService.has_query cl then List.length c
         else List.length fetched) /\
    Catalog.vector_dimension st
      = VectorService.get_vector_dimension response.
Proof.
  intros dl cl response c Hcl fetched st listing.
  assert (Hlen : List.length listing
                 = List.length (Catalog.ids_seen fetched)).
  { unfold listing.
    rewrite (Permutation_length (@list_objects_perm dl cl c Hcl)).
    unfold PyNum.tabulate. now rewrite length_map. }
  assert (Hobj : Catalog.total_objects st
                 = Catalog.distinct_count
                     (map (fun o => VectorService.p_object_id
                                      (VectorService.props o)) fetched)
                 /\ Catalog.total_images st
                    = (if VectorService.has_query cl then List.length c
                       else List.length fetched)
                 /\ Catalog.vector_dimension st
                    = VectorService.get_vector_dimension response).
  { unfold st, Catalog.get_stats.
    rewrite fetch_objects_page by lia.
    change (Z.to_nat 0) with 0%nat. cbn [skipn]. fold fetched.
    destruct (VectorService.has_query cl) eqn:Hq; [repeat split|].
    simpl in Hcl. rewrite Hcl. repeat split. }
  destruct Hobj as (Hobj & Himg & Hdim).
  rewrite Hobj, Hlen, Himg.
  split; [|split; [split|split; [|split]]].
  - pose proof (distinct_le_length
                  (map (fun o => VectorService.p_object_id
                                   (VectorService.props o)) fetched)) as H.
    rewrite length_map in H.
    assert (List.length fetched <= List.length c)%nat
      by (unfold fetched; rewrite length_firstn; lia).
    destruct (VectorService.has_query cl); lia.
  - apply ids_seen_le_distinct.
  - apply distinct_le_ids_seen.
  - apply distinct_eq_ids_seen.
  - reflexivity.
  - exact Hdim.
Qed.

(** The four objects above, one of them without an entity: three distinct
    ids among four images, two entries in the listing. *)
Lemma stats_against_listing_witness :
  let obj n id entity :=
    {| VectorService.uuid := n;
       VectorService.props :=
         {| VectorService.p_image_id := id;
            VectorService.p_object_id := entity;
            VectorService.p_img_url := "";
            VectorService.p_img_object_url := "";
            VectorService.p_custom_data := "";
            VectorService.p_created_at := "";
            VectorService.p_face := None |};
       VectorService.vector := [VectorService.FNum 1] |} in
  let c := [obj 1%nat "a" "Y"; obj 2%nat "b" "X"; obj 3%nat "c" "";
            obj 4%nat "d" "X"]%string in
  let st :=
    Catalog.get_stats 25 VectorService.v4_client
      (VectorService.rest_get_objects c) c in
  (Catalog.total_objects st <= Catalog.total_images st)%nat /\
  Catalog.total_objects st = 3%nat /\ Catalog.total_images st = 4%nat /\
  List.length (Catalog.list_objects 25 VectorService.v4_client c) = 2%nat.
Proof.
  intros obj c st.
  destruct (@stats_against_listing 25 VectorService.v4_client
              (VectorService.rest_get_objects c) c eq_refl) as (H & _).
  split; [exact H|]. repeat split.
Defined.

(** ** Inserts, lookups and deletions of one image *)

Section StoreFacts.

Import PyNum VectorService Catalog.

Lemma add_image_success json name response d c id c' :
  add_image json name response d c = (inr id, c') ->
  id = d_image_id d /\
  c' = engine_insert c (data_object json name d) (feature_vector d) /\
  well_formed (feature_vector d) /\
  (forall n, get_vector_dimension response = Some n ->
             n = List.length (feature_vector d)).
Proof.
  unfold add_image, well_formed.
  destruct (feature_vector d) as [|x v] eqn:Ev; [discriminate|].
  destruct (first_invalid 0 (x :: v)) as [[i val]|] eqn:Ei; [discriminate|].
  destruct (get_vector_dimension response) as [db_dim|].
  - destruct (Nat.eqb_spec db_dim (List.length (x :: v))) as [E|N]; simpl.
    + intros H. inversion H; subst. repeat split; try discriminate.
      intros n Hn. now inversion Hn.
    + discriminate.
  - intros H. inversion H; subst. repeat split; discriminate.
Qed.

Lemma find_app {A : Type} (f : A -> bool) (l1 l2 : list A) :
  find f (l1 ++ l2) =
  match find f l1 with
  | Some x => Some x
  | None => find f l2
  end.
Proof.
  induction l1 as [|a l1 IH]; simpl; [reflexivity|].
  destruct (f a); [reflexivity|exact IH].
Qed.

Lemma fetch_after_insert c p v image_id :
  fetch_by_image_id (engine_insert c p v) image_id =
  match fetch_by_image_id c image_id with
  | Some o => Some o
  | None =>
      if String.eqb (p_image_id p) image_id
      then Some {| uuid := fresh_uuid c; props := p; vector := v |}
      else None
  end.
Proof.
  unfold fetch_by_image_id, engine_insert. rewrite find_app. simpl.
  destruct (find _ c); reflexivity.
Qed.

Lemma uuid_below_fresh c o : In o c -> (uuid o < fresh_uuid c)%nat.
Proof.
  unfold fresh_uuid. induction c as [|x c IH]; simpl; [intros []|].
  intros [->|H]; [lia|]. specialize (IH H). lia.
Qed.

Lemma delete_inserted c p v :
  delete_by_id (engine_insert c p v) (fresh_uuid c) = c.
Proof.
  unfold delete_by_id, engine_insert. rewrite filter_app. simpl.
  rewrite Nat.eqb_refl. simpl. rewrite app_nil_r.
  apply filter_true. intros o Ho. apply negb_true_iff. apply Nat.eqb_neq.
  pose proof (uuid_below_fresh c o Ho). lia.
Qed.



End StoreFacts.

(** X8. The dimension invariant. When all stored vectors have one length
    and the insert, with its lookup answered by the engine, succeeds, all
    vectors of the collection still have one length afterwards, the length
    of the inserted vector: the first insert into an empty collection sets
    the dimension and every later successful insert has it. *)
Theorem insert_keeps_one_dimension :
  forall (json : VectorService.json_codec) (collection_name : string)
         (d : VectorService.image_data) (c c' : VectorService.collection)
         (id : string),
    Catalog.uniform_dimension c ->
    VectorService.add_image json collection_name
      (VectorService.rest_get_objects c) d c = (inr id, c') ->
    Catalog.uniform_dimension c' /\
    (forall o, In o c' ->
       List.length (VectorService.vector o)
       = List.length (VectorService.feature_vector d)) /\
    (0 < List.length (VectorService.feature_vector d))%nat.
Proof.
  intros json name d c c' id Huni Hadd.
  apply add_image_success in Hadd as (_ & -> & [Hne _] & Hdim).
  assert (Hall : forall o,
             In o (VectorService.engine_insert c
                     (VectorService.data_object json name d)
                     (VectorService.feature_vector d)) ->
             List.length (VectorService.vector o)
             = List.length (VectorService.feature_vector d)).
  { intros o Ho. unfold VectorService.engine_insert in Ho.
    apply in_app_or in Ho as [Ho|[<-|[]]]; [|reflexivity].
    destruct c as [|o0 c0]; [destruct Ho|].
    rewrite <- (Hdim _ (get_vector_dimension_sampled o0 c0)).
    apply Huni; [assumption|now left]. }
  split; [|split; [exact Hall|]].
  - intros a b Ha Hb. now rewrite (Hall a Ha), (Hall b Hb).
  - destruct (VectorService.feature_vector d); [congruence|simpl; lia].
Qed.

(** Two inserts of 2-vectors, the first into an empty collection. *)
Lemma insert_keeps_one_dimension_witness :
  let json := {| VectorService.dumps := fun _ => "{}"%string;
                 VectorService.loads := fun _ => None |} in
  let d id v :=
    {| VectorService.d_image_id := id; VectorService.d_entity_id := "X";
       VectorService.d_img_url := None;
       VectorService.d_img_object_url := None;
       VectorService.feature_vector := v;
       VectorService.d_custom_data := [];
       VectorService.d_created_at := "";
       VectorService.d_face := None |} in
  let v1 := [VectorService.FNum 1; VectorService.FNum 0] in
  let v2 := [VectorService.FNum 0; VectorService.FNum 1] in
  let c1 := snd (VectorService.add_image json "ObjectData"
                   (VectorService.rest_get_objects []) (d "a"%string v1) []) in
  let c2 := snd (VectorService.add_image json "ObjectData"
                   (VectorService.rest_get_objects c1) (d "b"%string v2) c1) in
  Catalog.uniform_dimension c1 /\ Catalog.uniform_dimension c2 /\
  List.length c2 = 2%nat.
Proof.
  intros json d v1 v2 c1 c2.
  assert (H1 : Catalog.uniform_dimension c1).
  { apply (@insert_keeps_one_dimension json "ObjectData"%string
             (d "a"%string v1) [] c1 "a"%string).
    - intros a b [].
    - reflexivity. }
  split; [exact H1|]. split; [|reflexivity].
  apply (@insert_keeps_one_dimension json "ObjectData"%string
           (d "b"%string v2) c1 c2 "b"%string H1).
  reflexivity.
Defined.

(** X9. Insert, then look up. After a successful insert of a record whose
    [image_id] no stored object carries, [get_by_image_id] of that id
    finds a record with the image id, the entity id, the two URLs ([None]
    as the empty text) and the creation time that were inserted, and,
    with a JSON library that reads back what it writes, the custom data
    that were inserted; every other id is looked up as before, and the
    collection holds one object more. *)
Theorem insert_then_lookup :
  forall (json : VectorService.json_codec) (collection_name : string)
         (response : VectorService.rest_response)
         (cl : VectorService.client)
         (d : VectorService.image_data) (c c' : VectorService.collection)
         (id : string),
    VectorService.has_query cl || VectorService.has_collections cl = true ->
    Catalog.fresh_image_id c (VectorService.d_image_id d) ->
    VectorService.add_image json collection_name response d c
      = (inr id, c') ->
    id = VectorService.d_image_id d /\
    (exists r,
       VectorService.get_by_image_id json collection_name cl c' id
         = Some r /\
       VectorService.rec_image_id r = id /\
       VectorService.rec_object_id r = VectorService.d_entity_id d /\
       VectorService.rec_img_url r
         = VectorService.or_empty (VectorService.d_img_url d) /\
       VectorService.rec_img_object_url r
         = VectorService.or_empty (VectorService.d_img_object_url d) /\
       VectorService.rec_created_at r = VectorService.d_created_at d /\
       (VectorService.round_trips json ->
        VectorService.rec_custom_data r
          = inr (VectorService.d_custom_data d))) /\
    (forall other, other <> id ->
       VectorService.get_by_image_id json collection_name cl c' other
       = VectorService.get_by_image_id json collection_name cl c other) /\
    List.length c' = S (List.length c).
Proof.
  intros json name response cl d c c' id Hcl Hfresh Hadd.
  apply add_image_success in Hadd as (-> & -> & _ & _).
  split; [reflexivity|].
  unfold VectorService.get_by_image_id. rewrite Hcl. repeat split.
  - rewrite fetch_after_insert.
    rewrite (fetch_by_image_id_missing c Hfresh).
    unfold VectorService.data_object at 1. cbn [VectorService.p_image_id].
    rewrite String.eqb_refl.
    eexists. split; [reflexivity|]. cbn.
    repeat split.
    intros [Hempty Hrt].
    destruct (VectorService.d_custom_data d) as [|kv cd] eqn:Ed.
    + cbn. now rewrite Hempty.
    + destruct (Hrt (kv :: cd)) as [Hne Hload]; [discriminate|].
      rewrite (proj2 (String.eqb_neq _ _) Hne). now rewrite Hload.
  - intros other Hother. rewrite fetch_after_insert.
    destruct (VectorService.fetch_by_image_id c other); [reflexivity|].
    unfold VectorService.data_object at 1. cbn [VectorService.p_image_id].
    replace (String.eqb (VectorService.d_image_id d) other) with false;
      [reflexivity|].
    symmetry. apply String.eqb_neq. congruence.
  - unfold VectorService.engine_insert. rewrite length_app. simpl. lia.
Qed.

(** A record img-1 with custom data inserted into an empty collection
    and looked up; the JSON library writes an object as the text of its
    first value and reads a text back as that one value. *)
Lemma insert_then_lookup_witness :
  let json :=
    {| VectorService.dumps :=
         fun c => match c with
                  | (_, v) :: _ => ("{" ++ v ++ "}")%string
                  | [] => "{}"%string
                  end;
       VectorService.loads :=
         fun s => if String.eqb s "{}" then Some []
                  else Some [("k", "v")]%string |} in
  let d :=
    {| VectorService.d_image_id := "img-1";
       VectorService.d_entity_id := "X";
       VectorService.d_img_url := Some "/images/upload/X/img-1/img-1.jpg"%string;
       VectorService.d_img_object_url := None;
       VectorService.feature_vector := [VectorService.FNum 1];
       VectorService.d_custom_data := [("k", "v")]%string;
       VectorService.d_created_at := "t0";
       VectorService.d_face := None |} in
  let c' := snd (VectorService.add_image json "ObjectData"
                   (VectorService.rest_get_objects []) d []) in
  exists r,
    VectorService.get_by_image_id json "ObjectData"
      VectorService.v4_client c' "img-1" = Some r /\
    VectorService.rec_img_url r = "/images/upload/X/img-1/img-1.jpg"%string /\
    VectorService.rec_img_object_url r = ""%string /\
    VectorService.rec_custom_data r = inr [("k", "v")]%string.
Proof.
  intros json d c'.
  destruct (@insert_then_lookup json "ObjectData"%string
              (VectorService.rest_get_objects []) VectorService.v4_client
              d [] c' "img-1"%string eq_refl)
    as (_ & (r & Hr & _ & _ & Hu & Ho & _ & _) & _ & _).
  - intros o [].
  - reflexivity.
  - exists r. split; [exact Hr|]. split; [exact Hu|]. split; [exact Ho|].
    vm_compute in Hr. inversion Hr. reflexivity.
Defined.





(** ** Files on disk *)

Section FileFacts.

Import PyNum PyPath VectorService Registration.
Local Open Scope string_scope.

Lemma substring_whole (s : string) : substring 0 (String.length s) s = s.
Proof. induction s as [|a s IH]; simpl; [reflexivity|now rewrite IH]. Qed.

Lemma prefix_append (s r : string) : prefix s (s ++ r) = true.
Proof.
  induction s as [|a s IH]; simpl; [now destruct r|].
  destruct (ascii_dec a a); [exact IH|congruence].
Qed.

Lemma substring_append (s r : string) :
  substring (String.length s)
            (String.length (s ++ r) - String.length s) (s ++ r) = r.
Proof.
  induction s as [|a s IH]; simpl.
  - now rewrite Nat.sub_0_r, substring_whole.
  - exact IH.
Qed.

(** *** URLs and paths *)

Lemma path_of_images_url rest :
  _url_to_path ("/images/" ++ rest) = Some (str (Path ("data/" ++ rest))).
Proof.
  unfold _url_to_path. rewrite prefix_append.
  change (String.eqb ("/images/" ++ rest) "") with false. cbv iota.
  do 4 f_equal. exact (substring_append "/images/" rest).
Qed.

Lemma data_join rest :
  "data/" ++ join_slash rest
  = match rest with
    | [] => "data/"
    | _ => join_slash ("data" :: rest)
    end.
Proof. destruct rest; reflexivity. Qed.

Lemma Path_data_join rest :
  forallb clean rest = true ->
  Path ("data/" ++ join_slash rest)
  = {| root := ""; parts := "data" :: rest |}.
Proof.
  intros H. rewrite data_join. destruct rest as [|x rest]; [reflexivity|].
  apply Path_join.
  change (forallb clean ("data" :: x :: rest))
    with (clean "data" && forallb clean (x :: rest)).
  now rewrite H.
Qed.

(** The URL below [/images/] of the components [rest] is mapped to the
    path [data/rest]. *)
Lemma url_to_path_join x rest :
  forallb clean (x :: rest) = true ->
  _url_to_path ("/images/" ++ join_slash (x :: rest))
  = Some (join_slash ("data" :: x :: rest)).
Proof.
  intros H. rewrite path_of_images_url, (Path_data_join _ H). reflexivity.
Qed.

(** What [get_image_url] gives for a path read as [data/dir/rest], [dir]
    being [upload] or [temp]. *)
Lemma get_image_url_below dir rest s :
  dir = "upload" \/ dir = "temp" ->
  Path s = {| root := ""; parts := "data" :: dir :: rest |} ->
  get_image_url s = "/images/" ++ join_slash (dir :: rest).
Proof.
  intros Hdir E. unfold get_image_url. rewrite E.
  destruct Hdir as [-> | ->]; reflexivity.
Qed.

Lemma relative_split s dirpath x :
  parts dirpath = ["data"; x] -> root dirpath = "" ->
  is_relative_to (Path s) dirpath = true ->
  exists rest,
    forallb clean rest = true /\
    Path s = {| root := ""; parts := "data" :: x :: rest |}.
Proof.
  intros Hparts Hroot H. unfold is_relative_to in H.
  rewrite Hparts, Hroot in H. apply andb_true_iff in H as [Hr Hs].
  apply String.eqb_eq in Hr. apply starts_with_split in Hs.
  cbn [List.length skipn app] in Hs.
  exists (skipn 2 (parts (Path s))). split.
  - pose proof (parts_clean s) as Hc. change (filter is_part (split_slash s))
      with (parts (Path s)) in Hc. rewrite Hs in Hc.
    cbn [forallb] in Hc. apply andb_true_iff in Hc as [_ Hc].
    apply andb_true_iff in Hc as [_ Hc]. exact Hc.
  - destruct (Path s) as [r ps]. cbn in *. subst r. now rewrite Hs at 1.
Qed.

Lemma clean_of_parts s x rest :
  Path s = {| root := ""; parts := "data" :: x :: rest |} ->
  forallb clean (x :: rest) = true.
Proof.
  intros E. pose proof (parts_clean s) as Hc.
  change (filter is_part (split_slash s)) with (parts (Path s)) in Hc.
  rewrite E in Hc. cbn [parts forallb] in Hc.
  apply andb_true_iff in Hc as [_ Hc]. exact Hc.
Qed.

Lemma round_trip_below dir rest s :
  dir = "upload" \/ dir = "temp" ->
  Path s = {| root := ""; parts := "data" :: dir :: rest |} ->
  _url_to_path (get_image_url s) = Some (str (Path s)).
Proof.
  intros Hdir E. rewrite (get_image_url_below Hdir E).
  rewrite url_to_path_join by exact (clean_of_parts E).
  now rewrite E.
Qed.

(** *** The files of a registration *)

Lemma clean_single c :
  clean c = true ->
  filter is_part (split_slash c) = [c] /\ leading_slashes c = 0%nat.
Proof.
  intros H. pose proof H as H'. unfold clean in H'.
  apply andb_true_iff in H' as [Hp Hn]. split.
  - rewrite (split_no_slash c Hn). cbn [filter]. now rewrite Hp.
  - rewrite <- (leading_slashes_clean c "" H). f_equal.
    clear. induction c; simpl; [reflexivity|now f_equal].
Qed.

Lemma no_slash_app a b : no_slash (a ++ b) = no_slash a && no_slash b.
Proof.
  induction a as [|c a IH]; simpl; [reflexivity|].
  now rewrite IH, andb_assoc.
Qed.

Lemma clean_suffix i x :
  clean i = true -> no_slash x = true -> x <> "" -> clean (i ++ x) = true.
Proof.
  unfold clean, is_part. intros H Hx Hne.
  apply andb_true_iff in H as [Hp Hn]. rewrite no_slash_app, Hn, Hx.
  destruct i as [|a i]; [discriminate|].
  destruct i as [|b i]; [destruct x as [|b x]; [congruence|]|];
    cbn [append String.eqb]; destruct (Ascii.eqb a "."); reflexivity.
Qed.

(** The path [upload_path / e / i / f] for an [e] that is not absolute
    and components [i], [f]. *)
Lemma registered_path e i f :
  relative e = true -> clean i = true -> clean f = true ->
  joinpath (image_dir e i) f
  = {| root := "";
       parts := "data" :: "upload"
                :: (filter is_part (split_slash e) ++ [i; f])%list |}.
Proof.
  intros He Hi Hf. unfold image_dir, joinpath, relative in *.
  apply Nat.eqb_eq in He. rewrite He.
  destruct (clean_single i Hi) as [Ei Li]. rewrite Li, Ei.
  destruct (clean_single f Hf) as [Ef Lf]. rewrite Lf, Ef.
  cbn [root parts upload_path Path]. f_equal.
  change (filter is_part (split_slash "data/upload"))
    with ["data"; "upload"]. cbn [app].
  now rewrite <- !app_assoc.
Qed.

Lemma registered_clean e i f :
  clean i = true -> clean f = true ->
  forallb clean ("upload" :: (filter is_part (split_slash e) ++ [i; f])%list)
  = true.
Proof.
  intros Hi Hf. cbn [forallb]. rewrite forallb_app, (parts_clean e).
  cbn [forallb]. now rewrite Hi, Hf.
Qed.

Section OneFile.

Variables (e i x : string).
Hypothesis He : relative e = true.
Hypothesis Hi : plain i = true.
Hypothesis Hx : no_slash x = true.
Hypothesis Hne : x <> "".

Let file : string := str (joinpath (image_dir e i) (i ++ x)).

Lemma registered_file_path :
  Path file
  = {| root := "";
       parts := "data" :: "upload"
                :: (filter is_part (split_slash e) ++ [i; (i ++ x)%string])%list |}.
Proof.
  unfold file. rewrite (@registered_path e i (i ++ x) He Hi (@clean_suffix i x Hi Hx Hne)).
  cbn [str root parts]. apply Path_join.
  change (forallb clean
            ("data" :: "upload"
             :: (filter is_part (split_slash e) ++ [i; (i ++ x)%string])%list))
    with (forallb clean
            ("upload"
             :: (filter is_part (split_slash e) ++ [i; (i ++ x)%string])%list)).
  exact (@registered_clean e i (i ++ x) Hi (@clean_suffix i x Hi Hx Hne)).
Qed.

Lemma registered_file_str : str (Path file) = file.
Proof.
  rewrite registered_file_path. unfold file.
  now rewrite (@registered_path e i (i ++ x) He Hi (@clean_suffix i x Hi Hx Hne)).
Qed.

Lemma registered_file_round_trip :
  _url_to_path (get_image_url file) = Some file.
Proof.
  rewrite (@round_trip_below "upload" _ file (or_introl eq_refl)
             registered_file_path).
  now rewrite registered_file_str.
Qed.

End OneFile.

Lemma append_inj_l (a x y : string) : a ++ x = a ++ y -> x = y.
Proof.
  induction a as [|c a IH]; simpl; [auto|].
  intros H. inversion H. auto.
Qed.

Lemma join_last_inj pre a b :
  join_slash (pre ++ [a]) = join_slash (pre ++ [b]) -> a = b.
Proof.
  induction pre as [|p pre IH]; simpl; [auto|].
  destruct pre as [|q pre]; cbn [app] in *.
  - intros H. apply append_inj_l in H. now inversion H.
  - intros H. apply append_inj_l in H. inversion H as [H']. now apply IH.
Qed.

Lemma original_not_object e i :
  relative e = true -> plain i = true ->
  original_file e i <> object_file e i.
Proof.
  intros He Hi H. unfold original_file, object_file in H.
  rewrite (@registered_path e i (i ++ ".jpg") He Hi
             (@clean_suffix i ".jpg" Hi eq_refl ltac:(discriminate))) in H.
  rewrite (@registered_path e i (i ++ "_object.png") He Hi
             (@clean_suffix i "_object.png" Hi eq_refl ltac:(discriminate)))
    in H.
  cbn [str root parts append] in H.
  assert (A : forall f,
            ("data" :: "upload"
             :: (filter is_part (split_slash e) ++ [i; f]))%list
            = (("data" :: "upload" :: filter is_part (split_slash e) ++ [i])
               ++ [f])%list).
  { intros f. cbn [app]. do 2 f_equal. now rewrite <- app_assoc. }
  rewrite !A in H. apply join_last_inj in H.
  apply append_inj_l in H. discriminate H.
Qed.

(** *** Deleting files *)

Lemma same_file_refl fs p : same_file fs p p = true.
Proof. unfold same_file. now rewrite String.eqb_refl. Qed.

Lemma delete_one_file_value url fs :
  delete_one_file url fs = fs \/
  exists q, _url_to_path (or_empty url) = Some q /\
            existsb (same_file fs q) (undeletable fs) = false /\
            delete_one_file url fs
            = {| files := filter (fun f => negb (same_file fs q f))
                            (files fs);
                 undeletable := undeletable fs;
                 alias := alias fs |}.
Proof.
  unfold delete_one_file. destruct (truthy url); [|now left].
  destruct (_url_to_path (or_empty url)) as [q|]; [|now left].
  destruct (path_exists fs q); [|now left].
  unfold unlink. destruct (existsb (same_file fs q) (undeletable fs)) eqn:E;
    [now left|right].
  exists q. split; [reflexivity|split; [exact E|reflexivity]].
Qed.

Lemma delete_one_file_frame url fs :
  undeletable (delete_one_file url fs) = undeletable fs /\
  alias (delete_one_file url fs) = alias fs.
Proof.
  destruct (delete_one_file_value url fs) as [->|(q & _ & _ & ->)];
    split; reflexivity.
Qed.

Lemma delete_one_file_keeps url fs f :
  In f (files fs) ->
  (forall q, _url_to_path (or_empty url) = Some q ->
     same_file fs q f = false \/
     existsb (same_file fs q) (undeletable fs) = true) ->
  In f (files (delete_one_file url fs)).
Proof.
  intros Hin Hkeep.
  destruct (delete_one_file_value url fs) as [->|(q & Eq & Hq & ->)];
    [assumption|].
  cbn [files]. apply filter_In. split; [assumption|].
  destruct (Hkeep q Eq) as [H|H]; [now rewrite H|congruence].
Qed.

Lemma delete_one_file_incl url fs :
  incl (files (delete_one_file url fs)) (files fs).
Proof.
  destruct (delete_one_file_value url fs) as [->|(q & _ & _ & ->)];
    [apply incl_refl|].
  intros p Hp. now apply filter_In in Hp.
Qed.

Lemma same_file_frame fs fs' q f :
  alias fs' = alias fs -> same_file fs' q f = same_file fs q f.
Proof. unfold same_file. now intros ->. Qed.

Lemma existsb_same {A : Type} (f g : A -> bool) (l : list A) :
  (forall x, f x = g x) -> existsb f l = existsb g l.
Proof.
  intros H. induction l as [|a l IH]; simpl; [reflexivity|].
  now rewrite H, IH.
Qed.

Lemma write_file_new p fs :
  ~ In p fs -> write_file p fs = (fs ++ [p])%list.
Proof.
  intros H. unfold write_file.
  now rewrite (proj2 (existsb_eqb_notIn p fs) H).
Qed.

Lemma url_nonempty p : truthy (Some (get_image_url p)) = true.
Proof. reflexivity. Qed.

(** Deleting, through the URL that maps to it, a file that is on disk and
    can be unlinked. *)
Lemma delete_one_file_written url q fs :
  truthy (Some url) = true ->
  _url_to_path url = Some q ->
  In q (files fs) ->
  existsb (same_file fs q) (undeletable fs) = false ->
  delete_one_file (Some url) fs
  = {| files := filter (fun f => negb (same_file fs q f)) (files fs);
       undeletable := undeletable fs;
       alias := alias fs |}.
Proof.
  intros Ht Eq Hin Hun. unfold delete_one_file.
  rewrite Ht. cbn [or_empty]. rewrite Eq.
  unfold path_exists, unlink.
  replace (existsb (same_file fs q) (files fs)) with true.
  - now rewrite Hun.
  - symmetry. apply existsb_exists. exists q.
    split; [assumption|apply same_file_refl].
Qed.

Lemma filter_other (fs : filesystem) q l :
  (forall f, In f l -> same_file fs q f = false) ->
  filter (fun f => negb (same_file fs q f)) l = l.
Proof.
  intros H. apply filter_true. intros f Hf. now rewrite (H f Hf).
Qed.

(** The files of a registration, deleted through the URLs the
    registration stored: the disk is as it was. *)
Lemma delete_registered_files (orig obj : string) (processed : bool)
    disk0 undel al :
  let fs0 := {| files := disk0; undeletable := undel; alias := al |} in
  _url_to_path (get_image_url orig) = Some orig ->
  _url_to_path (get_image_url obj) = Some obj ->
  orig <> obj ->
  (forall f, In f disk0 ->
     same_file fs0 orig f = false /\ same_file fs0 obj f = false) ->
  al orig obj = false -> al obj orig = false ->
  existsb (same_file fs0 orig) undel = false ->
  existsb (same_file fs0 obj) undel = false ->
  _delete_physical_files
    (Some (or_empty (Some (get_image_url orig))))
    (Some (or_empty (if processed
                     then Some (get_image_url obj)
                     else None)))
    {| files := if processed
                then write_file obj (write_file orig disk0)
                else write_file orig disk0;
       undeletable := undel;
       alias := al |}
  = fs0.
Proof.
  intros fs0 Eo Ep Hne Hdisk Hao Hap Uo Up.
  assert (No : ~ In orig disk0).
  { intros H. destruct (Hdisk _ H) as [K _].
    now rewrite same_file_refl in K. }
  assert (Np : ~ In obj disk0).
  { intros H. destruct (Hdisk _ H) as [_ K].
    now rewrite same_file_refl in K. }
  assert (Soo : forall fl ud,
            same_file {| files := fl; undeletable := ud; alias := al |}
              orig obj = false).
  { intros fl ud. unfold same_file. cbn [alias]. rewrite Hao.
    now rewrite (proj2 (String.eqb_neq _ _) Hne). }
  rewrite (write_file_new _ _ No).
  unfold _delete_physical_files.
  destruct processed; cbn [or_empty].
  - rewrite write_file_new
      by (intros H; apply in_app_or in H as [H|[H|[]]]; auto).
    rewrite (@delete_one_file_written _ orig _ (url_nonempty orig) Eo);
      cbn [files undeletable alias];
      [|apply in_or_app; left; apply in_or_app; right; now left
       |exact Uo].
    rewrite !filter_app. cbn [filter].
    rewrite same_file_refl. rewrite Soo. cbn [negb app].
    rewrite (@filter_other _ orig disk0)
      by (intros f Hf; exact (proj1 (Hdisk f Hf))).
    rewrite app_nil_r.
    rewrite (@delete_one_file_written _ obj _ (url_nonempty obj) Ep);
      cbn [files undeletable alias];
      [|apply in_or_app; right; now left
       |exact Up].
    rewrite filter_app. cbn [filter]. rewrite same_file_refl.
    cbn [negb]. rewrite (@filter_other _ obj disk0)
      by (intros f Hf; exact (proj2 (Hdisk f Hf))).
    now rewrite app_nil_r.
  - rewrite (@delete_one_file_written _ orig _ (url_nonempty orig) Eo);
      cbn [files undeletable alias];
      [|apply in_or_app; right; now left
       |exact Uo].
    rewrite filter_app. cbn [filter]. rewrite same_file_refl.
    cbn [negb]. rewrite (@filter_other _ orig disk0)
      by (intros f Hf; exact (proj1 (Hdisk f Hf))).
    rewrite app_nil_r. reflexivity.
Qed.

End FileFacts.

(** X12. What file deletion touches. [_delete_physical_files] never adds a
    file and changes neither which files resist deletion nor which names
    the system resolves to one file; a file stays on disk when every path
    that one of the two URLs maps to names another file or cannot be
    unlinked.  A URL that does not begin with [/images/] maps to no path,
    so it deletes nothing. *)
Theorem delete_physical_files_scope :
  forall (img_url img_object_url : option string)
         (fs : VectorService.filesystem),
    let fs' :=
      VectorService._delete_physical_files img_url img_object_url fs in
    incl (VectorService.files fs') (VectorService.files fs) /\
    VectorService.undeletable fs' = VectorService.undeletable fs /\
    VectorService.alias fs' = VectorService.alias fs /\
    (forall f, In f (VectorService.files fs) ->
       (forall q,
          VectorService._url_to_path (VectorService.or_empty img_url)
            = Some q \/
          VectorService._url_to_path (VectorService.or_empty img_object_url)
            = Some q ->
          VectorService.same_file fs q f = false \/
          existsb (VectorService.same_file fs q)
            (VectorService.undeletable fs) = true) ->
       In f (VectorService.files fs')) /\
    (forall url, prefix "/images/" url = false ->
       VectorService._url_to_path url = None).
Proof.
  intros u1 u2 fs fs'. unfold fs', VectorService._delete_physical_files.
  destruct (delete_one_file_frame u1 fs) as [Hu1 Ha1].
  destruct (delete_one_file_frame u2 (VectorService.delete_one_file u1 fs))
    as [Hu2 Ha2].
  repeat split.
  - eapply incl_tran; apply delete_one_file_incl.
  - now rewrite Hu2.
  - now rewrite Ha2.
  - intros f Hin Hkeep. apply delete_one_file_keeps.
    + apply delete_one_file_keeps; [assumption|]. intros q Hq.
      apply Hkeep. now left.
    + intros q Hq. rewrite Hu1.
      rewrite (@same_file_frame fs (VectorService.delete_one_file u1 fs)
                 q f Ha1).
      replace (existsb (VectorService.same_file
                          (VectorService.delete_one_file u1 fs) q)
                 (VectorService.undeletable fs))
        with (existsb (VectorService.same_file fs q)
                (VectorService.undeletable fs)).
      * apply Hkeep. now right.
      * apply existsb_same. intros g. symmetry.
        exact (@same_file_frame fs (VectorService.delete_one_file u1 fs)
                 q g Ha1).
  - intros url H. unfold VectorService._url_to_path. rewrite H.
    destruct (String.eqb url ""); reflexivity.
Qed.

(** The picture of another image stays when one image's file is deleted,
    also when the URL is written with a doubled slash. *)
Lemma delete_physical_files_scope_witness :
  let fs := {| VectorService.files :=
                 ["data/upload/X/a/a.jpg"; "data/upload/X/b/b.jpg"]%string;
               VectorService.undeletable := [];
               VectorService.alias := fun _ _ => false |} in
  let fs' := VectorService._delete_physical_files
               (Some "/images/upload//X/a/a.jpg"%string) None fs in
  In "data/upload/X/b/b.jpg"%string (VectorService.files fs') /\
  ~ In "data/upload/X/a/a.jpg"%string (VectorService.files fs').
Proof.
  intros fs fs'. split.
  - apply (proj1 (proj2 (proj2 (proj2
             (delete_physical_files_scope
                (Some "/images/upload//X/a/a.jpg"%string) None fs))))).
    + right. left. reflexivity.
    + intros q [Hq|Hq]; vm_compute in Hq; inversion Hq. now left.
  - vm_compute. intros [H|[]]. discriminate H.
Defined.

(** X13. URLs and paths. For a path that [Path] reads as lying below the
    upload or the temporary directory, the URL that [get_image_url] gives
    is mapped back by [_url_to_path] to that path in the form [Path]
    gives it (so to the path itself when it has no doubled slash, no
    [.] component and no trailing slash); and a URL made of [/images/],
    [upload] or [temp] and further components is mapped by
    [_url_to_path] to a path that [get_image_url] maps back to the URL. *)
Theorem url_path_round_trip :
  forall (s : string) (rest : list string),
    (PyPath.is_relative_to (PyPath.Path s) Registration.upload_path = true \/
     PyPath.is_relative_to (PyPath.Path s) Registration.temp_path = true ->
     VectorService._url_to_path (Registration.get_image_url s)
     = Some (PyPath.str (PyPath.Path s))) /\
    (forallb PyPath.clean rest = true ->
     s = ("/images/" ++ PyPath.join_slash ("upload" :: rest))%string \/
     s = ("/images/" ++ PyPath.join_slash ("temp" :: rest))%string ->
     exists p, VectorService._url_to_path s = Some p /\
               Registration.get_image_url p = s).
Proof.
  intros s rest. split.
  - intros [H|H].
    + destruct (@relative_split s Registration.upload_path "upload"%string
                  eq_refl eq_refl H) as (r & _ & E).
      exact (@round_trip_below "upload"%string r s (or_introl eq_refl) E).
    + destruct (@relative_split s Registration.temp_path "temp"%string
                  eq_refl eq_refl H) as (r & _ & E).
      exact (@round_trip_below "temp"%string r s (or_intror eq_refl) E).
  - intros Hc [-> | ->].
    + exists (PyPath.join_slash ("data"%string :: "upload"%string :: rest)).
      split; [now apply url_to_path_join|].
      apply get_image_url_below; [now left|].
      apply Path_join. exact Hc.
    + exists (PyPath.join_slash ("data"%string :: "temp"%string :: rest)).
      split; [now apply url_to_path_join|].
      apply get_image_url_below; [now right|].
      apply Path_join. exact Hc.
Qed.

(** The original picture of a registration, there and back, written with
    a doubled slash: the path comes back without it. *)
Lemma url_path_round_trip_witness :
  VectorService._url_to_path
    (Registration.get_image_url "data/upload//X/img-1/img-1.jpg")
  = Some "data/upload/X/img-1/img-1.jpg"%string.
Proof.
  apply (proj1 (url_path_round_trip "data/upload//X/img-1/img-1.jpg" [])).
  left. reflexivity.
Defined.

Section RegisterFacts.

Import PyNum PyPath VectorService Registration Catalog.
Local Open Scope string_scope.

Lemma original_file_round_trip e i :
  relative e = true -> plain i = true ->
  _url_to_path (get_image_url (original_file e i))
  = Some (original_file e i).
Proof.
  intros He Hi.
  exact (@registered_file_round_trip e i ".jpg" He Hi eq_refl
           ltac:(discriminate)).
Qed.

Lemma object_file_round_trip e i :
  relative e = true -> plain i = true ->
  _url_to_path (get_image_url (object_file e i)) = Some (object_file e i).
Proof.
  intros He Hi.
  exact (@registered_file_round_trip e i "_object.png" He Hi eq_refl
           ltac:(discriminate)).
Qed.

Lemma object_file_str e i :
  relative e = true -> plain i = true ->
  str (Path (object_file e i)) = object_file e i.
Proof.
  intros He Hi.
  exact (@registered_file_str e i "_object.png" He Hi eq_refl
           ltac:(discriminate)).
Qed.

(** The shared end of both registrations, followed by the deletion. *)
Lemma registered_then_deleted json name response cl d0 c0 c' e i
    (processed : bool) disk0 undel al :
  let fs0 := {| files := disk0; undeletable := undel; alias := al |} in
  has_query cl || has_collections cl = true ->
  relative e = true -> plain i = true ->
  fresh_image_id c0 i ->
  (forall f, In f disk0 ->
     same_file fs0 (original_file e i) f = false /\
     same_file fs0 (object_file e i) f = false) ->
  al (original_file e i) (object_file e i) = false ->
  al (object_file e i) (original_file e i) = false ->
  existsb (same_file fs0 (original_file e i)) undel = false ->
  existsb (same_file fs0 (object_file e i)) undel = false ->
  d_image_id d0 = i ->
  d_img_url d0 = Some (get_image_url (original_file e i)) ->
  d_img_object_url d0
    = (if processed then Some (get_image_url (object_file e i)) else None) ->
  add_image json name response d0 c0 = (inr i, c') ->
  delete_by_image_id json name cl i c'
    {| files := if processed
                then write_file (object_file e i)
                       (write_file (original_file e i) disk0)
                else write_file (original_file e i) disk0;
       undeletable := undel;
       alias := al |}
  = (true, c0, fs0).
Proof.
  intros fs0 Hcl He Hi Hfresh Hdisk Hao Hap Uo Up Eid Eu Eo Ea.
  pose proof (add_image_success _ _ _ _ _ Ea) as (_ & Ec & _ & _).
  set (p := data_object json name d0) in *.
  set (v := feature_vector d0) in *.
  assert (Hf : fetch_by_image_id c' i
               = Some {| uuid := fresh_uuid c0; props := p; vector := v |}).
  { rewrite Ec, fetch_after_insert.
    rewrite (fetch_by_image_id_missing c0 Hfresh).
    unfold p, data_object. cbn [p_image_id].
    rewrite Eid. now rewrite String.eqb_refl. }
  unfold delete_by_image_id, get_by_image_id.
  rewrite Hcl, Hf. cbn [uuid props].
  rewrite Ec, delete_inserted.
  unfold to_record, p, data_object.
  cbn [rec_img_url rec_img_object_url p_img_url p_img_object_url].
  rewrite Eu, Eo.
  now rewrite (@delete_registered_files (original_file e i)
                 (object_file e i) processed disk0 undel al
                 (@original_file_round_trip e i He Hi)
                 (@object_file_round_trip e i He Hi)
                 (@original_not_object e i He Hi) Hdisk Hao Hap Uo Up).
Qed.

Lemma add_image_rejected json name response d c e c' :
  add_image json name response d c = (inl e, c') -> c' = c.
Proof.
  intros H.
  pose proof (@add_image_error_keeps_collection json name response d c e)
    as K.
  rewrite H in K. exact (K eq_refl).
Qed.

Lemma write_file_incl p fs : incl fs (write_file p fs).
Proof.
  intros q Hq. now apply write_file_keeps.
Qed.

End RegisterFacts.

(** The insert at the end of a registration that returned. *)
Ltac insert_succeeded H :=
  match type of H with
  | context [VectorService.add_image ?j ?n ?r ?d0 ?c] =>
      let e := fresh "e" in
      let id := fresh "id" in
      let c' := fresh "c'" in
      let Ea := fresh "Ea" in
      let Eid := fresh "Eid" in
      destruct (VectorService.add_image j n r d0 c) as [[e|id] c'] eqn:Ea;
      [discriminate|];
      pose proof (add_image_success _ _ _ _ _ Ea) as (Eid & _);
      cbn in Eid; subst id; inversion H; subst;
      cbn [Registration.store Registration.disk]
  end.

(** The insert at the end of a registration that raised. *)
Ltac insert_rejected H :=
  match type of H with
  | context [VectorService.add_image ?j ?n ?r ?d0 ?c] =>
      let e := fresh "e" in
      let id := fresh "id" in
      let c' := fresh "c'" in
      let Ea := fresh "Ea" in
      destruct (VectorService.add_image j n r d0 c) as [[e|id] c'] eqn:Ea;
      [|discriminate];
      apply add_image_rejected in Ea; inversion H; subst
  end.

(** X14. Register an object image, then delete it. When
    [ObjectService.add_image] with [save_files] succeeds for an
    [object_id] that does not begin with a slash and a fresh [image_id]
    that is one path component, the two files named no file that was on
    disk before and are two files that can be unlinked, then
    [delete_by_image_id] of that id returns [True] and gives back both
    the collection and the disk as they were before the registration,
    whether or not the background removal produced a picture. *)
Theorem object_register_then_delete :
  forall (json : VectorService.json_codec)
         (models : Registration.object_models)
         (saves : string -> bool)
         (response : VectorService.rest_response)
         (cl : VectorService.client)
         (img : Registration.image) (image_id object_id : string)
         (custom_data : VectorService.custom) (created_at : string)
         (w w' : Registration.world) (d : VectorService.image_data)
         (undel : list string) (al : string -> string -> bool),
    let fs0 := {| VectorService.files := Registration.disk w;
                  VectorService.undeletable := undel;
                  VectorService.alias := al |} in
    let orig := Registration.original_file object_id image_id in
    let obj := Registration.object_file object_id image_id in
    VectorService.has_query cl || VectorService.has_collections cl = true ->
    Registration.relative object_id = true ->
    Registration.plain image_id = true ->
    Catalog.fresh_image_id (Registration.store w) image_id ->
    (forall f, In f (Registration.disk w) ->
       VectorService.same_file fs0 orig f = false /\
       VectorService.same_file fs0 obj f = false) ->
    al orig obj = false -> al obj orig = false ->
    existsb (VectorService.same_file fs0 orig) undel = false ->
    existsb (VectorService.same_file fs0 obj) undel = false ->
    Registration.object_add_image json models saves response (Some img)
      image_id object_id true custom_data created_at w = (inr d, w') ->
    VectorService.delete_by_image_id json "ObjectData" cl image_id
      (Registration.store w')
      {| VectorService.files := Registration.disk w';
         VectorService.undeletable := undel;
         VectorService.alias := al |}
    = (true, Registration.store w, fs0).
Proof.
  intros json models saves response cl img image_id object_id custom created
         w w' d undel al fs0 orig obj Hcl He Hi Hfresh Hdisk Hao Hap Uo Up
         Hreg.
  unfold Registration.object_add_image, Registration.object_save_files,
    Registration.save_upload_image, Registration.save_processed_image
    in Hreg.
  fold orig in Hreg.
  destruct (saves orig); [|discriminate].
  destruct (Registration.remove_background models img) as [cut|];
    cbn beta iota zeta in Hreg.
  - rewrite (@object_file_str object_id image_id He Hi) in Hreg.
    fold obj in Hreg.
    destruct (saves obj); [|discriminate]. cbn beta iota zeta in Hreg.
    destruct (Registration.extract_features models img) as [features|];
      [|discriminate].
    insert_succeeded Hreg.
    match goal with
    | Ea : VectorService.add_image _ _ _ ?d0 _ = (_, ?c') |- _ =>
        exact (@registered_then_deleted json _ response cl d0 _ c' object_id
                 image_id true _ undel al Hcl He Hi Hfresh Hdisk Hao Hap
                 Uo Up eq_refl eq_refl eq_refl Ea)
    end.
  - destruct (Registration.extract_features models img) as [features|];
      [|discriminate].
    insert_succeeded Hreg.
    match goal with
    | Ea : VectorService.add_image _ _ _ ?d0 _ = (_, ?c') |- _ =>
        exact (@registered_then_deleted json _ response cl d0 _ c' object_id
                 image_id false _ undel al Hcl He Hi Hfresh Hdisk Hao Hap
                 Uo Up eq_refl eq_refl eq_refl Ea)
    end.
Qed.

(** A first picture of object X, with its cut-out, registered into an
    empty system and deleted again. *)
Lemma object_register_then_delete_witness :
  let json := {| VectorService.dumps := fun _ => "{}"%string;
                 VectorService.loads := fun _ => Some [] |} in
  let models :=
    {| Registration.remove_background := fun _ => Some "cut"%string;
       Registration.extract_features :=
         fun _ => Some [VectorService.FNum 1] |} in
  let w := {| Registration.disk := []; Registration.store := [] |} in
  let w' := snd (Registration.object_add_image json models (fun _ => true)
                   (VectorService.rest_get_objects []) (Some "pic"%string)
                   "img-1" "X" true [] "t0" w) in
  Registration.disk w'
    = ["data/upload/X/img-1/img-1.jpg";
       "data/upload/X/img-1/img-1_object.png"]%string /\
  VectorService.delete_by_image_id json "ObjectData"
    VectorService.v4_client "img-1" (Registration.store w')
    {| VectorService.files := Registration.disk w';
       VectorService.undeletable := [];
       VectorService.alias := fun _ _ => false |}
  = (true, [], {| VectorService.files := [];
                  VectorService.undeletable := [];
                  VectorService.alias := fun _ _ => false |}).
Proof.
  intros json models w w'. split; [reflexivity|].
  eapply (@object_register_then_delete json models (fun _ => true)
            (VectorService.rest_get_objects []) VectorService.v4_client
            "pic"%string "img-1"%string "X"%string [] "t0"%string w w' _ []
            (fun _ _ => false) eq_refl eq_refl eq_refl).
  - intros o [].
  - intros f [].
  - reflexivity.
  - reflexivity.
  - reflexivity.
  - reflexivity.
  - reflexivity.
Defined.

(** X15. Register a face, then delete it. The same for
    [FaceService.add_face] with [save_files]: after a successful
    registration for a [person_id] that does not begin with a slash and a
    fresh [image_id] that is one path component, whose two files named no
    file that was on disk before and are two files that can be unlinked,
    [delete_by_image_id] returns [True] and gives back the collection and
    the disk as they were, whether or not the detection carried a box to
    crop the face picture from. *)
Theorem face_register_then_delete :
  forall (json : VectorService.json_codec)
         (models : Registration.face_models)
         (saves : string -> bool)
         (response : VectorService.rest_response)
         (cl : VectorService.client)
         (img : Registration.image) (image_id person_id : string)
         (custom_data : VectorService.custom) (enable_liveness : bool)
         (created_at : string)
         (w w' : Registration.world) (d : VectorService.image_data)
         (undel : list string) (al : string -> string -> bool),
    let fs0 := {| VectorService.files := Registration.disk w;
                  VectorService.undeletable := undel;
                  VectorService.alias := al |} in
    let orig := Registration.original_file person_id image_id in
    let obj := Registration.object_file person_id image_id in
    VectorService.has_query cl || VectorService.has_collections cl = true ->
    Registration.relative person_id = true ->
    Registration.plain image_id = true ->
    Catalog.fresh_image_id (Registration.store w) image_id ->
    (forall f, In f (Registration.disk w) ->
       VectorService.same_file fs0 orig f = false /\
       VectorService.same_file fs0 obj f = false) ->
    al orig obj = false -> al obj orig = false ->
    existsb (VectorService.same_file fs0 orig) undel = false ->
    existsb (VectorService.same_file fs0 obj) undel = false ->
    Registration.add_face json models saves response (Some img)
      image_id person_id true custom_data enable_liveness created_at w
      = (inr d, w') ->
    VectorService.delete_by_image_id json "FaceData" cl image_id
      (Registration.store w')
      {| VectorService.files := Registration.disk w';
         VectorService.undeletable := undel;
         VectorService.alias := al |}
    = (true, Registration.store w, fs0).
Proof.
  intros json models saves response cl img image_id person_id custom liveness
         created w w' d undel al fs0 orig obj Hcl He Hi Hfresh Hdisk Hao Hap
         Uo Up Hreg.
  unfold Registration.add_face, Registration.face_save_files,
    Registration.save_upload_image, Registration.save_processed_image
    in Hreg.
  fold orig in Hreg.
  destruct (Registration.preprocess models img liveness) as [face|];
    [|discriminate].
  assert (Hlive : Registration.f_liveness_passed face <> Some false).
  { intros E. rewrite E in Hreg. discriminate. }
  destruct (Registration.f_liveness_passed face) as [[|]|];
    [|congruence|];
    (destruct (Registration.f_det_score face) as [sc|]; [|discriminate];
     destruct (Registration.face_features models face) as [features|];
       [|discriminate];
     destruct (saves orig); [|discriminate];
     destruct (PyNum.truthy (Registration.f_bbox face));
       cbn beta iota zeta in Hreg;
     [destruct (Registration.crop_face models img face) as [crop|];
        [|discriminate];
      rewrite (@object_file_str person_id image_id He Hi) in Hreg;
      fold obj in Hreg;
      destruct (saves obj); [|discriminate]; cbn beta iota zeta in Hreg;
      insert_succeeded Hreg;
      match goal with
      | Ea : VectorService.add_image _ _ _ ?d0 _ = (_, ?c') |- _ =>
          exact (@registered_then_deleted json _ response cl d0 _ c'
                   person_id image_id true _ undel al Hcl He Hi Hfresh
                   Hdisk Hao Hap Uo Up eq_refl eq_refl eq_refl Ea)
      end
     |insert_succeeded Hreg;
      match goal with
      | Ea : VectorService.add_image _ _ _ ?d0 _ = (_, ?c') |- _ =>
          exact (@registered_then_deleted json _ response cl d0 _ c'
                   person_id image_id false _ undel al Hcl He Hi Hfresh
                   Hdisk Hao Hap Uo Up eq_refl eq_refl eq_refl Ea)
      end]).
Qed.

(** A first face of person P, with its crop, registered into an empty
    system and deleted again. *)
Lemma face_register_then_delete_witness :
  let json := {| VectorService.dumps := fun _ => "{}"%string;
                 VectorService.loads := fun _ => Some [] |} in
  let face := {| Registration.f_bbox := Some "[0, 0, 10, 10]"%string;
                 Registration.f_det_score := Some (9 # 10);
                 Registration.f_kps := None;
                 Registration.f_liveness_passed := None |} in
  let models :=
    {| Registration.preprocess := fun _ _ => Some face;
       Registration.face_features :=
         fun _ => Some [VectorService.FNum 1];
       Registration.crop_face := fun _ _ => Some "crop"%string |} in
  let w := {| Registration.disk := []; Registration.store := [] |} in
  let w' := snd (Registration.add_face json models (fun _ => true)
                   (VectorService.rest_get_objects []) (Some "pic"%string)
                   "img-1" "P" true [] false "t0" w) in
  Registration.disk w'
    = ["data/upload/P/img-1/img-1.jpg";
       "data/upload/P/img-1/img-1_object.png"]%string /\
  VectorService.delete_by_image_id json "FaceData"
    VectorService.v4_client "img-1" (Registration.store w')
    {| VectorService.files := Registration.disk w';
       VectorService.undeletable := [];
       VectorService.alias := fun _ _ => false |}
  = (true, [], {| VectorService.files := [];
                  VectorService.undeletable := [];
                  VectorService.alias := fun _ _ => false |}).
Proof.
  intros json face models w w'. split; [reflexivity|].
  eapply (@face_register_then_delete json models (fun _ => true)
            (VectorService.rest_get_objects []) VectorService.v4_client
            "pic"%string "img-1"%string "P"%string [] false "t0"%string
            w w' _ [] (fun _ _ => false) eq_refl eq_refl eq_refl).
  - intros o [].
  - intros f [].
  - reflexivity.
  - reflexivity.
  - reflexivity.
  - reflexivity.
  - reflexivity.
Defined.

(** X16. A face registration that fails after detection, liveness and
    feature extraction succeeded. With [save_files], the call can still
    end in an error: from saving the original picture, from cropping the
    face or saving the crop, or from the insert.  In every case the
    collection is unchanged and no earlier file is gone; when the
    original picture could be saved it is on disk after the failed call,
    and when the crop was made and saved as well (so that the error came
    from the insert) the crop is on disk too. *)
Theorem face_late_failure_keeps_files :
  forall (json : VectorService.json_codec)
         (models : Registration.face_models)
         (saves : string -> bool)
         (response : VectorService.rest_response)
         (img : Registration.image) (image_id person_id : string)
         (custom_data : VectorService.custom) (enable_liveness : bool)
         (created_at : string) (w w' : Registration.world)
         (face : Registration.face_detection)
         (features : list VectorService.fval) (e : VectorService.error),
    let orig := Registration.original_file person_id image_id in
    let crop_path :=
      PyPath.str (PyPath.Path
                    (Registration.object_file person_id image_id)) in
    Registration.preprocess models img enable_liveness = Some face ->
    Registration.f_liveness_passed face <> Some false ->
    Registration.f_det_score face <> None ->
    Registration.face_features models face = Some features ->
    Registration.add_face json models saves response (Some img)
      image_id person_id true custom_data enable_liveness created_at w
      = (inl e, w') ->
    Registration.store w' = Registration.store w /\
    incl (Registration.disk w) (Registration.disk w') /\
    (saves orig = false -> Registration.disk w' = Registration.disk w) /\
    (saves orig = true -> In orig (Registration.disk w')) /\
    (saves orig = true ->
     PyNum.truthy (Registration.f_bbox face) = true ->
     Registration.crop_face models img face <> None ->
     saves crop_path = true ->
     In crop_path (Registration.disk w')).
Proof.
  intros json models saves response img image_id person_id custom liveness
         created w w' face features e orig crop_path Hpre Hlive Hscore Hfeat
         Hreg.
  unfold Registration.add_face, Registration.face_save_files,
    Registration.save_upload_image, Registration.save_processed_image
    in Hreg.
  rewrite Hpre, Hfeat in Hreg. fold orig in Hreg.
  destruct (Registration.f_det_score face) as [sc|]; [|congruence].
  destruct (Registration.f_liveness_passed face) as [[|]|];
    [|congruence|];
    (destruct (saves orig) eqn:So; cbn beta iota zeta in Hreg;
     [destruct (PyNum.truthy (Registration.f_bbox face)) eqn:Tb;
      cbn beta iota zeta in Hreg;
      [destruct (Registration.crop_face models img face) as [crop|] eqn:Cr;
       cbn beta iota zeta in Hreg;
       [fold crop_path in Hreg;
        destruct (saves crop_path) eqn:Sc; cbn beta iota zeta in Hreg;
        [insert_rejected Hreg|inversion Hreg; subst]
       |inversion Hreg; subst]
      |insert_rejected Hreg]
     |inversion Hreg; subst];
     cbn [Registration.store Registration.disk];
     repeat split; try congruence; intros;
     try apply incl_refl;
     try apply write_file_In;
     try (apply write_file_incl; apply write_file_In);
     try (eapply incl_tran; [|apply write_file_incl];
          apply write_file_incl);
     try apply write_file_incl).
Qed.

(** A face with a 1-vector registered against a collection of 2-vectors:
    the insert refuses the dimension, both files stay. *)
Lemma face_late_failure_keeps_files_witness :
  let json := {| VectorService.dumps := fun _ => "{}"%string;
                 VectorService.loads := fun _ => None |} in
  let face := {| Registration.f_bbox := Some "[0, 0, 10, 10]"%string;
                 Registration.f_det_score := Some (9 # 10);
                 Registration.f_kps := None;
                 Registration.f_liveness_passed := None |} in
  let models :=
    {| Registration.preprocess := fun _ _ => Some face;
       Registration.face_features :=
         fun _ => Some [VectorService.FNum 1];
       Registration.crop_face := fun _ _ => Some "crop"%string |} in
  let o := {| VectorService.uuid := 1;
              VectorService.props :=
                {| VectorService.p_image_id := "img-0";
                   VectorService.p_object_id := "P";
                   VectorService.p_img_url := "";
                   VectorService.p_img_object_url := "";
                   VectorService.p_custom_data := "{}";
                   VectorService.p_created_at := "";
                   VectorService.p_face := None |};
              VectorService.vector :=
                [VectorService.FNum 1; VectorService.FNum 0] |} in
  let w := {| Registration.disk := []; Registration.store := [o] |} in
  let w' := snd (Registration.add_face json models (fun _ => true)
                   (VectorService.rest_get_objects [o]) (Some "pic"%string)
                   "img-1" "P" true [] false "t0" w) in
  Registration.store w' = [o] /\
  In "data/upload/P/img-1/img-1.jpg"%string (Registration.disk w') /\
  In "data/upload/P/img-1/img-1_object.png"%string (Registration.disk w').
Proof.
  intros json face models o w w'.
  destruct (@face_late_failure_keeps_files json models (fun _ => true)
              (VectorService.rest_get_objects [o]) "pic"%string
              "img-1"%string "P"%string [] false "t0"%string w w' face
              [VectorService.FNum 1]
              (VectorService.ValueError
                 (VectorService.dimension_mismatch_message 2 1))
              eq_refl)
    as (Hs & _ & _ & Ho & Hc).
  - discriminate.
  - discriminate.
  - reflexivity.
  - reflexivity.
  - split; [exact Hs|]. split; [exact (Ho eq_refl)|].
    apply Hc; [reflexivity|reflexivity|discriminate|reflexivity].
Defined.

(** ** What a search and a match can report *)

Section SearchBounds.

Import PyNum VectorService Matching.
Local Open Scope Q_scope.











End SearchBounds.





(** ** The liveness verdict and its reason *)

Section LivenessReason.

Import PyNum Liveness.
Local Open Scope Q_scope.

Lemma reason_value paper real screen n thr pthr sthr :
  reason (predict_with_threshold (paper, real, screen) n thr pthr sthr) =
  if Qleb real thr then Some (RealScoreTooLow real thr)
  else if Qgeb paper pthr then Some (PaperScoreTooHigh paper pthr)
  else if Qgeb screen sthr then Some (ScreenScoreTooHigh screen sthr)
  else None.
Proof.
  unfold reason, predict_with_threshold, predict. cbn.
  destruct (Qleb real thr) eqn:E1.
  - apply Qleb_le in E1.
    replace (Qgtb real thr) with false; [reflexivity|].
    symmetry. now apply Qgtb_le.
  - assert (H1 : thr < real).
    { apply Qnot_le_lt. intros H. apply Qleb_le in H. congruence. }
    rewrite (proj2 (Qgtb_gt _ _) H1). cbn.
    destruct (Qgeb paper pthr) eqn:E2.
    + apply Qgeb_ge in E2.
      replace (Qltb paper pthr) with false; [reflexivity|].
      symmetry. now apply Qltb_ge.
    + apply Qgeb_lt in E2. rewrite (proj2 (Qltb_lt _ _) E2). cbn.
      destruct (Qgeb screen sthr) eqn:E3.
      * apply Qgeb_ge in E3.
        replace (Qltb screen sthr) with false; [reflexivity|].
        symmetry. now apply Qltb_ge.
      * apply Qgeb_lt in E3. now rewrite (proj2 (Qltb_lt _ _) E3).
Qed.

Lemma predict_label paper real screen n thr pthr sthr :
  label (base (snd (predict_with_threshold (paper, real, screen) n
                      thr pthr sthr)))
  = argmax3 paper real screen.
Proof. reflexivity. Qed.

Lemma predict_score paper real screen n thr pthr sthr :
  snd (fst (predict_with_threshold (paper, real, screen) n thr pthr sthr))
  = if Qgtb (real + (paper + screen)) 0
    then real / (real + (paper + screen)) else 1 # 2.
Proof. reflexivity. Qed.

End LivenessReason.

(** X19. The reason of a rejection. [predict_with_threshold] gives a
    reason exactly when it rejects, and the reason names the first check
    that fails, in the order real, paper, screen: the reason is the real
    score exactly when the real score is at or below its threshold; it is
    the paper score exactly when the real score passes and the paper
    score is at or above its threshold; it is the screen score exactly
    when the real and the paper score pass and the screen score is at or
    above its threshold. *)
Theorem liveness_reason_complete :
  forall (paper real screen : Q) (n_models : Z)
         (threshold paper_thr screen_thr : Q),
    let outcome :=
      Liveness.predict_with_threshold (paper, real, screen) n_models
        threshold paper_thr screen_thr in
    (Liveness.accepted outcome = true <-> Liveness.reason outcome = None) /\
    ((real <= threshold)%Q <->
       Liveness.reason outcome
       = Some (Liveness.RealScoreTooLow real threshold)) /\
    ((threshold < real /\ paper_thr <= paper)%Q <->
       Liveness.reason outcome
       = Some (Liveness.PaperScoreTooHigh paper paper_thr)) /\
    ((threshold < real /\ paper < paper_thr /\ screen_thr <= screen)%Q <->
       Liveness.reason outcome
       = Some (Liveness.ScreenScoreTooHigh screen screen_thr)).
Proof.
  intros paper real screen n thr pthr sthr outcome.
  unfold outcome. rewrite reason_value.
  assert (Hacc := accepted_iff paper real screen n thr pthr sthr).
  destruct (PyNum.Qleb real thr) eqn:E1.
  - apply Qleb_le in E1.
    assert (N1 : ~ thr < real) by (now apply Qle_not_lt).
    repeat split; intros; try congruence; tauto.
  - assert (H1 : thr < real).
    { apply Qnot_le_lt. intros K. apply Qleb_le in K. congruence. }
    assert (N1 : ~ real <= thr) by (now apply Qlt_not_le).
    destruct (PyNum.Qgeb paper pthr) eqn:E2.
    + apply Qgeb_ge in E2.
      assert (N2 : ~ paper < pthr) by (now apply Qle_not_lt).
      repeat split; intros; try congruence; tauto.
    + apply Qgeb_lt in E2.
      assert (N2' : ~ pthr <= paper) by (now apply Qlt_not_le).
      destruct (PyNum.Qgeb screen sthr) eqn:E3.
      * apply Qgeb_ge in E3.
        assert (N3 : ~ screen < sthr) by (now apply Qle_not_lt).
        repeat split; intros; try congruence; tauto.
      * apply Qgeb_lt in E3.
        assert (N3' : ~ sthr <= screen) by (now apply Qlt_not_le).
        repeat split; intros; try congruence; tauto.
Qed.

(** A replayed video: real 0.65 and paper 0.03 pass, screen 0.32 does
    not. *)
Lemma liveness_reason_complete_witness :
  Liveness.reason
    (Liveness.predict_with_threshold (3 # 100, 65 # 100, 32 # 100) 2
       (6 # 10) (3 # 10) (3 # 10))
  = Some (Liveness.ScreenScoreTooHigh (32 # 100) (3 # 10)).
Proof.
  apply (liveness_reason_complete (3 # 100) (65 # 100) (32 # 100) 2
           (6 # 10) (3 # 10) (3 # 10)).
  repeat split; try reflexivity; discriminate.
Defined.

(** X20. Verdict, label and score. For scores that are not negative the
    returned score lies between 0 and 1.  When the three scores are a
    probability distribution, the returned score is the real score, and
    with a threshold of at least one half an accepted picture also has
    the label 1 (real): the verdict by thresholds then never contradicts
    the arg-max label. *)
Theorem liveness_verdict_agrees_with_label :
  forall (paper real screen : Q) (n_models : Z)
         (threshold paper_thr screen_thr : Q),
    (0 <= paper)%Q -> (0 <= real)%Q -> (0 <= screen)%Q ->
    let outcome :=
      Liveness.predict_with_threshold (paper, real, screen) n_models
        threshold paper_thr screen_thr in
    let score := snd (fst outcome) in
    (0 <= score <= 1)%Q /\
    ((paper + real + screen == 1)%Q ->
       (score == real)%Q /\
       ((1 # 2 <= threshold)%Q -> Liveness.accepted outcome = true ->
        Liveness.label (Liveness.base (snd outcome)) = 1%Z)).
Proof.
  intros paper real screen n thr pthr sthr Hp Hr Hs outcome score.
  unfold score, outcome. rewrite predict_score. split.
  - destruct (PyNum.Qgtb (real + (paper + screen)) 0) eqn:E.
    + apply Qgtb_gt in E. split.
      * apply Qle_shift_div_l; [exact E|]. lra.
      * apply Qle_shift_div_r; [exact E|]. lra.
    + split; lra.
  - intros Hsum. split.
    + assert (E : 0 < real + (paper + screen)) by lra.
      rewrite (proj2 (Qgtb_gt _ _) E).
      assert (Et : real + (paper + screen) == 1) by lra.
      rewrite Et. unfold Qdiv. change (/ 1) with 1. lra.
    + intros Hthr Hacc. apply accepted_iff in Hacc as (H1 & _ & _).
      rewrite predict_label. unfold Liveness.argmax3.
      assert (G1 : paper < real) by lra.
      assert (G2 : screen <= real) by lra.
      rewrite (proj2 (Qgtb_gt _ _) G1).
      now rewrite (proj2 (Qgtb_le _ _) G2).
Qed.

(** Real 0.7, paper 0.2, screen 0.1 at the thresholds 0.6, 0.3, 0.3. *)
Lemma liveness_verdict_agrees_with_label_witness :
  let outcome :=
    Liveness.predict_with_threshold (2 # 10, 7 # 10, 1 # 10) 2
      (6 # 10) (3 # 10) (3 # 10) in
  (snd (fst outcome) == 7 # 10)%Q /\
  Liveness.label (Liveness.base (snd outcome)) = 1%Z.
Proof.
  intros outcome.
  destruct (@liveness_verdict_agrees_with_label (2 # 10) (7 # 10) (1 # 10)
              2 (6 # 10) (3 # 10) (3 # 10))
    as (_ & H); try discriminate.
  destruct H as (Hs & Hl); [reflexivity|].
  split; [exact Hs|]. apply Hl; [discriminate|reflexivity].
Defined.

(** ** The size of a compressed picture *)

Section CompressFacts.

Import PyNum Binary64 ImageUtils.
Local Open Scope Q_scope.

(** Half a unit in the last place of a number between 1 and 2. *)
Let u : Q := 1 # 9007199254740992.

Lemma round_half_even_close x :
  inject_Z (round_half_even x) - x <= 1 # 2 /\
  x - inject_Z (round_half_even x) <= 1 # 2.
Proof.
  unfold round_half_even.
  pose proof (Qfloor_le x) as Hl. pose proof (Qlt_floor x) as Hu.
  rewrite inject_Z_plus in Hu. change (inject_Z 1) with 1 in Hu.
  destruct (Qcompare (x - inject_Z (Qfloor x)) (1 # 2)) eqn:E.
  - apply Qeq_alt in E.
    destruct (Z.even (Qfloor x));
      [|rewrite inject_Z_plus; change (inject_Z 1) with 1]; lra.
  - apply Qlt_alt in E. lra.
  - apply Qgt_alt in E.
    rewrite inject_Z_plus. change (inject_Z 1) with 1. lra.
Qed.

Lemma two_pos z : 0 < 2 ^ z.
Proof. apply Qpower_0_lt. reflexivity. Qed.

Lemma two_plus n m : 2 ^ (n + m) == 2 ^ n * 2 ^ m.
Proof. apply Qpower_plus. discriminate. Qed.

Lemma exponent_le x : 2 ^ (-1022) <= x -> 2 ^ exponent x <= x.
Proof.
  intros Hx. unfold exponent.
  apply Z.max_case_strong; intros Hm; [|exact Hx].
  set (N := Qfloor (x * 2 ^ 1100)) in *.
  assert (HN : (0 < N)%Z).
  { destruct (Z.lt_ge_cases 0 N) as [H|H]; [exact H|].
    rewrite (Z.log2_nonpos N H) in Hm. lia. }
  pose proof (Z.log2_spec N HN) as [Hlo _].
  pose proof (Z.log2_nonneg N) as Hnn.
  replace (Z.log2 N - 1100)%Z with (Z.log2 N + - 1100)%Z by lia.
  rewrite two_plus, (Qpower_opp 2 1100 : 2 ^ (-1100) == / 2 ^ 1100).
  apply Qle_shift_div_r; [apply two_pos|].
  apply Qle_trans with (inject_Z N); [|apply Qfloor_le].
  change 2 with (inject_Z 2). rewrite <- Zpower_Qpower by exact Hnn.
  rewrite <- Zle_Qle. exact Hlo.
Qed.

Lemma round_positive_close x :
  2 ^ (-1022) <= x ->
  x * (1 - u) <= round_positive x /\ round_positive x <= x * (1 + u).
Proof.
  intros Hx. pose proof (exponent_le Hx) as He.
  unfold round_positive.
  set (e := exponent x) in *. set (s := (52 - e)%Z).
  pose proof (two_pos s) as HP.
  assert (HQ : 2 ^ s * 2 ^ (- s) == 1).
  { rewrite <- two_plus. now replace (s + - s)%Z with 0%Z by lia. }
  assert (Hy : 4503599627370496 <= x * 2 ^ s).
  { apply Qle_trans with (2 ^ e * 2 ^ s).
    - rewrite <- two_plus. unfold s.
      replace (e + (52 - e))%Z with 52%Z by lia. discriminate.
    - apply Qmult_le_compat_r; [exact He|]. now apply Qlt_le_weak. }
  pose proof (two_pos (- s)) as HI.
  destruct (round_half_even_close (x * 2 ^ s)) as [Hn1 Hn2].
  set (n := inject_Z (round_half_even (x * 2 ^ s))) in *.
  set (P := 2 ^ s) in *. set (I := 2 ^ (- s)) in *.
  unfold u. split.
  - assert (H : (x * P - n) * I <= x * P * (1 # 9007199254740992) * I).
    { apply Qmult_le_compat_r; [lra|now apply Qlt_le_weak]. }
    assert (Ex : x * P * I == x) by (rewrite <- Qmult_assoc, HQ; ring).
    nra.
  - assert (H : (n - x * P) * I <= x * P * (1 # 9007199254740992) * I).
    { apply Qmult_le_compat_r; [lra|now apply Qlt_le_weak]. }
    assert (Ex : x * P * I == x) by (rewrite <- Qmult_assoc, HQ; ring).
    nra.
Qed.


Lemma binary64_close x :
  (1 # 18446744073709551616) <= x -> x <= 18446744073709551616 ->
  exists r, binary64 x = Some r /\ x * (1 - u) <= r /\ r <= x * (1 + u).
Proof.
  intros Hlo Hhi.
  assert (Hx : 2 ^ (-1022) <= x).
  { apply Qle_trans with (2 ^ (-64)); [|exact Hlo].
    apply Qpower_le_compat_l; [lia|discriminate]. }
  destruct (round_positive_close Hx) as [H1 H2].
  unfold binary64, round.
  assert (Hpos : 0 < x) by lra.
  apply Qgt_alt in Hpos. rewrite Hpos.
  exists (round_positive x). split; [|split; assumption].
  destruct (Qle_bool (2 ^ 1024) (Qabs (round_positive x))) eqn:E;
    [|reflexivity].
  exfalso. apply Qle_bool_iff in E.
  unfold u in *.
  rewrite Qabs_pos in E by lra.
  assert (Hbig : 2 ^ 65 <= 2 ^ 1024)
    by (apply Qpower_le_compat_l; [lia|discriminate]).
  assert (H65 : 2 ^ 65 == 36893488147419103232) by reflexivity.
  lra.
Qed.

Lemma Qmult_le_mono (a b c d : Q) :
  0 <= a -> a <= b -> 0 <= c -> c <= d -> a * c <= b * d.
Proof. intros. nra. Qed.


Lemma scaled_close (a m b : Z) :
  (1 <= a < 2147483648)%Z -> (1 <= m < 2147483648)%Z ->
  (1 <= b < 2147483648)%Z ->
  exists p : Q,
    scaled a m b = inr (Qfloor p) /\
    inject_Z (a * m) / inject_Z b * (1 - (1 # 2251799813685248)) <= p /\
    p <= inject_Z (a * m) / inject_Z b * (1 + (1 # 2251799813685248)).
Proof.
  intros Ha Hm Hb. unfold scaled.
  replace (b =? 0)%Z with false by (symmetry; apply Z.eqb_neq; lia).
  assert (HA : 1 <= inject_Z a /\ inject_Z a <= 2147483648).
  { split; [change 1 with (inject_Z 1)|change 2147483648 with (inject_Z 2147483648)];
      rewrite <- Zle_Qle; lia. }
  assert (HM : 1 <= inject_Z m /\ inject_Z m <= 2147483648).
  { split; [change 1 with (inject_Z 1)|change 2147483648 with (inject_Z 2147483648)];
      rewrite <- Zle_Qle; lia. }
  assert (HB : 1 <= inject_Z b /\ inject_Z b <= 2147483648).
  { split; [change 1 with (inject_Z 1)|change 2147483648 with (inject_Z 2147483648)];
      rewrite <- Zle_Qle; lia. }
  rewrite inject_Z_mult.
  set (A := inject_Z a) in *. set (M := inject_Z m) in *.
  set (B := inject_Z b) in *.
  assert (Hq : (1 # 2147483648) <= M / B /\ M / B <= 2147483648).
  { split.
    - apply Qle_shift_div_l; lra.
    - apply Qle_shift_div_r; lra. }
  set (q := M / B) in *.
  destruct (@binary64_close q) as (r & -> & Hr1 & Hr2); [lra|lra|].
  destruct (@binary64_close A) as (fa & -> & Hf1 & Hf2); [lra|lra|].
  unfold u in *.
  assert (Hlow : (A * (1 - (1 # 9007199254740992)))
                 * (q * (1 - (1 # 9007199254740992))) <= fa * r)
    by (apply Qmult_le_mono; lra).
  assert (Hupp : fa * r <= (A * (1 + (1 # 9007199254740992)))
                           * (q * (1 + (1 # 9007199254740992))))
    by (apply Qmult_le_mono; lra).
  assert (Haq1 : 1 * (1 # 2147483648) <= A * q)
    by (apply Qmult_le_mono; lra).
  assert (Haq2 : A * q <= 2147483648 * 2147483648)
    by (apply Qmult_le_mono; lra).
  destruct (@binary64_close (fa * r)) as (p & -> & Hp1 & Hp2);
    [nra|nra|].
  unfold u in *.
  exists p. split.
  - rewrite py_int_floor; [reflexivity|nra].
  - assert (E : A * M / B == A * q) by (unfold q; field; lra).
    rewrite E. split; nra.
Qed.

Lemma Qfloor_lt_Z (p : Q) (k : Z) : p < inject_Z k -> (Qfloor p < k)%Z.
Proof.
  intros H. rewrite Zlt_Qlt.
  apply Qle_lt_trans with p; [apply Qfloor_le|exact H].
Qed.

Lemma Qfloor_ge_Z (p : Q) (k : Z) : inject_Z k <= p -> (k <= Qfloor p)%Z.
Proof.
  intros H. rewrite <- (Qfloor_Z k). now apply Qfloor_resp_le.
Qed.

Lemma resized (a m b : Z) :
  (1 <= a)%Z -> (a <= b)%Z -> (b < 2147483648)%Z ->
  (1 <= m)%Z -> (m < b)%Z ->
  exists n : Z,
    scaled a m b = inr n /\
    (0 <= n <= Z.min a m)%Z /\
    ((a * m < b)%Z -> n = 0%Z) /\
    ((b < a * m)%Z -> (1 <= n)%Z) /\
    ((b < 33554432)%Z ->
     n = (a * m / b)%Z \/
     (n = (a * m / b - 1)%Z /\ (a * m mod b)%Z = 0%Z)).
Proof.
  intros Ha Hab Hb Hm Hmb.
  destruct (@scaled_close a m b) as (p & E & Hp1 & Hp2); try lia.
  exists (Qfloor p). split; [exact E|].
  assert (HB : 1 <= inject_Z b /\ inject_Z b < 2147483648).
  { split; [change 1 with (inject_Z 1); rewrite <- Zle_Qle
           |change 2147483648 with (inject_Z 2147483648); rewrite <- Zlt_Qlt];
      lia. }
  assert (Ex : inject_Z (a * m) / inject_Z b * inject_Z b == inject_Z (a * m))
    by (field; lra).
  assert (HX : 0 <= inject_Z (a * m)).
  { change 0 with (inject_Z 0). rewrite <- Zle_Qle. nia. }
  set (x := inject_Z (a * m) / inject_Z b) in *.
  set (B := inject_Z b) in *.
  assert (Hx0 : 0 <= x).
  { apply Qle_shift_div_l; [lra|]. lra. }
  assert (bound : forall k : Z, (a * m <= k * b)%Z -> (k < 2147483648)%Z ->
                  p < inject_Z (k + 1)).
  { intros k Hk Hk'.
    assert (H1 : inject_Z (a * m) <= inject_Z k * B).
    { unfold B. rewrite <- inject_Z_mult, <- Zle_Qle. exact Hk. }
    assert (H2 : inject_Z k < 2147483648).
    { change 2147483648 with (inject_Z 2147483648). rewrite <- Zlt_Qlt. lia. }
    rewrite inject_Z_plus. change (inject_Z 1) with 1.
    assert (H3 : x <= inject_Z k).
    { apply Qmult_le_r with B; [lra|]. lra. }
    nra. }
  split; [split|split; [|split]].
  - apply Qfloor_ge_Z. change (inject_Z 0) with 0. nra.
  - apply Z.min_glb.
    + apply Z.lt_succ_r, Qfloor_lt_Z, bound; nia.
    + apply Z.lt_succ_r, Qfloor_lt_Z, bound; nia.
  - intros Hlt.
    assert (H1 : inject_Z (a * m) <= B - 1).
    { unfold B. rewrite <- inject_Z_pred, <- Zle_Qle. lia. }
    assert (Hp : p < inject_Z 1).
    { change (inject_Z 1) with 1.
      apply Qmult_lt_r with B; [lra|].
      apply Qle_lt_trans with (x * (1 + (1 # 2251799813685248)) * B).
      - apply Qmult_le_compat_r; lra.
      - nra. }
    apply Qfloor_lt_Z in Hp.
    assert (0 <= Qfloor p)%Z
      by (apply Qfloor_ge_Z; change (inject_Z 0) with 0; nra).
    lia.
  - intros Hgt.
    assert (H1 : B + 1 <= inject_Z (a * m)).
    { unfold B. change 1 with (inject_Z 1).
      rewrite <- inject_Z_plus, <- Zle_Qle. lia. }
    apply Qfloor_ge_Z. change (inject_Z 1) with 1.
    apply Qmult_le_r with B; [lra|].
    apply Qle_trans with (x * (1 - (1 # 2251799813685248)) * B).
    + nra.
    + apply Qmult_le_compat_r; lra.
  - intros Hsmall.
    pose proof (Z.div_mod (a * m) b ltac:(lia)) as Hdm.
    pose proof (Z.mod_pos_bound (a * m) b ltac:(lia)) as Hrem.
    set (k := (a * m / b)%Z) in *. set (rm := (a * m mod b)%Z) in *.
    assert (HB' : B < 33554432).
    { unfold B. change 33554432 with (inject_Z 33554432).
      rewrite <- Zlt_Qlt. lia. }
    assert (HX' : inject_Z (a * m) == B * inject_Z k + inject_Z rm).
    { unfold B. rewrite <- inject_Z_mult, <- inject_Z_plus, Hdm.
      reflexivity. }
    assert (HR : 0 <= inject_Z rm /\ inject_Z rm <= B - 1).
    { split.
      - change 0 with (inject_Z 0). rewrite <- Zle_Qle. lia.
      - unfold B. rewrite <- inject_Z_pred, <- Zle_Qle. lia. }
    assert (Hk0 : (0 <= k)%Z) by (apply Z.div_pos; nia).
    assert (HK : 0 <= inject_Z k /\ inject_Z k < 33554432).
    { split.
      - change 0 with (inject_Z 0). rewrite <- Zle_Qle. lia.
      - change 33554432 with (inject_Z 33554432). rewrite <- Zlt_Qlt.
        apply Z.div_lt_upper_bound; nia. }
    assert (Hsmallx : inject_Z (a * m) * (1 # 2251799813685248) < 1).
    { rewrite HX'. nra. }
    assert (Hup : (Qfloor p <= k)%Z).
    { apply Z.lt_succ_r, Qfloor_lt_Z. unfold Z.succ.
      rewrite inject_Z_plus. change (inject_Z 1) with 1.
      apply Qmult_lt_r with B; [lra|].
      apply Qle_lt_trans with (x * (1 + (1 # 2251799813685248)) * B).
      - apply Qmult_le_compat_r; lra.
      - nra. }
    assert (Hlow : (0 < rm)%Z -> (k <= Qfloor p)%Z).
    { intros Hr. apply Qfloor_ge_Z.
      assert (1 <= inject_Z rm)
        by (change 1 with (inject_Z 1); rewrite <- Zle_Qle; lia).
      apply Qmult_le_r with B; [lra|].
      apply Qle_trans with (x * (1 - (1 # 2251799813685248)) * B).
      + nra.
      + apply Qmult_le_compat_r; lra. }
    assert (Hlow' : (k - 1 <= Qfloor p)%Z).
    { apply Qfloor_ge_Z.
      rewrite inject_Z_pred.
      apply Qmult_le_r with B; [lra|].
      apply Qle_trans with (x * (1 - (1 # 2251799813685248)) * B).
      + nra.
      + apply Qmult_le_compat_r; lra. }
    destruct (Z.eq_dec rm 0) as [R0|R0].
    + destruct (Z.eq_dec (Qfloor p) k); [left; assumption|right; lia].
    + left. assert (k <= Qfloor p)%Z by (apply Hlow; lia). lia.
Qed.

End CompressFacts.

(** The rounding at values Python prints: 0.1 and [float(2**53 + 1)];
    half the smallest subnormal number goes to 0; the largest integer
    that [float] takes, and the next one, which overflows. *)
Example binary64_rounding :
  option_map Qred (Binary64.binary64 (1 # 10))
  = Some (3602879701896397 # 36028797018963968) /\
  option_map Qred (Binary64.binary64 (inject_Z (2 ^ 53 + 1)))
  = Some (inject_Z (2 ^ 53)) /\
  option_map Qred (Binary64.binary64 (/ inject_Z (2 ^ 1075))) = Some 0 /\
  option_map Qred (Binary64.binary64 (inject_Z (2 ^ 1024 - 2 ^ 970 - 1)))
  = Some (inject_Z (2 ^ 1024 - 2 ^ 971)) /\
  Binary64.binary64 (inject_Z (2 ^ 1024 - 2 ^ 970)) = None.
Proof. vm_compute. repeat split. Qed.

(** X21. The size [compress_image] gives, in binary64 arithmetic. For a
    picture with positive sides and a positive [max_size]: a picture
    within [max_size] keeps its size.  A larger one is resized, and the
    resize raises [ValueError] when the scaled side would be below 1,
    which is so whenever short * max_size < long and never when
    short * max_size > long.  When a size is returned the longer side
    (the height, for a square) is [max_size] exactly, both sides are at
    least 1, neither has grown, and, for sides below 2^25, the shorter
    one is the floor of short * max_size / long, or one less than it when
    that quotient is a whole number that the rounding falls short of. *)
Theorem compress_image_size_bounds :
  forall (width height max_size : Z),
    (0 < width < 2147483648)%Z -> (0 < height < 2147483648)%Z ->
    (0 < max_size)%Z ->
    let long := Z.max width height in
    let short := Z.min width height in
    ((long <= max_size)%Z ->
     ImageUtils.compress_size width height max_size = inr (width, height)) /\
    ((max_size < long)%Z ->
     ((short * max_size < long)%Z ->
      exists message,
        ImageUtils.compress_size width height max_size
        = inl (ImageUtils.ValueError message)) /\
     ((long < short * max_size)%Z ->
      exists size,
        ImageUtils.compress_size width height max_size = inr size) /\
     (forall w' h',
        ImageUtils.compress_size width height max_size = inr (w', h') ->
        (1 <= w' <= Z.min width max_size)%Z /\
        (1 <= h' <= Z.min height max_size)%Z /\
        ((height < width)%Z -> w' = max_size) /\
        ((width <= height)%Z -> h' = max_size) /\
        (long <= short * max_size)%Z /\
        ((long < 33554432)%Z ->
         Z.min w' h' = (short * max_size / long)%Z \/
         (Z.min w' h' = (short * max_size / long - 1)%Z /\
          (short * max_size mod long)%Z = 0%Z)))).
Proof.
  intros width height max_size Hw Hh Hm long short.
  unfold ImageUtils.compress_size. split.
  - intros Hle.
    replace (width >? max_size)%Z with false by (symmetry; lia).
    replace (height >? max_size)%Z with false by (symmetry; lia).
    reflexivity.
  - intros Hgt.
    replace ((width >? max_size)%Z || (height >? max_size)%Z)%bool
      with true by (symmetry; apply orb_true_iff; lia).
    destruct (Z.gtb_spec width height) as [G|G].
    + assert (El : long = width) by (unfold long; lia).
      assert (Es : short = height) by (unfold short; lia).
      rewrite El, Es in *.
      destruct (@resized height max_size width)
        as (n & -> & Hn & Hzero & Hone & Hclose); try lia.
      replace (max_size <? 1)%Z with false by (symmetry; lia). cbn [orb].
      destruct (Z.ltb_spec n 1) as [L|L].
      * split; [eauto|]. split; [intros; lia|]. intros w' h'. discriminate.
      * split; [intros; lia|]. split; [eauto|].
        intros w' h' E. injection E as <- <-.
        repeat split; lia.
    + assert (El : long = height) by (unfold long; lia).
      assert (Es : short = width) by (unfold short; lia).
      rewrite El, Es in *.
      destruct (@resized width max_size height)
        as (n & -> & Hn & Hzero & Hone & Hclose); try lia.
      replace (max_size <? 1)%Z with false by (symmetry; lia).
      rewrite orb_false_r.
      destruct (Z.ltb_spec n 1) as [L|L].
      * split; [eauto|]. split; [intros; lia|]. intros w' h'. discriminate.
      * split; [intros; lia|]. split; [eauto|].
        intros w' h' E. injection E as <- <-.
        repeat split; lia.
Qed.

(** A 4000 x 3000 photograph at the default [max_size] of 1024. *)
Lemma compress_image_size_bounds_witness :
  exists w' h',
    ImageUtils.compress_size 4000 3000 1024 = inr (w', h') /\
    w' = 1024%Z /\ (h' = 768 \/ h' = 767)%Z.
Proof.
  destruct (@compress_image_size_bounds 4000 3000 1024) as (_ & H);
    try lia.
  destruct H as (_ & Hex & Hb); [lia|].
  destruct Hex as ([w' h'] & E); [lia|].
  exists w', h'. split; [exact E|].
  destruct (Hb _ _ E) as (_ & Hh & Hw' & _ & _ & Hc).
  assert (Ew : w' = 1024%Z) by (apply Hw'; lia).
  split; [exact Ew|].
  specialize (Hc ltac:(lia)).
  change (Z.min 4000 3000 * 1024 / Z.max 4000 3000)%Z with 768%Z in Hc.
  lia.
Defined.

(** Where binary64 and exact arithmetic part: 1024/1122 is rounded
    down, so a square of side 1122 comes out as 1023 x 1024; and
    49 * (1/49) is below 1, so a square of side 49 with [max_size] 1
    cannot be resized, and neither can a picture of 5000 x 1. *)
Example compress_image_rounding :
  ImageUtils.compress_size 1122 1122 1024 = inr (1023, 1024)%Z /\
  ImageUtils.compress_size 3136 1519 1024 = inr (1024, 495)%Z /\
  (1519 * 1024 / 3136 = 496)%Z /\
  ImageUtils.compress_size 49 49 1
  = inl (ImageUtils.ValueError "height and width must be > 0") /\
  ImageUtils.compress_size 7 7 1 = inr (1, 1)%Z /\
  ImageUtils.compress_size 5000 1 1024
  = inl (ImageUtils.ValueError "height and width must be > 0").
Proof. vm_compute. repeat split. Qed.

(** ** The persisted model snapshots *)

Section SnapshotFacts.

Import PyNum VectorService ModelChange.
Local Open Scope string_scope.

Lemma equals_config_current st :
  equals_config (as_json (get_current_model_config st))
    (get_current_model_config st) = true.
Proof.
  unfold get_current_model_config.
  destruct (String.eqb (app_mode st) "object").
  - destruct (String.eqb (object_backend st) "pytorch");
      cbn; now rewrite !String.eqb_refl.
  - destruct (String.eqb (app_mode st) "face"); [|reflexivity].
    cbn. now rewrite !String.eqb_refl.
Qed.

Lemma check_after_save env st content :
  makes_config_dir env = true ->
  check_model_change env st
    (Loaded (JObject (dict_set content (app_mode st)
                        (as_json (get_current_model_config st)))))
  = inr false.
Proof.
  intros Hd. unfold check_model_change. rewrite Hd. cbn.
  rewrite dict_get_set_same, equals_config_current.
  now rewrite andb_false_r.
Qed.

Lemma dict_set_filter_again (d : dict jvalue) k v :
  Forall (fun kv => valid_mode kv = true) d ->
  dict_set (filter valid_mode (dict_set d k v)) k v = dict_set d k v.
Proof.
  induction 1 as [|[k' v'] d Hk Hd IH]; simpl.
  - unfold valid_mode at 1. cbn [fst].
    destruct (String.eqb k "object" || String.eqb k "face"); simpl;
      now rewrite ?String.eqb_refl.
  - destruct (String.eqb k' k) eqn:E; simpl.
    + replace (valid_mode (k', v)) with true by (symmetry; exact Hk).
      simpl. rewrite E. f_equal.
      apply filter_true. intros x Hx.
      rewrite Forall_forall in Hd. auto.
    + rewrite Hk. simpl. rewrite E. now rewrite IH.
Qed.

Lemma save_twice env st content :
  let saved :=
    Loaded (JObject (dict_set (filter valid_mode content) (app_mode st)
                       (as_json (get_current_model_config st)))) in
  save_current_config env st saved = inr saved.
Proof.
  intros saved. unfold save_current_config, saved. cbn [load_config read_config].
  rewrite dict_set_filter_again; [now destruct (writes env)|].
  apply Forall_forall. intros x Hx. now apply filter_In in Hx.
Qed.

Lemma reset_saved env st s flag s1 :
  writes env = true ->
  reset_collection_if_needed env st s = (inr flag, s1) ->
  exists content,
    file s1 =
    Loaded (JObject (dict_set (filter valid_mode content) (app_mode st)
                       (as_json (get_current_model_config st)))).
Proof.
  intros Hw. unfold reset_collection_if_needed.
  destruct (check_model_change env st (file s)) as [e|[|]];
    [discriminate| |].
  - destruct (if connected (db s) then inr (db s) else connect env (db s))
      as [e|w]; [discriminate|].
    destruct (delete_collection env w) as [deleted w1].
    destruct (save_current_config env st (file s)) as [e|f'] eqn:Es;
      [discriminate|].
    intros E. injection E as _ <-.
    destruct (save_current_config_inv _ _ _ Es) as (content & _ & ->).
    rewrite Hw. cbn. eauto.
  - destruct (save_current_config env st (file s)) as [e|f'] eqn:Es;
      [discriminate|].
    intros E. injection E as _ <-.
    destruct (save_current_config_inv _ _ _ Es) as (content & _ & ->).
    rewrite Hw. cbn. eauto.
Qed.

Lemma dict_get_set_other {V : Type} (d : dict V) k v m :
  k <> m -> dict_get (dict_set d k v) m = dict_get d m.
Proof.
  intros Hne. induction d as [|[k' v'] d IH]; simpl.
  - now rewrite (proj2 (String.eqb_neq k m) Hne).
  - destruct (String.eqb k' k) eqn:E; simpl.
    + apply String.eqb_eq in E. subst k'.
      now rewrite (proj2 (String.eqb_neq k m) Hne).
    + destruct (String.eqb k' m); [reflexivity|exact IH].
Qed.

Lemma dict_get_valid (d : dict jvalue) m :
  dict_get (filter valid_mode d) m =
  if String.eqb m "object" || String.eqb m "face" then dict_get d m
  else None.
Proof.
  induction d as [|[k' v'] d IH]; simpl.
  - now destruct (_ || _).
  - unfold valid_mode at 1. cbn [fst].
    destruct (String.eqb k' m) eqn:E.
    + apply String.eqb_eq in E. subst k'.
      destruct (String.eqb m "object" || String.eqb m "face") eqn:Ev.
      * simpl. now rewrite String.eqb_refl.
      * rewrite IH. reflexivity.
    + destruct (String.eqb k' "object" || String.eqb k' "face").
      * simpl. rewrite E. exact IH.
      * exact IH.
Qed.

End SnapshotFacts.

(** X22. The reconciliation settles. After a run of
    [reset_collection_if_needed] that returned and wrote the
    configuration file, a second run with the same settings, whatever the
    engine then does and whether or not the file can be written again,
    makes no reset and leaves the file and the database as the first run
    left them: restarting with an unchanged configuration never drops the
    collection. *)
Theorem reconciliation_settles :
  forall (env env' : ModelChange.environment) (st : ModelChange.settings)
         (s s1 : ModelChange.state) (flag : bool),
    ModelChange.writes env = true ->
    ModelChange.makes_config_dir env' = true ->
    ModelChange.reset_collection_if_needed env st s = (inr flag, s1) ->
    ModelChange.reset_collection_if_needed env' st s1 = (inr false, s1).
Proof.
  intros env env' st s s1 flag Hw Hd E.
  destruct (reset_saved _ _ _ Hw E) as (content & Hf).
  unfold ModelChange.reset_collection_if_needed.
  rewrite Hf, (check_after_save env' st _ Hd).
  pose proof (save_twice env' st content) as Hs. cbv zeta in Hs.
  rewrite Hs, <- Hf. now destruct s1.
Qed.

(** A changed face model is reconciled once; the next start finds
    nothing to do. *)
Lemma reconciliation_settles_witness :
  let env := {| ModelChange.makes_config_dir := true;
                ModelChange.connects := true;
                ModelChange.creates := true;
                ModelChange.deletes := true;
                ModelChange.recreates := true;
                ModelChange.writes := true |} in
  let st := {| ModelChange.app_mode := "face";
               ModelChange.object_backend := "onnx";
               ModelChange.pytorch_dinov3_path := "";
               ModelChange.pytorch_birefnet_path := "";
               ModelChange.dinov3_model_path := "";
               ModelChange.bg_removal_model := "";
               ModelChange.face_model_name := "antelopev2" |} in
  let s := {| ModelChange.file :=
                ModelChange.Loaded
                  (ModelChange.JObject
                     [("face",
                       ModelChange.JObject
                         [("backend", ModelChange.JString "insightface");
                          ("model_name", ModelChange.JString "buffalo_l")])]
                  )%string;
              ModelChange.db :=
                {| ModelChange.connected := false;
                   ModelChange.classes := Some [] |} |} in
  let s1 := snd (ModelChange.reset_collection_if_needed env st s) in
  fst (ModelChange.reset_collection_if_needed env st s) = inr true /\
  ModelChange.reset_collection_if_needed env st s1 = (inr false, s1).
Proof.
  intros env st s s1. split; [reflexivity|].
  apply (@reconciliation_settles env env st s s1 true); reflexivity.
Defined.

(** X23. The snapshots of the other modes. When [save_current_config]
    returns and the file is written, the snapshot of the active mode only
    is replaced: the snapshot of the other of the two modes [object] and
    [face] is kept as it was, and an entry under any other key is dropped
    from the file; when the file cannot be written it is as it was. *)
Theorem snapshot_of_other_mode_kept :
  forall (env : ModelChange.environment) (st : ModelChange.settings)
         (f f' : ModelChange.config_file) (m : string),
    m <> ModelChange.app_mode st ->
    ModelChange.save_current_config env st f = inr f' ->
    (ModelChange.writes env = true ->
     ModelChange.prior_snapshot f' m
     = if (String.eqb m "object" || String.eqb m "face")%bool
       then ModelChange.prior_snapshot f m
       else None) /\
    (ModelChange.writes env = false -> f' = f).
Proof.
  intros env st f f' m Hne E.
  destruct (save_current_config_inv _ _ _ E) as (content & El & ->).
  split; intros ->; [|reflexivity].
  unfold ModelChange.prior_snapshot. cbn [ModelChange.read_config].
  rewrite dict_get_set_other by congruence.
  rewrite dict_get_valid.
  replace (ModelChange.read_config f) with (ModelChange.JObject content).
  - now destruct (String.eqb m "object" || String.eqb m "face")%bool.
  - destruct f; cbn in El; try discriminate; cbn; congruence.
Qed.

(** Face mode saved into a file that holds an object snapshot and a
    stray key. *)
Lemma snapshot_of_other_mode_kept_witness :
  let env := {| ModelChange.makes_config_dir := true;
                ModelChange.connects := true;
                ModelChange.creates := true;
                ModelChange.deletes := true;
                ModelChange.recreates := true;
                ModelChange.writes := true |} in
  let st := {| ModelChange.app_mode := "face";
               ModelChange.object_backend := "onnx";
               ModelChange.pytorch_dinov3_path := "";
               ModelChange.pytorch_birefnet_path := "";
               ModelChange.dinov3_model_path := "";
               ModelChange.bg_removal_model := "";
               ModelChange.face_model_name := "buffalo_l" |} in
  let object_snapshot :=
    ModelChange.JObject [("backend", ModelChange.JString "onnx")]%string in
  let f := ModelChange.Loaded
             (ModelChange.JObject
                [("object", object_snapshot);
                 ("legacy", ModelChange.JString "v1")]%string) in
  exists f',
    ModelChange.save_current_config env st f = inr f' /\
    ModelChange.prior_snapshot f' "object" = Some object_snapshot /\
    ModelChange.prior_snapshot f' "legacy" = None.
Proof.
  intros env st object_snapshot f. eexists. split; [reflexivity|].
  split.
  - refine (proj1 (@snapshot_of_other_mode_kept env st f _ "object"%string
                     _ eq_refl) eq_refl).
    discriminate.
  - refine (proj1 (@snapshot_of_other_mode_kept env st f _ "legacy"%string
                     _ eq_refl) eq_refl).
    discriminate.
Defined.

(** ** What [preprocess] returns *)

(** X24. Primary first, liveness only when enabled. When [preprocess]
    returns a result, the picture and the primary detector were there; if
    the primary detector found faces, the result is its first face, the
    log reports the primary resolution and the fallback was not tried;
    and the result carries a liveness verdict exactly when the request
    (or, without one, the settings) asks for it, the settings enable it
    and a liveness detector is loaded: a request cannot switch liveness
    on when the settings switch it off. *)
Theorem preprocess_primary_and_liveness_gate :
  forall (p : FacePipeline.pipeline) (st : FacePipeline.settings)
         (img : option FacePipeline.image) (enable_liveness : option bool)
         (r : FacePipeline.result) (log : list FacePipeline.log_line),
    FacePipeline.preprocess p st img enable_liveness = (Some r, log) ->
    exists image primary,
      img = Some image /\ FacePipeline.app p = Some primary /\
      (forall f fs, primary image = f :: fs ->
         FacePipeline.r_face r = f /\
         FacePipeline.reported_size log = Some (FacePipeline.det_size p) /\
         ~ In (FacePipeline.RetryFallback (FacePipeline.det_size_fallback p))
              log) /\
      (FacePipeline.r_liveness r <> None <->
       (match enable_liveness with
        | Some b => b
        | None => FacePipeline.s_enable_liveness st
        end && FacePipeline.s_enable_liveness st = true /\
        FacePipeline.liveness_detector p <> None)).
Proof.
  intros p st img flag r log H. unfold FacePipeline.preprocess in H.
  destruct (FacePipeline.app p) as [primary|]; [|discriminate].
  destruct img as [image|]; [|discriminate].
  destruct (FacePipeline.width image * FacePipeline.height image =? 0)%Z;
    [discriminate|].
  exists image, primary. split; [reflexivity|]. split; [reflexivity|].
  set (gate := (match flag with
                | Some b => b
                | None => FacePipeline.s_enable_liveness st
                end && FacePipeline.s_enable_liveness st)%bool) in *.
  destruct (primary image) as [|f0 fs0] eqn:Ep.
  - split; [intros f fs K; discriminate K|].
    destruct (FacePipeline.app_fallback p) as [fb|];
      [destruct (fb image) as [|f1 fs1]|]; cbn in H; try discriminate.
    destruct gate; [destruct (FacePipeline.liveness_detector p) as [d|]|].
    + destruct (FacePipeline.bbox f1) as [[[x1 y1] x2] y2].
      destruct (d _ _ _ _ _) as [[[real sc] details]|]; [|discriminate].
      inversion H; subst. cbn. split; [intros _|intros _ K; discriminate K].
      split; [reflexivity|discriminate].
    + inversion H; subst. cbn. split; [congruence|intros [_ K]; congruence].
    + inversion H; subst. cbn. split; [congruence|intros [K _]; congruence].
  - assert (H' :
      match gate, FacePipeline.liveness_detector p with
      | true, Some detect_liveness =>
          let '(x1, y1, x2, y2) := FacePipeline.bbox f0 in
          match detect_liveness image
                  (PyNum.py_int x1, PyNum.py_int y1,
                   PyNum.py_int (x2 - x1), PyNum.py_int (y2 - y1))
                  (FacePipeline.liveness_threshold st)
                  (FacePipeline.liveness_paper_reject_threshold st)
                  (FacePipeline.liveness_screen_reject_threshold st) with
          | None => False
          | Some (real, sc, details) =>
              r = {| FacePipeline.r_face := f0;
                     FacePipeline.r_liveness :=
                       Some {| FacePipeline.is_real := real;
                               FacePipeline.score := sc;
                               FacePipeline.l_passed :=
                                 Liveness.passed details;
                               FacePipeline.l_details := details |} |} /\
              log = [FacePipeline.StartDetection
                       (FacePipeline.width image)
                       (FacePipeline.height image);
                     FacePipeline.TryPrimary (FacePipeline.det_size p);
                     FacePipeline.PrimarySucceeded (S (List.length fs0));
                     FacePipeline.FaceDetectedAt (FacePipeline.det_size p)
                       f0;
                     FacePipeline.LivenessVerdict real]
          end
      | _, _ =>
          r = {| FacePipeline.r_face := f0;
                 FacePipeline.r_liveness := None |} /\
          log = [FacePipeline.StartDetection
                   (FacePipeline.width image) (FacePipeline.height image);
                 FacePipeline.TryPrimary (FacePipeline.det_size p);
                 FacePipeline.PrimarySucceeded (S (List.length fs0));
                 FacePipeline.FaceDetectedAt (FacePipeline.det_size p) f0]
      end).
    { destruct (FacePipeline.app_fallback p) as [fb|]; cbn in H;
        (destruct gate;
         [destruct (FacePipeline.liveness_detector p) as [d|]|]);
        try (destruct (FacePipeline.bbox f0) as [[[x1 y1] x2] y2];
             destruct (d _ _ _ _ _) as [[[real sc] details]|]);
        try discriminate H; inversion H; subst; split; reflexivity. }
    clear H.
    destruct gate; [destruct (FacePipeline.liveness_detector p) as [d|]|].
    + destruct (FacePipeline.bbox f0) as [[[x1 y1] x2] y2].
      destruct (d _ _ _ _ _) as [[[real sc] details]|].
      * destruct H' as [-> ->]. cbn. split.
        -- intros f fs K. inversion K; subst. split; [reflexivity|].
           split; [reflexivity|].
           intros [K'|[K'|[K'|[K'|[K'|[]]]]]]; discriminate K'.
        -- split; [intros _; split; [reflexivity|discriminate]
                  |intros _ K; discriminate K].
      * destruct H'.
    + destruct H' as [-> ->]. cbn. split.
      * intros f fs K. inversion K; subst. split; [reflexivity|].
        split; [reflexivity|].
        intros [K'|[K'|[K'|[K'|[]]]]]; discriminate K'.
      * split; [congruence|intros [_ K]; congruence].
    + destruct H' as [-> ->]. cbn. split.
      * intros f fs K. inversion K; subst. split; [reflexivity|].
        split; [reflexivity|].
        intros [K'|[K'|[K'|[K'|[]]]]]; discriminate K'.
      * split; [congruence|intros [K _]; congruence].
Qed.

(** A request for liveness while the settings switch it off: the face is
    returned without a verdict, although a detector is loaded. *)
Lemma preprocess_primary_and_liveness_gate_witness :
  let f := {| FacePipeline.bbox := (10, 10, 50, 50)%Q;
              FacePipeline.det_score := 9 # 10 |} in
  let p := {| FacePipeline.app := Some (fun _ => [f]);
              FacePipeline.app_fallback := None;
              FacePipeline.det_size := (640, 640)%Z;
              FacePipeline.det_size_fallback := (320, 320)%Z;
              FacePipeline.liveness_detector :=
                Some (fun _ _ _ _ _ => None) |} in
  let st := {| FacePipeline.s_enable_liveness := false;
               FacePipeline.liveness_threshold := 6 # 10;
               FacePipeline.liveness_paper_reject_threshold := 3 # 10;
               FacePipeline.liveness_screen_reject_threshold := 3 # 10 |} in
  let img := {| FacePipeline.width := 100; FacePipeline.height := 100;
                FacePipeline.pixels := "pic" |} in
  exists r log,
    FacePipeline.preprocess p st (Some img) (Some true) = (Some r, log) /\
    FacePipeline.r_face r = f /\
    ~ FacePipeline.r_liveness r <> None.
Proof.
  intros f p st img.
  exists {| FacePipeline.r_face := f; FacePipeline.r_liveness := None |}.
  eexists. split; [reflexivity|]. split; [reflexivity|].
  intros K.
  destruct (@preprocess_primary_and_liveness_gate p st (Some img)
              (Some true) _ _ eq_refl)
    as (image & primary & _ & _ & _ & H).
  apply H in K. destruct K as [K _]. discriminate K.
Defined.

